(** * L2TP control messages: wire codec, validation and buffer parser

    A shallow embedding of the control-message layer of go-l2tp
    (package [l2tp]): the v2/v3 headers, the v2 and v3 message codecs,
    the per-message AVP specification tables, [validate], the message
    buffer parser and the message builders, followed by the properties
    the specification states about them.

    Conventions.
    - A Go [uint16]/[uint32] is a [Z]; every conversion and every
      wrap-around is written out ([uint16], [uint32]).
    - A Go [[]byte] is a [list byte]; a slice expression [b[lo:hi]] is
      [slice b lo hi], which panics out of range (the capacity of a
      slice is taken to be its length).
    - A Go function returning [(T, error)] returns [result T]; a Go
      [panic] is the third outcome [Panic].
    - A Go [map] is a [gmap]; a [range] over a map visits its entries
      in an order chosen by the runtime, which is an explicit argument
      of the functions that depend on it. *)

From Stdlib Require Import ZArith List Lia Permutation.
From Stdlib.Strings Require Import Byte.
From stdpp Require Import base option list gmap.
Import ListNotations.
Open Scope Z_scope.

(** ** Integers and octets *)

Definition uint16 (z : Z) : Z := z mod 65536.
Definition uint32 (z : Z) : Z := z mod 4294967296.

Definition is_uint16 (z : Z) : Prop := 0 <= z < 65536.
Definition is_uint32 (z : Z) : Prop := 0 <= z < 4294967296.

Definition Z_of_byte (b : byte) : Z := Z.of_N (Byte.to_N b).

(** Go's [byte(v)]: the low eight bits of [v]. *)
Definition byte_of_Z (z : Z) : byte :=
  match Byte.of_N (Z.to_N (z mod 256)) with
  | Some b => b
  | None => x00
  end.

(** [encoding/binary], big endian. *)
Definition putUint16 (v : Z) : list byte :=
  [byte_of_Z (Z.shiftr v 8); byte_of_Z v].

Definition putUint32 (v : Z) : list byte :=
  [byte_of_Z (Z.shiftr v 24); byte_of_Z (Z.shiftr v 16);
   byte_of_Z (Z.shiftr v 8); byte_of_Z v].

Definition getUint16 (b0 b1 : byte) : Z :=
  Z.lor (Z_of_byte b1) (Z.shiftl (Z_of_byte b0) 8).

Definition getUint32 (b0 b1 b2 b3 : byte) : Z :=
  Z.lor (Z.lor (Z.lor (Z_of_byte b3) (Z.shiftl (Z_of_byte b2) 8))
               (Z.shiftl (Z_of_byte b1) 16))
        (Z.shiftl (Z_of_byte b0) 24).

Definition len {A : Type} (l : list A) : Z := Z.of_nat (length l).

(** ** Identifiers of the AVP subsystem

    Modelled from the spec: the declarations of [avpType], [avpMsgType]
    and [avpVendorID] and of their named constants are not part of the
    given sources.  The specification names the attributes and message
    types of RFC 2661 (sections 3.2 and 4.4) and the acknowledgement
    type of RFC 3931; the constants below carry the numbers these RFCs
    assign to them. *)

Abbreviation avpVendorID := Z (only parsing).
Abbreviation avpType := Z (only parsing).
Abbreviation avpMsgType := Z (only parsing).

Definition vendorIDIetf : avpVendorID := 0.

Definition avpTypeMessage : avpType := 0.
Definition avpTypeResultCode : avpType := 1.
Definition avpTypeProtocolVersion : avpType := 2.
Definition avpTypeFramingCap : avpType := 3.
Definition avpTypeBearerCap : avpType := 4.
Definition avpTypeTiebreaker : avpType := 5.
Definition avpTypeFirmwareRevision : avpType := 6.
Definition avpTypeHostName : avpType := 7.
Definition avpTypeVendorName : avpType := 8.
Definition avpTypeTunnelID : avpType := 9.
Definition avpTypeRxWindowSize : avpType := 10.
Definition avpTypeChallenge : avpType := 11.
Definition avpTypeChallengeResponse : avpType := 13.

Definition avpMsgTypeIllegal : avpMsgType := 0.
Definition avpMsgTypeSccrq : avpMsgType := 1.
Definition avpMsgTypeSccrp : avpMsgType := 2.
Definition avpMsgTypeScccn : avpMsgType := 3.
Definition avpMsgTypeStopccn : avpMsgType := 4.
Definition avpMsgTypeHello : avpMsgType := 6.
Definition avpMsgTypeAck : avpMsgType := 20.

(** ** Errors, panics and results *)

(** One constructor per error the package creates; the arguments are the
    values its message is formatted from. *)
Inductive error : Type :=
| EOF
| ErrUnexpectedEOF
| ErrIllegalProtocolVersion
| ErrMalformedHeader (length bound : Z)
| ErrUnableToDetermineOffset
| ErrInvalidLengthForMessage
| ErrV2FirstAvpNotMessageType
| ErrV3FirstAvpNotMessageType
| ErrInvalidV2FirstAvpNotMessageType
| ErrNoSpecification (t : avpMsgType)
| ErrUnexpectedAvp (at_ : avpType) (mt : avpMsgType)
| ErrFailedToDecodeAvp (at_ : avpType) (mt : avpMsgType) (e : error)
| ErrMissingMandatoryAvp (at_ : avpType) (mt : avpMsgType)
| ErrTunnelIDOutOfRange (tid : Z)
| ErrSessionIDOutOfRange (sid : Z)
| ErrFailedToCreateAvp (typ : avpType) (e : error)
| ErrV3ValidateNotImplemented
| ErrNewL2tpV3ControlMessageNotImplemented
| ErrAvp (code : nat).

Inductive panic : Type :=
| PanicIndexOutOfRange
| PanicSliceBoundsOutOfRange
| PanicInvalidL2TPv2Message
| PanicInvalidL2TPv3Message
| PanicFailedToDecodeMessageType (e : error)
| PanicUnhandledProtocolVersion.

Inductive result (A : Type) : Type :=
| Ok (a : A)
| Err (e : error)
| Panic (p : panic).
Arguments Ok {A} a.
Arguments Err {A} e.
Arguments Panic {A} p.

#[global] Instance result_ret : MRet result := fun A a => Ok a.
#[global] Instance result_bind : MBind result := fun A B f r =>
  match r with
  | Ok a => f a
  | Err e => Err e
  | Panic p => Panic p
  end.

Definition is_Ok {A : Type} (r : result A) : Prop := exists a, r = Ok a.

(** ** Slices and the byte reader *)

(** [b[lo:hi]].  Go bounds [hi] by the capacity of [b]; the model has
    no capacity and bounds it by the length, so for [len b < hi] its
    panic is the panic of the code on a slice without spare capacity
    only.  The two agree wherever [hi <= len b] or [hi < lo]. *)
Definition slice (b : list byte) (lo hi : Z) : result (list byte) :=
  if (0 <=? lo) && (lo <=? hi) && (hi <=? len b)
  then Ok (firstn (Z.to_nat (hi - lo)) (skipn (Z.to_nat lo) b))
  else Panic PanicSliceBoundsOutOfRange.

(** [bytes.Reader]: the underlying slice and the read position. *)
Record Reader : Type := mkReader { rd_s : list byte; rd_i : Z }.

Definition NewReader (b : list byte) : Reader := mkReader b 0.

Definition Reader_Len (r : Reader) : Z :=
  if len (rd_s r) <=? rd_i r then 0 else len (rd_s r) - rd_i r.

(** [r.Seek(offset, io.SeekCurrent)]: the new position and the reader;
    [None] is the negative-position error. *)
Definition Seek_current (r : Reader) (offset : Z) : option (Z * Reader) :=
  let abs := rd_i r + offset in
  if abs <? 0 then None else Some (abs, mkReader (rd_s r) abs).

(** [io.ReadFull(r, buf)] with [len(buf) = n], as [binary.Read] calls it:
    [EOF] when nothing is left, [ErrUnexpectedEOF] when fewer than [n]
    octets are left. *)
Definition readFull (r : Reader) (n : Z) : result (list byte * Reader) :=
  if Reader_Len r =? 0 then Err EOF
  else if Reader_Len r <? n then Err ErrUnexpectedEOF
  else Ok (firstn (Z.to_nat n) (skipn (Z.to_nat (rd_i r)) (rd_s r)),
           mkReader (rd_s r) (rd_i r + n)).

(** ** Headers *)

Record l2tpCommonHeader : Type := mkCommon { FlagsVer : Z; Len : Z }.

Record l2tpV2Header : Type := mkV2Header
  { Common : l2tpCommonHeader; Tid : Z; Sid : Z; Ns : Z; Nr : Z }.

Record l2tpV3Header : Type := mkV3Header
  { Common3 : l2tpCommonHeader; Ccid : Z; Ns3 : Z; Nr3 : Z }.

Definition controlMessageMinLen : Z := 12.
Definition controlMessageMaxLen : Z := 65535.
Definition commonHeaderLen : Z := 4.
Definition v2HeaderLen : Z := 12.
Definition v3HeaderLen : Z := 12.

Inductive ProtocolVersion : Type := ProtocolVersion2 | ProtocolVersion3.

Definition protocolVersion (h : l2tpCommonHeader) : result ProtocolVersion :=
  let v := Z.land (FlagsVer h) 15 in
  if v =? 2 then Ok ProtocolVersion2
  else if v =? 3 then Ok ProtocolVersion3
  else Err ErrIllegalProtocolVersion.

Definition newL2tpV2MessageHeader (tid sid ns nr : Z) (payloadBytes : Z)
  : l2tpV2Header :=
  {| Common := {| FlagsVer := 51202; Len := uint16 (v2HeaderLen + payloadBytes) |};
     Tid := tid; Sid := sid; Ns := ns; Nr := nr |}.

Definition newL2tpV3MessageHeader (ccid : Z) (ns nr : Z) (payloadBytes : Z)
  : l2tpV3Header :=
  {| Common3 := {| FlagsVer := 51203; Len := uint16 (v3HeaderLen + payloadBytes) |};
     Ccid := ccid; Ns3 := ns; Nr3 := nr |}.

(** [binary.Write(buf, binary.BigEndian, h)] for the three header types. *)
Definition writeCommonHeader (h : l2tpCommonHeader) : list byte :=
  putUint16 (FlagsVer h) ++ putUint16 (Len h).

Definition writeV2Header (h : l2tpV2Header) : list byte :=
  writeCommonHeader (Common h) ++ putUint16 (Tid h) ++ putUint16 (Sid h)
  ++ putUint16 (Ns h) ++ putUint16 (Nr h).

Definition writeV3Header (h : l2tpV3Header) : list byte :=
  writeCommonHeader (Common3 h) ++ putUint32 (Ccid h)
  ++ putUint16 (Ns3 h) ++ putUint16 (Nr3 h).

(** [binary.Read(r, binary.BigEndian, &h)] for the three header types. *)
Definition readCommonHeader (r : Reader) : result (l2tpCommonHeader * Reader) :=
  '(bs, r') ← readFull r commonHeaderLen;
  match bs with
  | [f0; f1; l0; l1] => Ok (mkCommon (getUint16 f0 f1) (getUint16 l0 l1), r')
  | _ => Err ErrUnexpectedEOF
  end.

Definition readV2Header (r : Reader) : result (l2tpV2Header * Reader) :=
  '(bs, r') ← readFull r v2HeaderLen;
  match bs with
  | [f0; f1; l0; l1; t0; t1; s0; s1; ns0; ns1; nr0; nr1] =>
      Ok (mkV2Header (mkCommon (getUint16 f0 f1) (getUint16 l0 l1))
            (getUint16 t0 t1) (getUint16 s0 s1)
            (getUint16 ns0 ns1) (getUint16 nr0 nr1), r')
  | _ => Err ErrUnexpectedEOF
  end.

Definition readV3Header (r : Reader) : result (l2tpV3Header * Reader) :=
  '(bs, r') ← readFull r v3HeaderLen;
  match bs with
  | [f0; f1; l0; l1; c0; c1; c2; c3; ns0; ns1; nr0; nr1] =>
      Ok (mkV3Header (mkCommon (getUint16 f0 f1) (getUint16 l0 l1))
            (getUint32 c0 c1 c2 c3)
            (getUint16 ns0 ns1) (getUint16 nr0 nr1), r')
  | _ => Err ErrUnexpectedEOF
  end.

(** ** The AVP boundary

    Modelled from the spec: the [avp] type of the AVP subsystem is not
    part of the given sources, which only use its fields [header] and
    [payload.data] (written verbatim by [toBytes]) and its methods.  The
    record follows the specification's description of an AVP (vendor id,
    type tag, raw payload) and the six-octet AVP header of RFC 2661
    section 4.1: flags and length, vendor id, attribute type. *)

Record avpHeader : Type := mkAvpHeader
  { FlagLen : Z; VendorID : avpVendorID; AvpType : avpType }.

Record avpPayload : Type := mkAvpPayload { data : list byte }.

Record avp : Type := mkAvp { avp_header : avpHeader; avp_payload : avpPayload }.

Definition avpHeaderLen : Z := 6.

(** Modelled from the spec: [avp.getType()] is not part of the given
    sources; the specification has it return the AVP's type tag. *)
Definition avp_getType (a : avp) : avpType := AvpType (avp_header a).

(** Modelled from the spec: the [resultCode] type is not part of the
    given sources; the fields are those of the Result Code AVP of
    RFC 2661 section 4.4.2. *)
Record resultCode : Type := mkResultCode
  { rc_result : Z; rc_errCode : Z; rc_errMessage : list byte }.

(** The dynamically typed values ([interface{}]) handed to [newAvp] and
    returned by [avp.decode()]. *)
Inductive avpValue : Type :=
| VMsgType (t : avpMsgType)
| VUint16 (v : Z)
| VUint32 (v : Z)
| VUint64 (v : Z)
| VBytes (bs : list byte)
| VString (bs : list byte)
| VResultCode (rc : resultCode).

(** The functions of the AVP subsystem that the message layer calls.
    They are not part of the given sources, so the message layer is
    defined, and most of its properties are proved, for every
    implementation of this interface. *)
Class AvpCodec : Type := mkAvpCodec
  { parseAVPBuffer : list byte -> result (list avp);
    avp_decode : avp -> result avpValue;
    decodeMsgType : avp -> result avpMsgType;
    totalLen : avp -> Z;
    avpsLengthBytes : list avp -> Z;
    newAvp : avpVendorID -> avpType -> avpValue -> result avp }.

(** [binary.Write] of an AVP header and of an AVP as [toBytes] emits it. *)
Definition writeAvpHeader (h : avpHeader) : list byte :=
  putUint16 (FlagLen h) ++ putUint16 (VendorID h) ++ putUint16 (AvpType h).

Definition writeAvp (a : avp) : list byte :=
  writeAvpHeader (avp_header a) ++ data (avp_payload a).

(** ** Message AVP specifications *)

Inductive avpSpec : Type := mustExist | mayExist.

#[global] Instance avpSpec_eq_dec : EqDecision avpSpec.
Proof. solve_decision. Defined.

Record msgSpec : Type := mkMsgSpec { spec_m : gmap avpType avpSpec }.

Definition hasAvp (spec : msgSpec) (t : avpType) : option avpSpec :=
  spec_m spec !! t.

Definition v2SccrqMsgSpec : msgSpec :=
  mkMsgSpec
    (<[avpTypeVendorName := mayExist]>
    (<[avpTypeFirmwareRevision := mayExist]>
    (<[avpTypeTiebreaker := mayExist]>
    (<[avpTypeChallenge := mayExist]>
    (<[avpTypeRxWindowSize := mayExist]>
    (<[avpTypeBearerCap := mayExist]>
    (<[avpTypeTunnelID := mustExist]>
    (<[avpTypeFramingCap := mustExist]>
    (<[avpTypeHostName := mustExist]>
    (<[avpTypeProtocolVersion := mustExist]>
    (<[avpTypeMessage := mustExist]> ∅))))))))))).

Definition v2SccrpMsgSpec : msgSpec :=
  mkMsgSpec
    (<[avpTypeVendorName := mayExist]>
    (<[avpTypeFirmwareRevision := mayExist]>
    (<[avpTypeTiebreaker := mayExist]>
    (<[avpTypeChallengeResponse := mayExist]>
    (<[avpTypeChallenge := mayExist]>
    (<[avpTypeRxWindowSize := mayExist]>
    (<[avpTypeBearerCap := mayExist]>
    (<[avpTypeTunnelID := mustExist]>
    (<[avpTypeHostName := mustExist]>
    (<[avpTypeFramingCap := mustExist]>
    (<[avpTypeProtocolVersion := mustExist]>
    (<[avpTypeMessage := mustExist]> ∅)))))))))))).

Definition v2ScccnMsgSpec : msgSpec :=
  mkMsgSpec
    (<[avpTypeChallengeResponse := mayExist]>
    (<[avpTypeMessage := mustExist]> ∅)).

Definition v2StopccnMsgSpec : msgSpec :=
  mkMsgSpec
    (<[avpTypeResultCode := mustExist]>
    (<[avpTypeTunnelID := mustExist]>
    (<[avpTypeMessage := mustExist]> ∅))).

Definition v2HelloMsgSpec : msgSpec :=
  mkMsgSpec (<[avpTypeMessage := mustExist]> ∅).

Definition getV2MsgSpec (t : avpMsgType) : result msgSpec :=
  if t =? avpMsgTypeSccrq then Ok v2SccrqMsgSpec
  else if t =? avpMsgTypeSccrp then Ok v2SccrpMsgSpec
  else if t =? avpMsgTypeScccn then Ok v2ScccnMsgSpec
  else if t =? avpMsgTypeStopccn then Ok v2StopccnMsgSpec
  else if t =? avpMsgTypeHello then Ok v2HelloMsgSpec
  else Err (ErrNoSpecification t).

(** ** Iteration over a map

    Go leaves the order in which [range] visits the entries of a map
    unspecified, and it may differ from one loop to the next.  A
    [rangeOrder] is one such choice: it rearranges the entries of the
    map into the order of the visit. *)
Record rangeOrder : Type := mkRangeOrder
  { visit : forall A : Type, list A -> list A;
    visit_perm : forall (A : Type) (l : list A), Permutation (visit A l) l }.
Arguments visit _ {A} _.

Definition range {V : Type} (o : rangeOrder) (m : gmap Z V) : list (Z * V) :=
  visit o (map_to_list m).

(** ** Control messages *)

Record v2ControlMessage : Type := mkV2
  { header : l2tpV2Header; avps : list avp }.

Record v3ControlMessage : Type := mkV3
  { header3 : l2tpV3Header; avps3 : list avp }.

(** The [controlMessage] interface has exactly two implementations. *)
Inductive controlMessage : Type :=
| V2Message (m : v2ControlMessage)
| V3Message (m : v3ControlMessage).

(** Modelled from the spec: [ControlConnID], [v2TidSidMax] and
    [TunnelConfig] are not part of the given sources.  The builders read
    the fields [TunnelID] and [PeerTunnelID] of the configuration; the
    specification gives the v2 range of an id as 0 to 65535, and an id
    is wide enough to hold a v3 control connection id (32 bits). *)
Abbreviation ControlConnID := Z (only parsing).
Definition v2TidSidMax : ControlConnID := 65535.

Record TunnelConfig : Type := mkTunnelConfig
  { TunnelID : ControlConnID; PeerTunnelID : ControlConnID }.

Record avpIn : Type := mkAvpIn { typ : avpType; avpIn_data : avpValue }.

Section MessageLayer.

Context `{codec : AvpCodec}.

(** *** v2 and v3 decode (later revision) *)

Definition bytesToV2CtlMsg (b : list byte) : result v2ControlMessage :=
  '(hdr, _) ← readV2Header (NewReader b);
  if v2HeaderLen <? Len (Common hdr) then
    payload ← slice b v2HeaderLen (Len (Common hdr));
    avps ← parseAVPBuffer payload;
    match avps with
    | [] => Panic PanicIndexOutOfRange
    | a0 :: _ =>
        if negb (avp_getType a0 =? avpTypeMessage)
        then Err ErrV2FirstAvpNotMessageType
        else Ok (mkV2 hdr avps)
    end
  else Ok (mkV2 hdr []).

Definition bytesToV3CtlMsg (b : list byte) : result v3ControlMessage :=
  '(hdr, _) ← readV3Header (NewReader b);
  payload ← slice b v3HeaderLen (Len (Common3 hdr));
  avps ← parseAVPBuffer payload;
  match avps with
  | [] => Panic PanicIndexOutOfRange
  | a0 :: _ =>
      if negb (avp_getType a0 =? avpTypeMessage)
      then Err ErrV3FirstAvpNotMessageType
      else Ok (mkV3 hdr avps)
  end.

(** *** v2 and v3 decode (earlier revision, [msg.go]) *)

(** The earlier decoder words its first-AVP error with a capital
    ("Invalid L2TPv2 message: ..."), hence a constructor of its own.
    The AVP functions it calls, [ParseAVPBuffer] and [AVP.Type], are
    those of its own revision of the AVP subsystem; the properties
    that mention this decoder hold for every implementation of the
    interface, and none equates its result with that of
    [bytesToV2CtlMsg]. *)
Definition newL2tpV2ControlMessage (b : list byte) : result v2ControlMessage :=
  '(hdr, _) ← readV2Header (NewReader b);
  if v2HeaderLen <? Len (Common hdr) then
    payload ← slice b v2HeaderLen (Len (Common hdr));
    avps ← parseAVPBuffer payload;
    match avps with
    | [] => Panic PanicIndexOutOfRange
    | a0 :: _ =>
        if negb (avp_getType a0 =? avpTypeMessage)
        then Err ErrInvalidV2FirstAvpNotMessageType
        else Ok (mkV2 hdr avps)
    end
  else Ok (mkV2 hdr []).

Definition newL2tpV3ControlMessage (b : list byte) : result v3ControlMessage :=
  Err ErrNewL2tpV3ControlMessageNotImplemented.

(** *** Accessors and mutators of a v2 message *)

Definition getLen (m : v2ControlMessage) : Z := Len (Common (header m)).
Definition ns (m : v2ControlMessage) : Z := Ns (header m).
Definition nr (m : v2ControlMessage) : Z := Nr (header m).
Definition getAvps (m : v2ControlMessage) : list avp := avps m.

Definition getType (m : v2ControlMessage) : result avpMsgType :=
  match getAvps m with
  | [] => Ok avpMsgTypeAck
  | a :: _ =>
      if negb (avp_getType a =? avpTypeMessage)
      then Panic PanicInvalidL2TPv2Message
      else match decodeMsgType a with
           | Ok mt => Ok mt
           | Err e => Panic (PanicFailedToDecodeMessageType e)
           | Panic p => Panic p
           end
  end.

Definition appendAvp (m : v2ControlMessage) (a : avp) : v2ControlMessage :=
  let h := header m in
  mkV2 (mkV2Header
          (mkCommon (FlagsVer (Common h))
                    (uint16 (Len (Common h) + uint16 (totalLen a))))
          (Tid h) (Sid h) (Ns h) (Nr h))
       (avps m ++ [a]).

Definition setTransportSeqNum (m : v2ControlMessage) (ns nr : Z)
  : v2ControlMessage :=
  let h := header m in
  mkV2 (mkV2Header (Common h) (Tid h) (Sid h) ns nr) (avps m).

Definition toBytes (m : v2ControlMessage) : result (list byte) :=
  Ok (writeV2Header (header m) ++ flat_map writeAvp (avps m)).

(** *** Accessors and mutators of a v3 message *)

Definition getType3 (m : v3ControlMessage) : result avpMsgType :=
  match avps3 m with
  | [] => Panic PanicIndexOutOfRange
  | a :: _ =>
      if negb (avp_getType a =? avpTypeMessage)
      then Panic PanicInvalidL2TPv3Message
      else match decodeMsgType a with
           | Ok mt => Ok mt
           | Err e => Panic (PanicFailedToDecodeMessageType e)
           | Panic p => Panic p
           end
  end.

Definition appendAvp3 (m : v3ControlMessage) (a : avp) : v3ControlMessage :=
  let h := header3 m in
  mkV3 (mkV3Header
          (mkCommon (FlagsVer (Common3 h))
                    (uint16 (Len (Common3 h) + uint16 (totalLen a))))
          (Ccid h) (Ns3 h) (Nr3 h))
       (avps3 m ++ [a]).

Definition toBytes3 (m : v3ControlMessage) : result (list byte) :=
  Ok (writeV3Header (header3 m) ++ flat_map writeAvp (avps3 m)).

Definition validate3 (m : v3ControlMessage) : result unit :=
  Err ErrV3ValidateNotImplemented.

(** *** validate *)

(** The first loop of [validate]: every [mustExist] type of the
    specification is entered into [seen] as not seen yet. *)
Definition initSeen (o : rangeOrder) (spec : msgSpec) : gmap avpType bool :=
  foldl (fun seen '(at_, as_) =>
           match as_ with
           | mustExist => <[at_ := false]> seen
           | mayExist => seen
           end)
        ∅ (range o (spec_m spec)).

(** The second loop: the walk over the AVPs of the message. *)
Fixpoint validateAvps (spec : msgSpec) (mt : avpMsgType) (l : list avp)
    (seen : gmap avpType bool) : result (gmap avpType bool) :=
  match l with
  | [] => Ok seen
  | a :: l' =>
      match hasAvp spec (avp_getType a) with
      | None => Err (ErrUnexpectedAvp (avp_getType a) mt)
      | Some as_ =>
          let seen' :=
            match as_ with
            | mustExist => <[avp_getType a := true]> seen
            | mayExist => seen
            end in
          match avp_decode a with
          | Ok _ => validateAvps spec mt l' seen'
          | Err e => Err (ErrFailedToDecodeAvp (avp_getType a) mt e)
          | Panic p => Panic p
          end
      end
  end.

(** The third loop: the first entry of [seen], in the order of the
    visit, that is still not seen. *)
Definition firstUnseen (l : list (avpType * bool)) : option avpType :=
  fst <$> List.find (fun '(_, ok) => negb ok) l.

(** [o1] and [o2] are the orders of the visits of the two [range] loops. *)
Definition validate (o1 o2 : rangeOrder) (m : v2ControlMessage) : result unit :=
  mt ← getType m;
  spec ← getV2MsgSpec mt;
  seen ← validateAvps spec mt (avps m) (initSeen o1 spec);
  match firstUnseen (range o2 seen) with
  | Some at_ => Err (ErrMissingMandatoryAvp at_ mt)
  | None => Ok ()
  end.

(** *** The message buffer parser *)

(** One turn of the loop of [parseMessageBuffer], from the reader [r]:
    the decoded message and the reader after the final [Seek].  The loop
    is the same in both revisions but for the names of the two decoders,
    which are arguments here. *)
Definition parseOne
    (decodeV2 : list byte -> result v2ControlMessage)
    (decodeV3 : list byte -> result v3ControlMessage)
    (b : list byte) (r : Reader) : result (controlMessage * Reader) :=
  match Seek_current r 0 with
  | None => Err ErrUnableToDetermineOffset
  | Some (cursor, r) =>
      '(h, r) ← readCommonHeader r;
      if Reader_Len r <? uint16 (Len h - commonHeaderLen)
      then Err (ErrMalformedHeader (Len h) (Reader_Len r))
      else
        ver ← protocolVersion h;
        msg ← match ver with
              | ProtocolVersion2 =>
                  frame ← slice b cursor (cursor + Len h);
                  m ← decodeV2 frame; Ok (V2Message m)
              | ProtocolVersion3 =>
                  frame ← slice b cursor (cursor + Len h);
                  m ← decodeV3 frame; Ok (V3Message m)
              end;
        match Seek_current r (Len h) with
        | None => Err ErrInvalidLengthForMessage
        | Some (_, r) => Ok (msg, r)
        end
  end.

(** The loop; [None] when [fuel] turns do not reach the end of it. *)
Fixpoint parseLoop
    (decodeV2 : list byte -> result v2ControlMessage)
    (decodeV3 : list byte -> result v3ControlMessage)
    (fuel : nat) (b : list byte) (r : Reader) (messages : list controlMessage)
  : option (result (list controlMessage)) :=
  if Reader_Len r <? controlMessageMinLen then Some (Ok messages)
  else
    match fuel with
    | O => None
    | S fuel' =>
        match parseOne decodeV2 decodeV3 b r with
        | Ok (msg, r') =>
            parseLoop decodeV2 decodeV3 fuel' b r' (messages ++ [msg])
        | Err e => Some (Err e)
        | Panic p => Some (Panic p)
        end
    end.

(** Every turn moves the reader forward, so [length b] turns are enough
    (lemma [parseLoop_fuel] below); the default is never taken. *)
Definition parseMessageBufferWith
    (decodeV2 : list byte -> result v2ControlMessage)
    (decodeV3 : list byte -> result v3ControlMessage)
    (b : list byte) : result (list controlMessage) :=
  default (Ok []) (parseLoop decodeV2 decodeV3 (length b) b (NewReader b) []).

(** Later revision. *)
Definition parseMessageBuffer (b : list byte) : result (list controlMessage) :=
  parseMessageBufferWith bytesToV2CtlMsg bytesToV3CtlMsg b.

(** Earlier revision ([msg.go]). *)
Definition ParseMessageBuffer (b : list byte) : result (list controlMessage) :=
  parseMessageBufferWith newL2tpV2ControlMessage newL2tpV3ControlMessage b.

(** *** Message builders *)

Definition newV2ControlMessage (tid sid : ControlConnID) (avps : list avp)
  : result v2ControlMessage :=
  if v2TidSidMax <? tid then Err (ErrTunnelIDOutOfRange tid)
  else if v2TidSidMax <? sid then Err (ErrSessionIDOutOfRange sid)
  else Ok (mkV2 (newL2tpV2MessageHeader (uint16 tid) (uint16 sid) 0 0
                   (avpsLengthBytes avps))
                avps).

(** The loop of [buildV2TunnelMsg]. *)
Fixpoint appendAvpIns (msg : v2ControlMessage) (ins : list avpIn)
  : result v2ControlMessage :=
  match ins with
  | [] => Ok msg
  | i :: ins' =>
      match newAvp vendorIDIetf (typ i) (avpIn_data i) with
      | Ok a => appendAvpIns (appendAvp msg a) ins'
      | Err e => Err (ErrFailedToCreateAvp (typ i) e)
      | Panic p => Panic p
      end
  end.

Definition buildV2TunnelMsg (ptid : ControlConnID) (ins : list avpIn)
  : result v2ControlMessage :=
  msg ← newV2ControlMessage ptid 0 [];
  appendAvpIns msg ins.

(** The octets of the host name ["rincewind"]. *)
Definition rincewind : list byte :=
  [x72; x69; x6e; x63; x65; x77; x69; x6e; x64].

Definition newV2Sccrq (cfg : TunnelConfig) : result v2ControlMessage :=
  buildV2TunnelMsg 0
    [ mkAvpIn avpTypeMessage (VMsgType avpMsgTypeSccrq);
      mkAvpIn avpTypeProtocolVersion (VBytes [x01; x00]);
      mkAvpIn avpTypeHostName (VString rincewind);
      mkAvpIn avpTypeFramingCap (VUint32 (uint32 3));
      mkAvpIn avpTypeTunnelID (VUint16 (uint16 (TunnelID cfg))) ].

Definition newV2Sccrp (cfg : TunnelConfig) : result v2ControlMessage :=
  buildV2TunnelMsg (PeerTunnelID cfg)
    [ mkAvpIn avpTypeMessage (VMsgType avpMsgTypeSccrp);
      mkAvpIn avpTypeProtocolVersion (VBytes [x01; x00]);
      mkAvpIn avpTypeFramingCap (VUint32 (uint32 3));
      mkAvpIn avpTypeHostName (VString rincewind);
      mkAvpIn avpTypeTunnelID (VUint16 (uint16 (TunnelID cfg))) ].

Definition newV2Scccn (cfg : TunnelConfig) : result v2ControlMessage :=
  buildV2TunnelMsg (PeerTunnelID cfg)
    [ mkAvpIn avpTypeMessage (VMsgType avpMsgTypeScccn) ].

Definition newV2Stopccn (rc : resultCode) (cfg : TunnelConfig)
  : result v2ControlMessage :=
  buildV2TunnelMsg (PeerTunnelID cfg)
    [ mkAvpIn avpTypeMessage (VMsgType avpMsgTypeStopccn);
      mkAvpIn avpTypeTunnelID (VUint16 (uint16 (TunnelID cfg)));
      mkAvpIn avpTypeResultCode (VResultCode rc) ].

Definition newV2Hello (cfg : TunnelConfig) : result v2ControlMessage :=
  buildV2TunnelMsg (PeerTunnelID cfg)
    [ mkAvpIn avpTypeMessage (VMsgType avpMsgTypeHello) ].

Definition newV3ControlMessage (ccid : ControlConnID) (avps : list avp)
  : result v3ControlMessage :=
  Ok (mkV3 (newL2tpV3MessageHeader (uint32 ccid) 0 0 (avpsLengthBytes avps))
           avps).

(** *** Vocabulary of the properties of [validate] *)

(** An AVP that passes the walk: its type is listed in the specification
    and its value decodes. *)
Definition avpAccepted (spec : msgSpec) (a : avp) : Prop :=
  is_Some (hasAvp spec (avp_getType a)) /\ is_Ok (avp_decode a).

(** The marks the walk leaves in [seen]. *)
Fixpoint markSeen (spec : msgSpec) (l : list avp) (seen : gmap avpType bool)
  : gmap avpType bool :=
  match l with
  | [] => seen
  | a :: l' =>
      markSeen spec l'
        (match hasAvp spec (avp_getType a) with
         | Some mustExist => <[avp_getType a := true]> seen
         | _ => seen
         end)
  end.

(** A type is still unseen after the walk exactly when the specification
    requires it and no AVP of the message has it. *)
Definition missing (spec : msgSpec) (l : list avp) (t : avpType) : Prop :=
  hasAvp spec t = Some mustExist /\ t ∉ map avp_getType l.

(** *** What the message layer relies on

    Modelled from the spec: "message-type AVPs are always well-formed
    2-octet enumerants by construction".  The AVP parser is not part
    of the given sources; this is the property of it that [getType]
    relies on: a Message Type AVP among the AVPs it returns has a value
    that decodes as a message type. *)
Definition messageTypeWellFormed : Prop :=
  forall (payload : list byte) (l : list avp) (a : avp),
    parseAVPBuffer payload = Ok l -> a ∈ l ->
    avp_getType a = avpTypeMessage -> is_Ok (decodeMsgType a).

End MessageLayer.

(** ** A model of the AVP subsystem

    Modelled from the spec: [parseAVPBuffer], [avp.decode],
    [avp.decodeMsgType], [avp.totalLen], [avpsLengthBytes] and [newAvp]
    are not part of the given sources.  The specification describes an
    AVP as a vendor id, a type tag and a raw payload, with operations to
    decode the payload as the value appropriate to its type (integer
    widths, byte blob, string, message-type enumerant) and to encode it
    back as header plus payload, a total encoded length counting header
    and payload, and a parser that turns a byte slice into an ordered
    sequence of AVPs or fails.  The wire layout is that of RFC 2661
    section 4.1: the low ten bits of the first header field give the
    length of the AVP, header included.  This model serves the concrete
    scenarios; the general results hold for every [AvpCodec]. *)
Module AvpModel.

Inductive avpDataType : Type :=
| avpDataTypeMsgID | avpDataTypeUint16 | avpDataTypeUint32 | avpDataTypeUint64
| avpDataTypeBytes | avpDataTypeString | avpDataTypeResultCode.

(** The data type of the attributes of RFC 2661 that the message
    specifications mention. *)
Definition dataTypeOf (t : avpType) : option avpDataType :=
  if t =? avpTypeMessage then Some avpDataTypeMsgID
  else if t =? avpTypeResultCode then Some avpDataTypeResultCode
  else if t =? avpTypeProtocolVersion then Some avpDataTypeBytes
  else if t =? avpTypeFramingCap then Some avpDataTypeUint32
  else if t =? avpTypeBearerCap then Some avpDataTypeUint32
  else if t =? avpTypeTiebreaker then Some avpDataTypeUint64
  else if t =? avpTypeFirmwareRevision then Some avpDataTypeUint16
  else if t =? avpTypeHostName then Some avpDataTypeString
  else if t =? avpTypeVendorName then Some avpDataTypeString
  else if t =? avpTypeTunnelID then Some avpDataTypeUint16
  else if t =? avpTypeRxWindowSize then Some avpDataTypeUint16
  else if t =? avpTypeChallenge then Some avpDataTypeBytes
  else if t =? avpTypeChallengeResponse then Some avpDataTypeBytes
  else None.

Definition errUnknownAvp : error := ErrAvp 1.
Definition errAvpLength : error := ErrAvp 2.
Definition errAvpPayload : error := ErrAvp 3.
Definition errAvpValue : error := ErrAvp 4.

Definition headerTotalLen (h : avpHeader) : Z := Z.land (FlagLen h) 1023.

Definition decodeUint16 (bs : list byte) : result Z :=
  match bs with
  | [b0; b1] => Ok (getUint16 b0 b1)
  | _ => Err errAvpPayload
  end.

(** A message-type AVP holds a two-octet enumerant. *)
Definition decodeMsgType (a : avp) : result avpMsgType :=
  if negb (VendorID (avp_header a) =? vendorIDIetf) then Err errAvpValue
  else if negb (avp_getType a =? avpTypeMessage) then Err errAvpValue
  else decodeUint16 (data (avp_payload a)).

(** A Message Type AVP is well formed when its value decodes as a
    message type, a two-octet enumerant. *)
Definition wellFormedMessageType (a : avp) : bool :=
  if avp_getType a =? avpTypeMessage
  then match decodeMsgType a with Ok _ => true | _ => false end
  else true.

(** The parser works through the slice while at least an AVP header is
    left, as the message buffer parser does with message headers.  It
    refuses a Message Type AVP that is not well formed: the message
    layer relies on Message Type AVPs being well-formed two-octet
    enumerants by construction. *)
Fixpoint parseAvps (fuel : nat) (rest : list byte) : result (list avp) :=
  match fuel, rest with
  | S fuel', f0 :: f1 :: v0 :: v1 :: t0 :: t1 :: body =>
      let h := mkAvpHeader (getUint16 f0 f1) (getUint16 v0 v1) (getUint16 t0 t1) in
      if headerTotalLen h <? avpHeaderLen then Err errAvpLength
      else if len body <? headerTotalLen h - avpHeaderLen then Err errAvpLength
      else
        let n := Z.to_nat (headerTotalLen h - avpHeaderLen) in
        let a := mkAvp h (mkAvpPayload (firstn n body)) in
        if wellFormedMessageType a then
          tl ← parseAvps fuel' (skipn n body);
          Ok (a :: tl)
        else Err errAvpPayload
  | _, _ => Ok []
  end.

Definition parseAVPBuffer (b : list byte) : result (list avp) :=
  parseAvps (length b) b.

Definition decodeUint32 (bs : list byte) : result Z :=
  match bs with
  | [b0; b1; b2; b3] => Ok (getUint32 b0 b1 b2 b3)
  | _ => Err errAvpPayload
  end.

Definition decodeUint64 (bs : list byte) : result Z :=
  match bs with
  | [b0; b1; b2; b3; b4; b5; b6; b7] =>
      Ok (Z.lor (getUint32 b4 b5 b6 b7) (Z.shiftl (getUint32 b0 b1 b2 b3) 32))
  | _ => Err errAvpPayload
  end.

Definition decodeResultCode (bs : list byte) : result resultCode :=
  match bs with
  | [r0; r1] => Ok (mkResultCode (getUint16 r0 r1) 0 [])
  | r0 :: r1 :: e0 :: e1 :: msg =>
      Ok (mkResultCode (getUint16 r0 r1) (getUint16 e0 e1) msg)
  | _ => Err errAvpPayload
  end.

Definition decode (a : avp) : result avpValue :=
  let bs := data (avp_payload a) in
  match dataTypeOf (avp_getType a) with
  | None => Err errUnknownAvp
  | Some avpDataTypeMsgID => v ← decodeUint16 bs; Ok (VMsgType v)
  | Some avpDataTypeUint16 => v ← decodeUint16 bs; Ok (VUint16 v)
  | Some avpDataTypeUint32 => v ← decodeUint32 bs; Ok (VUint32 v)
  | Some avpDataTypeUint64 => v ← decodeUint64 bs; Ok (VUint64 v)
  | Some avpDataTypeBytes => Ok (VBytes bs)
  | Some avpDataTypeString => Ok (VString bs)
  | Some avpDataTypeResultCode => v ← decodeResultCode bs; Ok (VResultCode v)
  end.

Definition totalLen (a : avp) : Z := avpHeaderLen + len (data (avp_payload a)).

Definition avpsLengthBytes (l : list avp) : Z :=
  foldr (fun a n => totalLen a + n) 0 l.

Definition encodeResultCode (rc : resultCode) : list byte :=
  putUint16 (rc_result rc) ++
  (if (rc_errCode rc =? 0) && (len (rc_errMessage rc) =? 0) then []
   else putUint16 (rc_errCode rc) ++ rc_errMessage rc).

(** The payload of a value, when the value has the data type of the
    attribute. *)
Definition encodeValue (t : avpType) (v : avpValue) : option (list byte) :=
  match dataTypeOf t, v with
  | Some avpDataTypeMsgID, VMsgType x => Some (putUint16 x)
  | Some avpDataTypeUint16, VUint16 x => Some (putUint16 x)
  | Some avpDataTypeUint32, VUint32 x => Some (putUint32 x)
  | Some avpDataTypeUint64, VUint64 x =>
      Some (putUint32 (Z.shiftr x 32) ++ putUint32 x)
  | Some avpDataTypeBytes, VBytes bs => Some bs
  | Some avpDataTypeString, VString bs => Some bs
  | Some avpDataTypeResultCode, VResultCode rc => Some (encodeResultCode rc)
  | _, _ => None
  end.

(** A new AVP of the IETF attributes carries the mandatory bit
    ([0x8000]) and its total length in the first header field. *)
Definition newAvp (vid : avpVendorID) (t : avpType) (v : avpValue) : result avp :=
  match encodeValue t v with
  | None => Err errAvpValue
  | Some bs =>
      if 1023 <? avpHeaderLen + len bs then Err errAvpLength
      else Ok (mkAvp (mkAvpHeader (Z.lor 32768 (avpHeaderLen + len bs)) vid t)
                     (mkAvpPayload bs))
  end.

(** An AVP as the parser of the model produces it: sixteen-bit header
    fields, a length field that counts the header and the payload, and
    a value that decodes as a message type if it is a Message Type
    AVP. *)
Definition wf_avp (a : avp) : Prop :=
  is_uint16 (FlagLen (avp_header a))
  /\ is_uint16 (VendorID (avp_header a))
  /\ is_uint16 (AvpType (avp_header a))
  /\ headerTotalLen (avp_header a) = avpHeaderLen + len (data (avp_payload a))
  /\ wellFormedMessageType a = true.

#[global] Instance codec : AvpCodec :=
  mkAvpCodec parseAVPBuffer decode decodeMsgType totalLen avpsLengthBytes newAvp.

End AvpModel.

(** ** Vocabulary of the properties *)

Definition wf_common (h : l2tpCommonHeader) : Prop :=
  is_uint16 (FlagsVer h) /\ is_uint16 (Len h).

Definition wf_v2Header (h : l2tpV2Header) : Prop :=
  wf_common (Common h) /\ is_uint16 (Tid h) /\ is_uint16 (Sid h)
  /\ is_uint16 (Ns h) /\ is_uint16 (Nr h).

Definition wf_v3Header (h : l2tpV3Header) : Prop :=
  wf_common (Common3 h) /\ is_uint32 (Ccid h)
  /\ is_uint16 (Ns3 h) /\ is_uint16 (Nr3 h).

(** The number of octets [toBytes] emits for an AVP and for a sequence
    of AVPs. *)
Definition encodedLen (a : avp) : Z := len (writeAvp a).

Definition encodedLens (l : list avp) : Z :=
  foldr (fun a n => encodedLen a + n) 0 l.

(** The first AVP of a non-empty sequence is the Message Type AVP. *)
Definition firstIsMessageType (l : list avp) : Prop :=
  match l with
  | [] => True
  | a :: _ => avp_getType a = avpTypeMessage
  end.

(** The two fields of the common header at the start of a buffer. *)
Definition flagsVerField (b : list byte) : option Z :=
  match b with
  | f0 :: f1 :: _ => Some (getUint16 f0 f1)
  | _ => None
  end.

Definition lengthField (b : list byte) : option Z :=
  match b with
  | _ :: _ :: l0 :: l1 :: _ => Some (getUint16 l0 l1)
  | _ => None
  end.

Definition idOutOfRange {A : Type} (r : result A) : Prop :=
  exists id, r = Err (ErrTunnelIDOutOfRange id)
             \/ r = Err (ErrSessionIDOutOfRange id).

Definition isV2 (m : controlMessage) : Prop :=
  match m with
  | V2Message _ => True
  | V3Message _ => False
  end.

(** ** Scenarios

    Concrete buffers, messages and orders of visit; the AVPs are those
    of the model of the AVP subsystem. *)

(** Two orders in which a [range] may visit a map. *)
Definition idOrder : rangeOrder :=
  mkRangeOrder (fun A l => l) (fun A l => Permutation_refl l).

Definition revOrder : rangeOrder :=
  mkRangeOrder (fun A l => rev l)
               (fun A l => Permutation_sym (Permutation_rev l)).

Definition messageTypeAvp (mt : avpMsgType) : avp :=
  mkAvp (mkAvpHeader 32776 vendorIDIetf avpTypeMessage)
        (mkAvpPayload (putUint16 mt)).

Definition protocolVersionAvp : avp :=
  mkAvp (mkAvpHeader 32776 vendorIDIetf avpTypeProtocolVersion)
        (mkAvpPayload [x01; x00]).

Definition hostNameAvp : avp :=
  mkAvp (mkAvpHeader 32783 vendorIDIetf avpTypeHostName)
        (mkAvpPayload rincewind).

Definition framingCapAvp : avp :=
  mkAvp (mkAvpHeader 32778 vendorIDIetf avpTypeFramingCap)
        (mkAvpPayload [x00; x00; x00; x03]).

Definition tunnelIDAvp (tid : Z) : avp :=
  mkAvp (mkAvpHeader 32776 vendorIDIetf avpTypeTunnelID)
        (mkAvpPayload (putUint16 tid)).

Definition resultCodeAvp (code : Z) : avp :=
  mkAvp (mkAvpHeader 32776 vendorIDIetf avpTypeResultCode)
        (mkAvpPayload (putUint16 code)).

(** A Hello message (tunnel 1) and a zero-length-body acknowledgement. *)
Definition helloFrame : list byte :=
  [xc8; x02; x00; x14; x00; x01; x00; x00; x00; x00; x00; x00;
   x80; x08; x00; x00; x00; x00; x00; x06].

Definition zlbFrame : list byte :=
  [xc8; x02; x00; x0c; x00; x01; x00; x00; x00; x00; x00; x01].

Definition helloMessage : v2ControlMessage :=
  mkV2 (mkV2Header (mkCommon 51202 20) 1 0 0 0)
       [messageTypeAvp avpMsgTypeHello].

Definition zlbMessage : v2ControlMessage :=
  mkV2 (mkV2Header (mkCommon 51202 12) 1 0 0 1) [].

(** An SCCRQ without the Tunnel ID AVP: Message Type, Protocol Version,
    Host Name, Framing Capabilities. *)
Definition sccrqNoTunnelIDFrame : list byte :=
  [xc8; x02; x00; x35; x00; x00; x00; x00; x00; x00; x00; x00;
   x80; x08; x00; x00; x00; x00; x00; x01;
   x80; x08; x00; x00; x00; x02; x01; x00;
   x80; x0f; x00; x00; x00; x07;
   x72; x69; x6e; x63; x65; x77; x69; x6e; x64;
   x80; x0a; x00; x00; x00; x03; x00; x00; x00; x03].

Definition sccrqNoTunnelID : v2ControlMessage :=
  mkV2 (mkV2Header (mkCommon 51202 53) 0 0 0 0)
       [messageTypeAvp avpMsgTypeSccrq; protocolVersionAvp; hostNameAvp;
        framingCapAvp].

(** The same SCCRQ with its Tunnel ID AVP. *)
Definition sccrqComplete : v2ControlMessage :=
  mkV2 (mkV2Header (mkCommon 51202 61) 0 0 0 0)
       [messageTypeAvp avpMsgTypeSccrq; protocolVersionAvp; hostNameAvp;
        framingCapAvp; tunnelIDAvp 42].

(** An SCCRQ that carries its Message Type AVP and nothing else: four
    mandatory AVPs are missing. *)
Definition sccrqOnlyMessageType : v2ControlMessage :=
  mkV2 (mkV2Header (mkCommon 51202 20) 0 0 0 0)
       [messageTypeAvp avpMsgTypeSccrq].

(** A message whose only AVP is a Host Name AVP. *)
Definition hostNameOnly : v2ControlMessage :=
  mkV2 (mkV2Header (mkCommon 51202 27) 0 0 0 0) [hostNameAvp].

(** Twelve octets whose common header has version 0; the length field
    is 65535 in the first buffer and 12 in the second. *)
Definition version0OversizedFrame : list byte :=
  [x00; x00; xff; xff; x00; x00; x00; x00; x00; x00; x00; x00].

Definition version0Frame : list byte :=
  [x00; x00; x00; x0c; x00; x00; x00; x00; x00; x00; x00; x00].

(** A v2 header followed by a Message Type AVP with an empty
    payload. *)
Definition emptyMessageTypeFrame : list byte :=
  [xc8; x02; x00; x12; x00; x00; x00; x00; x00; x00; x00; x00;
   x80; x06; x00; x00; x00; x00].

(** A v3 Hello message for control connection 1. *)
Definition v3HelloFrame : list byte :=
  [xc8; x03; x00; x14; x00; x00; x00; x01; x00; x00; x00; x00;
   x80; x08; x00; x00; x00; x00; x00; x06].

Definition v3HelloMessage : v3ControlMessage :=
  mkV3 (mkV3Header (mkCommon 51203 20) 1 0 0)
       [messageTypeAvp avpMsgTypeHello].

(** A StopCCN for a tunnel whose own id is 70000 and whose peer's id
    is 1, and the message the builder returns for it: 70000 mod 65536
    is 4464. *)
Definition stopccnResult : resultCode := mkResultCode 1 0 [].

Definition localId70000 : TunnelConfig := mkTunnelConfig 70000 1.

Definition stopccnLocalId70000 : v2ControlMessage :=
  mkV2 (mkV2Header (mkCommon 51202 36) 1 0 0 0)
       [messageTypeAvp avpMsgTypeStopccn; tunnelIDAvp 4464; resultCodeAvp 1].

(** A message whose header length is six short of the largest. *)
Definition nearlyFullMessage : v2ControlMessage :=
  mkV2 (mkV2Header (mkCommon 51202 65530) 0 0 0 0) [].

Definition nearlyFullMessage3 : v3ControlMessage :=
  mkV3 (mkV3Header (mkCommon 51203 65530) 0 0 0) [].

(** ** Further functions of the message layer *)

(** The method [must] of [msgSpec]: the mandatory types of a specification, in the
    order in which the [range] loop meets them. *)
Definition must (o : rangeOrder) (spec : msgSpec) : list avpType :=
  foldl (fun mst '(at_, as_) =>
           match as_ with
           | mustExist => mst ++ [at_]
           | mayExist => mst
           end)
        [] (range o (spec_m spec)).

(** The methods [protocolVersion] and [getLen] of the [controlMessage]
    interface, on its two implementations. *)
Definition msg_protocolVersion (msg : controlMessage) : ProtocolVersion :=
  match msg with
  | V2Message _ => ProtocolVersion2
  | V3Message _ => ProtocolVersion3
  end.

Definition msg_getLen (msg : controlMessage) : Z :=
  match msg with
  | V2Message m => Len (Common (header m))
  | V3Message m => Len (Common3 (header3 m))
  end.

(** ** Further vocabulary *)

Section FurtherVocabulary.

Context `{codec : AvpCodec}.

(** The sum of [avp.totalLen()] over a sequence of AVPs. *)
Definition totalLens (l : list avp) : Z :=
  foldr (fun a n => totalLen a + n) 0 l.

(** The header length counts the header and the AVPs. *)
Definition lengthConsistent (m : v2ControlMessage) : Prop :=
  Len (Common (header m)) = v2HeaderLen + totalLens (avps m).

(** [newAvp] succeeds on an input of a builder. *)
Definition avpInBuilt (i : avpIn) (a : avp) : Prop :=
  newAvp vendorIDIetf (typ i) (avpIn_data i) = Ok a.

(** What the loop of the parser does with a frame, by protocol
    version. *)
Definition decodeFrame
    (decodeV2 : list byte -> result v2ControlMessage)
    (decodeV3 : list byte -> result v3ControlMessage)
    (ver : ProtocolVersion) (frame : list byte) : result controlMessage :=
  match ver with
  | ProtocolVersion2 => m ← decodeV2 frame; Ok (V2Message m)
  | ProtocolVersion3 => m ← decodeV3 frame; Ok (V3Message m)
  end.

(** What the parser guarantees about a message it returns from a buffer
    of [n] octets. *)
Definition parsedMessage (n : Z) (msg : controlMessage) : Prop :=
  match msg with
  | V2Message m =>
      wf_v2Header (header m)
      /\ Z.land (FlagsVer (Common (header m))) 15 = 2
      /\ v2HeaderLen <= Len (Common (header m)) <= n
      /\ (avps m = [] <-> Len (Common (header m)) = v2HeaderLen)
      /\ firstIsMessageType (avps m)
  | V3Message m =>
      wf_v3Header (header3 m)
      /\ Z.land (FlagsVer (Common3 (header3 m))) 15 = 3
      /\ v3HeaderLen <= Len (Common3 (header3 m)) <= n
      /\ avps3 m <> []
      /\ firstIsMessageType (avps3 m)
  end.

(** The panics of the AVP subsystem and the index panic of the
    decoders. *)
Definition avpPanic (p : panic) : Prop :=
  p = PanicIndexOutOfRange \/ exists payload, parseAVPBuffer payload = Panic p.

End FurtherVocabulary.

(** One turn of the loop of the parser as a function of the octets from
    the read position on: the message and the number of octets the
    reader moves forward.  The parser is related to it by lemma
    [parseOne_turn]. *)
Definition turn
    (decodeV2 : list byte -> result v2ControlMessage)
    (decodeV3 : list byte -> result v3ControlMessage)
    (s : list byte) : result (controlMessage * Z) :=
  match s with
  | f0 :: f1 :: l0 :: l1 :: tl =>
      let h := mkCommon (getUint16 f0 f1) (getUint16 l0 l1) in
      if len tl <? uint16 (Len h - commonHeaderLen)
      then Err (ErrMalformedHeader (Len h) (len tl))
      else
        ver ← protocolVersion h;
        msg ← decodeFrame decodeV2 decodeV3 ver (firstn (Z.to_nat (Len h)) s);
        Ok (msg, commonHeaderLen + Len h)
  | _ => Err EOF
  end.

(** The loop of the parser on the octets from the read position on. *)
Fixpoint parseSuffix
    (decodeV2 : list byte -> result v2ControlMessage)
    (decodeV3 : list byte -> result v3ControlMessage)
    (fuel : nat) (s : list byte) : option (result (list controlMessage)) :=
  if len s <? controlMessageMinLen then Some (Ok [])
  else
    match fuel with
    | O => None
    | S fuel' =>
        match turn decodeV2 decodeV3 s with
        | Ok (msg, n) =>
            match parseSuffix decodeV2 decodeV3 fuel' (skipn (Z.to_nat n) s) with
            | Some r => Some (tl ← r; Ok (msg :: tl))
            | None => None
            end
        | Err e => Some (Err e)
        | Panic p => Some (Panic p)
        end
    end.

(** The octets a parse accounts for: four more than its length field
    for every message. *)
Definition consumed (msgs : list controlMessage) : Z :=
  foldr (fun msg n => commonHeaderLen + msg_getLen msg + n) 0 msgs.

(** The mandatory types of a specification all occur in a list of types,
    decided on the entries of the map. *)
Definition mandatoryAmong (spec : msgSpec) (ts : list avpType) : bool :=
  forallb (fun '(t, s) =>
             match s with
             | mustExist => bool_decide (t ∈ ts)
             | mayExist => true
             end) (map_to_list (spec_m spec)).

(** A frame as the parser cuts it: when it has a length field, the
    field is its length. *)
Definition exactFrame (frame : list byte) : Prop :=
  forall L, lengthField frame = Some L -> len frame = L.

(** ** Further scenarios *)

(** Four octets that the parser passes over between two messages. *)
Definition gap : list byte := [x00; x00; x00; x00].

(** A v2 header whose length field is 8, and one whose length field
    is 13 with a single octet after it. *)
Definition length8Frame : list byte :=
  [xc8; x02; x00; x08; x00; x00; x00; x00; x00; x00; x00; x00].

Definition length13Frame : list byte :=
  [xc8; x02; x00; x0d; x00; x00; x00; x00; x00; x00; x00; x00; x00].

(** A v3 header alone, with length field 8. *)
Definition v3Length8Frame : list byte :=
  [xc8; x03; x00; x08; x00; x00; x00; x01; x00; x00; x00; x00].

(** A Hello message as the builders lay it out for peer tunnel 1. *)
Definition helloIns : list avpIn :=
  [mkAvpIn avpTypeMessage (VMsgType avpMsgTypeHello)].

(** An input that [newAvp] of the model refuses: a string for the
    Tunnel ID attribute. *)
Definition badTunnelIDIn : avpIn := mkAvpIn avpTypeTunnelID (VString rincewind).

(** * Properties *)

(** ** Octets and big-endian integers *)

Lemma Z_of_byte_range (b : byte) : 0 <= Z_of_byte b < 256.
Proof.
  unfold Z_of_byte. pose proof (Byte.to_N_bounded b). lia.
Qed.

Lemma Z_of_byte_of_Z (z : Z) : Z_of_byte (byte_of_Z z) = z mod 256.
Proof.
  unfold Z_of_byte, byte_of_Z.
  assert (Hr : 0 <= z mod 256 < 256) by (apply Z.mod_pos_bound; lia).
  destruct (Byte.of_N (Z.to_N (z mod 256))) as [b|] eqn:E.
  - apply Byte.to_of_N in E. rewrite E. lia.
  - apply Byte.of_N_None_iff in E. lia.
Qed.

Lemma lor_shiftl_add (a b n : Z) :
  0 <= n -> 0 <= a < 2 ^ n -> Z.lor a (Z.shiftl b n) = a + b * 2 ^ n.
Proof.
  intros Hn Ha. rewrite <- Z.shiftl_mul_pow2 by lia.
  symmetry. apply Z.add_nocarry_lor.
  apply Z.bits_inj'. intros k Hk.
  rewrite Z.land_spec, Z.bits_0.
  destruct (Z.lt_ge_cases k n) as [Hlt|Hge].
  - rewrite (Z.shiftl_spec_low b n k Hlt). apply andb_false_r.
  - assert (E : Z.testbit a k = false).
    { rewrite <- (Z.mod_small a (2 ^ n)) by lia.
      apply Z.mod_pow2_bits_high. lia. }
    rewrite E. reflexivity.
Qed.

Lemma getUint16_eq (b0 b1 : byte) :
  getUint16 b0 b1 = Z_of_byte b0 * 256 + Z_of_byte b1.
Proof.
  unfold getUint16. pose proof (Z_of_byte_range b1).
  rewrite (lor_shiftl_add _ _ 8) by lia. change (2 ^ 8) with 256. lia.
Qed.

Lemma getUint16_range (b0 b1 : byte) : is_uint16 (getUint16 b0 b1).
Proof.
  rewrite getUint16_eq. unfold is_uint16.
  pose proof (Z_of_byte_range b0). pose proof (Z_of_byte_range b1). lia.
Qed.

Lemma getUint16_putUint16 (v : Z) :
  is_uint16 v ->
  getUint16 (byte_of_Z (Z.shiftr v 8)) (byte_of_Z v) = v.
Proof.
  unfold is_uint16. intros Hv. rewrite getUint16_eq, !Z_of_byte_of_Z.
  rewrite Z.shiftr_div_pow2 by lia. change (2 ^ 8) with 256.
  rewrite (Z.mod_small (v / 256) 256).
  - pose proof (Z.div_mod v 256). lia.
  - split; [apply Z.div_pos; lia | apply Z.div_lt_upper_bound; lia].
Qed.

Lemma getUint32_eq (b0 b1 b2 b3 : byte) :
  getUint32 b0 b1 b2 b3
  = Z_of_byte b0 * 16777216 + Z_of_byte b1 * 65536
    + Z_of_byte b2 * 256 + Z_of_byte b3.
Proof.
  unfold getUint32.
  pose proof (Z_of_byte_range b0). pose proof (Z_of_byte_range b1).
  pose proof (Z_of_byte_range b2). pose proof (Z_of_byte_range b3).
  rewrite (lor_shiftl_add _ _ 8) by lia. change (2 ^ 8) with 256.
  rewrite (lor_shiftl_add _ _ 16) by (change (2 ^ 16) with 65536; lia).
  change (2 ^ 16) with 65536.
  rewrite (lor_shiftl_add _ _ 24) by (change (2 ^ 24) with 16777216; lia).
  change (2 ^ 24) with 16777216. lia.
Qed.

Lemma getUint32_range (b0 b1 b2 b3 : byte) : is_uint32 (getUint32 b0 b1 b2 b3).
Proof.
  rewrite getUint32_eq. unfold is_uint32.
  pose proof (Z_of_byte_range b0). pose proof (Z_of_byte_range b1).
  pose proof (Z_of_byte_range b2). pose proof (Z_of_byte_range b3). lia.
Qed.

Lemma getUint32_putUint32 (v : Z) :
  is_uint32 v ->
  getUint32 (byte_of_Z (Z.shiftr v 24)) (byte_of_Z (Z.shiftr v 16))
            (byte_of_Z (Z.shiftr v 8)) (byte_of_Z v) = v.
Proof.
  unfold is_uint32. intros Hv. rewrite getUint32_eq, !Z_of_byte_of_Z.
  rewrite !Z.shiftr_div_pow2 by lia.
  change (2 ^ 8) with 256. change (2 ^ 16) with 65536.
  change (2 ^ 24) with 16777216.
  pose proof (Z.div_mod v 256). pose proof (Z.mod_pos_bound v 256).
  pose proof (Z.div_mod (v / 256) 256). pose proof (Z.mod_pos_bound (v / 256) 256).
  pose proof (Z.div_mod (v / 65536) 256). pose proof (Z.mod_pos_bound (v / 65536) 256).
  assert (E1 : v / 65536 = v / 256 / 256) by (rewrite Z.div_div by lia; reflexivity).
  assert (E2 : v / 16777216 = v / 65536 / 256) by (rewrite Z.div_div by lia; reflexivity).
  assert (E3 : (v / 16777216) mod 256 = v / 16777216).
  { apply Z.mod_small. split; [apply Z.div_pos; lia | apply Z.div_lt_upper_bound; lia]. }
  lia.
Qed.

Lemma len_app {A : Type} (l k : list A) : len (l ++ k) = len l + len k.
Proof. unfold len. rewrite length_app. lia. Qed.

Lemma len_nonneg {A : Type} (l : list A) : 0 <= len l.
Proof. unfold len. lia. Qed.

Lemma len_putUint16 (v : Z) : len (putUint16 v) = 2.
Proof. reflexivity. Qed.

Lemma uint16_range (z : Z) : is_uint16 (uint16 z).
Proof. unfold is_uint16, uint16. apply Z.mod_pos_bound. lia. Qed.

(** ** Reading back what was written *)

Lemma Reader_Len_NewReader (b : list byte) : Reader_Len (NewReader b) = len b.
Proof.
  unfold Reader_Len, NewReader; simpl. pose proof (len_nonneg b).
  destruct (Z.leb_spec (len b) 0); lia.
Qed.

Lemma readFull_NewReader (b : list byte) (n : Z) :
  0 < n -> n <= len b ->
  readFull (NewReader b) n = Ok (firstn (Z.to_nat n) b, mkReader b n).
Proof.
  intros Hn Hb. unfold readFull. rewrite Reader_Len_NewReader.
  destruct (Z.eqb_spec (len b) 0); [lia|].
  destruct (Z.ltb_spec (len b) n); [lia|]. reflexivity.
Qed.

Lemma readFull_short (b : list byte) (n : Z) :
  len b < n -> exists e, readFull (NewReader b) n = Err e.
Proof.
  intros Hb. unfold readFull. rewrite Reader_Len_NewReader.
  destruct (Z.eqb_spec (len b) 0); [eauto|].
  destruct (Z.ltb_spec (len b) n); [eauto|lia].
Qed.

Lemma len_writeV2Header (h : l2tpV2Header) : len (writeV2Header h) = 12.
Proof. reflexivity. Qed.

Lemma len_writeV3Header (h : l2tpV3Header) : len (writeV3Header h) = 12.
Proof. reflexivity. Qed.

Lemma readV2Header_write (h : l2tpV2Header) (rest : list byte) :
  wf_v2Header h ->
  readV2Header (NewReader (writeV2Header h ++ rest))
  = Ok (h, mkReader (writeV2Header h ++ rest) 12).
Proof.
  intros ((Hf & Hl) & Ht & Hs & Hns & Hnr).
  unfold readV2Header.
  rewrite readFull_NewReader
    by (rewrite ?len_app, ?len_writeV2Header; pose proof (len_nonneg rest);
        unfold v2HeaderLen; lia).
  destruct h as [[f l] t s n r]; simpl in *.
  rewrite !getUint16_putUint16 by assumption. reflexivity.
Qed.

Lemma readV3Header_write (h : l2tpV3Header) (rest : list byte) :
  wf_v3Header h ->
  readV3Header (NewReader (writeV3Header h ++ rest))
  = Ok (h, mkReader (writeV3Header h ++ rest) 12).
Proof.
  intros ((Hf & Hl) & Hc & Hns & Hnr).
  unfold readV3Header.
  rewrite readFull_NewReader
    by (rewrite ?len_app, ?len_writeV3Header; pose proof (len_nonneg rest);
        unfold v3HeaderLen; lia).
  destruct h as [[f l] c n r]; simpl in *.
  rewrite !getUint16_putUint16, getUint32_putUint32 by assumption. reflexivity.
Qed.

(** The header of a buffer of at least twelve octets is always read. *)
Lemma readV2Header_cons (f0 f1 l0 l1 t0 t1 s0 s1 n0 n1 r0 r1 : byte)
    (rest : list byte) :
  let b := f0 :: f1 :: l0 :: l1 :: t0 :: t1 :: s0 :: s1
           :: n0 :: n1 :: r0 :: r1 :: rest in
  readV2Header (NewReader b)
  = Ok (mkV2Header (mkCommon (getUint16 f0 f1) (getUint16 l0 l1))
          (getUint16 t0 t1) (getUint16 s0 s1)
          (getUint16 n0 n1) (getUint16 r0 r1), mkReader b 12).
Proof.
  intros b. unfold readV2Header.
  rewrite readFull_NewReader; [reflexivity | unfold v2HeaderLen; lia |].
  unfold b, len, v2HeaderLen. simpl length. lia.
Qed.

Lemma slice_suffix (pre rest : list byte) :
  slice (pre ++ rest) (len pre) (len pre + len rest) = Ok rest.
Proof.
  unfold slice. pose proof (len_nonneg pre). pose proof (len_nonneg rest).
  rewrite len_app.
  destruct (Z.leb_spec 0 (len pre)); [|lia].
  destruct (Z.leb_spec (len pre) (len pre + len rest)); [|lia].
  destruct (Z.leb_spec (len pre + len rest) (len pre + len rest)); [|lia].
  simpl. f_equal. unfold len.
  replace (Z.of_nat (length pre) + Z.of_nat (length rest) - Z.of_nat (length pre))
    with (Z.of_nat (length rest)) by lia.
  rewrite !Nat2Z.id, drop_app_length. apply firstn_all.
Qed.

Lemma encodedLen_ge (a : avp) : avpHeaderLen <= encodedLen a.
Proof.
  unfold encodedLen, writeAvp. rewrite len_app.
  pose proof (len_nonneg (data (avp_payload a))).
  change (len (writeAvpHeader (avp_header a))) with 6. unfold avpHeaderLen. lia.
Qed.

Lemma len_flat_map_writeAvp (l : list avp) :
  len (flat_map writeAvp l) = encodedLens l.
Proof.
  induction l as [|a l IH]; [reflexivity|].
  change (flat_map writeAvp (a :: l)) with (writeAvp a ++ flat_map writeAvp l).
  rewrite len_app, IH. reflexivity.
Qed.

Lemma buffer_min_len (b : list byte) :
  controlMessageMinLen <= len b ->
  exists f0 f1 l0 l1 t0 t1 s0 s1 n0 n1 r0 r1 rest,
    b = f0 :: f1 :: l0 :: l1 :: t0 :: t1 :: s0 :: s1
        :: n0 :: n1 :: r0 :: r1 :: rest.
Proof.
  unfold controlMessageMinLen, len. intros H.
  do 12 (destruct b as [|? b]; [simpl in H; lia|]).
  repeat eexists.
Qed.

Lemma readCommonHeader_inv (r r' : Reader) (h : l2tpCommonHeader) :
  readCommonHeader r = Ok (h, r') ->
  rd_s r' = rd_s r /\ rd_i r' = rd_i r + commonHeaderLen
  /\ commonHeaderLen <= Reader_Len r /\ wf_common h.
Proof.
  unfold readCommonHeader, readFull.
  destruct (Z.eqb_spec (Reader_Len r) 0); [discriminate|].
  destruct (Z.ltb_spec (Reader_Len r) commonHeaderLen); [discriminate|].
  simpl.
  destruct (take _ _) as [|f0 [|f1 [|l0 [|l1 [|]]]]]; try discriminate.
  intros [= <- <-]. simpl.
  repeat split; try apply getUint16_range; lia.
Qed.

Lemma readCommonHeader_cons (f0 f1 l0 l1 : byte) (rest : list byte) :
  let b := f0 :: f1 :: l0 :: l1 :: rest in
  readCommonHeader (NewReader b)
  = Ok (mkCommon (getUint16 f0 f1) (getUint16 l0 l1), mkReader b 4).
Proof.
  intros b. unfold readCommonHeader.
  rewrite readFull_NewReader; [reflexivity | unfold commonHeaderLen; lia |].
  unfold b, len, commonHeaderLen. simpl length. lia.
Qed.

Section Generic.

Context `{codec : AvpCodec}.

(** *** Decoding *)

Lemma bytesToV2CtlMsg_zlb (b : list byte) :
  v2HeaderLen <= len b -> lengthField b = Some v2HeaderLen ->
  exists hdr, bytesToV2CtlMsg b = Ok (mkV2 hdr [])
              /\ newL2tpV2ControlMessage b = Ok (mkV2 hdr []).
Proof.
  intros Hlen Hfield.
  destruct (buffer_min_len b Hlen)
    as (f0 & f1 & l0 & l1 & t0 & t1 & s0 & s1 & n0 & n1 & r0 & r1 & rest & ->).
  simpl in Hfield. injection Hfield as Hfield.
  unfold bytesToV2CtlMsg, newL2tpV2ControlMessage.
  rewrite readV2Header_cons. simpl. rewrite Hfield. simpl. eauto.
Qed.

Lemma bytesToV2CtlMsg_short (b : list byte) :
  len b < v2HeaderLen -> exists e, bytesToV2CtlMsg b = Err e.
Proof.
  intros H. unfold bytesToV2CtlMsg, readV2Header.
  destruct (readFull_short b v2HeaderLen H) as [e ->]. simpl. eauto.
Qed.

(** What the decoder checks about the AVPs of the message it returns. *)
Lemma bytesToV2CtlMsg_first_avp (b : list byte) (m : v2ControlMessage) :
  bytesToV2CtlMsg b = Ok m -> firstIsMessageType (avps m).
Proof.
  unfold bytesToV2CtlMsg.
  destruct (readV2Header (NewReader b)) as [[hdr r]| |]; simpl; try discriminate.
  destruct (v2HeaderLen <? Len (Common hdr)).
  - destruct (slice b v2HeaderLen (Len (Common hdr))) as [payload| |];
      simpl; try discriminate.
    destruct (parseAVPBuffer payload) as [[|a0 l]| |]; simpl; try discriminate.
    destruct (Z.eqb_spec (avp_getType a0) avpTypeMessage); simpl; try discriminate.
    intros [= <-]. assumption.
  - intros [= <-]. exact I.
Qed.

(** On a decoded message [getType] never takes its first panic: the
    result is that of [decodeMsgType] on the first AVP, whose failure is
    the second panic. *)
Lemma getType_of_decoded (b : list byte) (m : v2ControlMessage) :
  bytesToV2CtlMsg b = Ok m ->
  match avps m with
  | [] => getType m = Ok avpMsgTypeAck
  | a :: _ =>
      avp_getType a = avpTypeMessage
      /\ getType m = match decodeMsgType a with
                     | Ok mt => Ok mt
                     | Err e => Panic (PanicFailedToDecodeMessageType e)
                     | Panic p => Panic p
                     end
  end.
Proof.
  intros H. apply bytesToV2CtlMsg_first_avp in H.
  unfold getType, getAvps. destruct (avps m) as [|a l]; simpl in *.
  - reflexivity.
  - rewrite H. simpl. split; reflexivity.
Qed.

(** The AVPs of a decoded message are the AVPs that the AVP parser
    returned for some payload. *)
Lemma bytesToV2CtlMsg_avps (b : list byte) (m : v2ControlMessage) :
  bytesToV2CtlMsg b = Ok m ->
  avps m = [] \/ exists payload, parseAVPBuffer payload = Ok (avps m).
Proof.
  unfold bytesToV2CtlMsg.
  destruct (readV2Header (NewReader b)) as [[hdr r]| |]; simpl; try discriminate.
  destruct (v2HeaderLen <? Len (Common hdr)).
  - destruct (slice b v2HeaderLen (Len (Common hdr))) as [payload| |];
      simpl; try discriminate.
    destruct (parseAVPBuffer payload) as [[|a0 l]| |] eqn:Hp; simpl;
      try discriminate.
    destruct (negb _); try discriminate.
    intros [= <-]. right. exists payload. exact Hp.
  - intros [= <-]. left. reflexivity.
Qed.

(** *** Encoding and decoding *)

(** The decoder on a written header followed by written AVPs. *)
Lemma bytesToV2CtlMsg_write (h : l2tpV2Header) (l : list avp) :
  wf_v2Header h ->
  Len (Common h) = v2HeaderLen + encodedLens l ->
  firstIsMessageType l ->
  parseAVPBuffer (flat_map writeAvp l) = Ok l ->
  bytesToV2CtlMsg (writeV2Header h ++ flat_map writeAvp l) = Ok (mkV2 h l).
Proof.
  intros Hwf Hlen Hfirst Hparse.
  unfold bytesToV2CtlMsg. rewrite readV2Header_write by assumption.
  cbn [mbind result_bind].
  destruct (Z.ltb_spec v2HeaderLen (Len (Common h))) as [Hgt|Hle].
  - rewrite Hlen. rewrite <- len_flat_map_writeAvp.
    change v2HeaderLen with (len (writeV2Header h)).
    rewrite slice_suffix. cbn [mbind result_bind]. rewrite Hparse.
    destruct l as [|a l]; cbn [firstIsMessageType encodedLens foldr] in *.
    + unfold v2HeaderLen in *. lia.
    + cbn [mbind result_bind]. rewrite Hfirst. reflexivity.
  - destruct l as [|a l]; [reflexivity|].
    cbn [encodedLens foldr] in Hlen. pose proof (encodedLen_ge a).
    assert (0 <= encodedLens l).
    { rewrite <- len_flat_map_writeAvp. apply len_nonneg. }
    change (foldr _ 0 l) with (encodedLens l) in Hlen.
    unfold avpHeaderLen, v2HeaderLen in *. lia.
Qed.

(** Without a Message Type AVP in front, the decoder does not give the
    message back, whatever the AVP subsystem does. *)
Lemma v2_roundtrip_needs_message_type (m : v2ControlMessage) (a : avp) (l : list avp) :
  wf_v2Header (header m) ->
  Len (Common (header m)) = v2HeaderLen + encodedLens (avps m) ->
  avps m = a :: l -> avp_getType a <> avpTypeMessage ->
  (b ← toBytes m; bytesToV2CtlMsg b) <> Ok m.
Proof.
  intros Hwf Hlen Havps Hty H.
  assert (Hf : firstIsMessageType (avps m)).
  { unfold toBytes in H. eapply bytesToV2CtlMsg_first_avp. exact H. }
  rewrite Havps in Hf. simpl in Hf. contradiction.
Qed.

(** *** Appending an AVP *)

Lemma appendAvp_Len (m : v2ControlMessage) (a : avp) :
  Len (Common (header (appendAvp m a)))
  = (Len (Common (header m)) + totalLen a) mod 65536.
Proof.
  unfold appendAvp, uint16. simpl. apply Zplus_mod_idemp_r.
Qed.

Lemma appendAvp3_Len (m : v3ControlMessage) (a : avp) :
  Len (Common3 (header3 (appendAvp3 m a)))
  = (Len (Common3 (header3 m)) + totalLen a) mod 65536.
Proof.
  unfold appendAvp3, uint16. simpl. apply Zplus_mod_idemp_r.
Qed.

(** *** Building *)

Lemma newV2ControlMessage_tid (tid sid : ControlConnID) (l : list avp) :
  v2TidSidMax < tid ->
  newV2ControlMessage tid sid l = Err (ErrTunnelIDOutOfRange tid).
Proof.
  intros H. unfold newV2ControlMessage.
  destruct (Z.ltb_spec v2TidSidMax tid); [reflexivity|lia].
Qed.

Lemma newV2ControlMessage_sid (tid sid : ControlConnID) (l : list avp) :
  tid <= v2TidSidMax -> v2TidSidMax < sid ->
  newV2ControlMessage tid sid l = Err (ErrSessionIDOutOfRange sid).
Proof.
  intros H1 H2. unfold newV2ControlMessage.
  destruct (Z.ltb_spec v2TidSidMax tid); [lia|].
  destruct (Z.ltb_spec v2TidSidMax sid); [reflexivity|lia].
Qed.

Lemma newV2ControlMessage_ok (tid sid : ControlConnID) (l : list avp) :
  tid <= v2TidSidMax -> sid <= v2TidSidMax ->
  is_Ok (newV2ControlMessage tid sid l).
Proof.
  intros H1 H2. unfold newV2ControlMessage.
  destruct (Z.ltb_spec v2TidSidMax tid); [lia|].
  destruct (Z.ltb_spec v2TidSidMax sid); [lia|]. eexists; reflexivity.
Qed.

Lemma buildV2TunnelMsg_ptid (ptid : ControlConnID) (ins : list avpIn) :
  v2TidSidMax < ptid ->
  buildV2TunnelMsg ptid ins = Err (ErrTunnelIDOutOfRange ptid).
Proof.
  intros H. unfold buildV2TunnelMsg.
  rewrite newV2ControlMessage_tid by assumption. reflexivity.
Qed.

(** The builders check the id that goes into the header and nothing
    else: with a peer tunnel id in range, no error of a builder is an
    id-out-of-range error. *)
Lemma buildV2TunnelMsg_in_range (ptid : ControlConnID) (ins : list avpIn) :
  ptid <= v2TidSidMax ->
  ~ idOutOfRange (buildV2TunnelMsg ptid ins).
Proof.
  intros H. unfold buildV2TunnelMsg.
  destruct (newV2ControlMessage_ok ptid 0 [] H) as [msg ->];
    [unfold v2TidSidMax; lia|].
  simpl. revert msg.
  induction ins as [|i ins IH]; intros msg; simpl.
  - intros (id & [E|E]); discriminate.
  - destruct (newAvp vendorIDIetf (typ i) (avpIn_data i)) as [a|e|p].
    + apply IH.
    + intros (id & [E|E]); discriminate.
    + intros (id & [E|E]); discriminate.
Qed.

(** *** The message buffer parser *)

Section Parser.

Variable decodeV2 : list byte -> result v2ControlMessage.
Variable decodeV3 : list byte -> result v3ControlMessage.

Lemma Seek_current_0 (r : Reader) :
  0 <= rd_i r -> Seek_current r 0 = Some (rd_i r, r).
Proof.
  intros H. unfold Seek_current. rewrite Z.add_0_r.
  destruct (Z.ltb_spec (rd_i r) 0); [lia|]. destruct r; reflexivity.
Qed.

(** After a turn of the loop the reader stands four octets, plus the
    length field of the message, past the start of the message. *)
Lemma parseOne_position (b : list byte) (r r' : Reader) (msg : controlMessage) :
  0 <= rd_i r ->
  parseOne decodeV2 decodeV3 b r = Ok (msg, r') ->
  exists h r1, readCommonHeader r = Ok (h, r1)
               /\ rd_s r' = rd_s r
               /\ rd_i r' = rd_i r + commonHeaderLen + Len h.
Proof.
  intros Hpos. unfold parseOne. rewrite Seek_current_0 by assumption.
  destruct (readCommonHeader r) as [[h r1]| |] eqn:Hread;
    cbn [mbind result_bind]; try discriminate.
  destruct (Reader_Len r1 <? uint16 (Len h - commonHeaderLen)); try discriminate.
  destruct (protocolVersion h) as [ver| |]; cbn [mbind result_bind];
    try discriminate.
  match goal with
  | |- context [mbind _ ?x] => destruct x as [msg'| |]
  end; cbn [mbind result_bind]; try discriminate.
  destruct (readCommonHeader_inv _ _ _ Hread) as (Hs & Hi & _ & _).
  unfold Seek_current.
  destruct (rd_i r1 + Len h <? 0); try discriminate.
  intros [= <- <-]. exists h, r1. simpl. repeat split; [assumption|lia].
Qed.

Lemma Reader_Len_advance (r r' : Reader) (n : Z) :
  rd_s r' = rd_s r -> rd_i r' = rd_i r + n -> 0 < n -> 0 < Reader_Len r ->
  Reader_Len r' < Reader_Len r.
Proof.
  unfold Reader_Len. intros -> -> Hn.
  destruct (Z.leb_spec (len (rd_s r)) (rd_i r));
    destruct (Z.leb_spec (len (rd_s r)) (rd_i r + n)); lia.
Qed.

(** The loop ends within as many turns as octets are left to read. *)
Lemma parseLoop_fuel (b : list byte) (fuel : nat) (r : Reader)
    (messages : list controlMessage) :
  0 <= rd_i r -> Reader_Len r <= Z.of_nat fuel ->
  is_Some (parseLoop decodeV2 decodeV3 fuel b r messages).
Proof.
  revert r messages. induction fuel as [|fuel IH]; intros r messages Hpos Hlen.
  - simpl. destruct (Z.ltb_spec (Reader_Len r) controlMessageMinLen); [eauto|].
    unfold controlMessageMinLen in *. lia.
  - cbn [parseLoop].
    destruct (Z.ltb_spec (Reader_Len r) controlMessageMinLen); [eauto|].
    destruct (parseOne decodeV2 decodeV3 b r) as [[msg r']| |] eqn:Hone; [|eauto..].
    destruct (parseOne_position _ _ _ _ Hpos Hone) as (h & r1 & Hread & Hs & Hi).
    destruct (readCommonHeader_inv _ _ _ Hread) as (_ & _ & _ & _ & Hl).
    unfold is_uint16 in Hl. unfold controlMessageMinLen, commonHeaderLen in *.
    apply IH; [lia|].
    pose proof (Reader_Len_advance r r' (4 + Len h) Hs). lia.
Qed.

Lemma parseMessageBufferWith_fuel (b : list byte) :
  parseLoop decodeV2 decodeV3 (length b) b (NewReader b) []
  = Some (parseMessageBufferWith decodeV2 decodeV3 b).
Proof.
  unfold parseMessageBufferWith.
  destruct (parseLoop_fuel b (length b) (NewReader b) []) as [x ->];
    [simpl; lia | rewrite Reader_Len_NewReader; reflexivity | reflexivity].
Qed.

(** Fewer than twelve octets: no message and no error. *)
Lemma parseMessageBufferWith_short (b : list byte) :
  len b < controlMessageMinLen ->
  parseMessageBufferWith decodeV2 decodeV3 b = Ok [].
Proof.
  intros H. unfold parseMessageBufferWith.
  destruct (length b); cbn [parseLoop]; rewrite Reader_Len_NewReader;
    destruct (Z.ltb_spec (len b) controlMessageMinLen); try lia; reflexivity.
Qed.

(** An error in the first turn is the result of the parse. *)
Lemma parseMessageBufferWith_first_error (b : list byte) (e : error) :
  controlMessageMinLen <= len b ->
  parseOne decodeV2 decodeV3 b (NewReader b) = Err e ->
  parseMessageBufferWith decodeV2 decodeV3 b = Err e.
Proof.
  intros Hlen Hone. unfold parseMessageBufferWith.
  destruct (length b) as [|n] eqn:E.
  - unfold len, controlMessageMinLen in Hlen. lia.
  - cbn [parseLoop]. rewrite Reader_Len_NewReader.
    destruct (Z.ltb_spec (len b) controlMessageMinLen); [lia|].
    rewrite Hone. reflexivity.
Qed.

(** The first turn on a buffer of at least twelve octets, up to the
    dispatch on the protocol version. *)
Lemma parseOne_first_checks (f0 f1 l0 l1 : byte) (rest : list byte) :
  let b := f0 :: f1 :: l0 :: l1 :: rest in
  let h := mkCommon (getUint16 f0 f1) (getUint16 l0 l1) in
  parseOne decodeV2 decodeV3 b (NewReader b)
  = if len rest <? uint16 (Len h - commonHeaderLen)
    then Err (ErrMalformedHeader (Len h) (len rest))
    else
      ver ← protocolVersion h;
      msg ← match ver with
            | ProtocolVersion2 =>
                frame ← slice b 0 (0 + Len h);
                m ← decodeV2 frame; Ok (V2Message m)
            | ProtocolVersion3 =>
                frame ← slice b 0 (0 + Len h);
                m ← decodeV3 frame; Ok (V3Message m)
            end;
      match Seek_current (mkReader b 4) (Len h) with
      | None => Err ErrInvalidLengthForMessage
      | Some (_, r) => Ok (msg, r)
      end.
Proof.
  intros b h. unfold parseOne.
  rewrite Seek_current_0 by (simpl; lia).
  rewrite (readCommonHeader_cons f0 f1 l0 l1 rest
           : readCommonHeader (NewReader b) = Ok (h, mkReader b 4)).
  cbn [mbind result_bind].
  assert (E : Reader_Len (mkReader b 4) = len rest).
  { unfold Reader_Len, b, len. cbn [rd_s rd_i length].
    destruct (Z.leb_spec (Z.of_nat (S (S (S (S (length rest)))))) 4); lia. }
  rewrite E. reflexivity.
Qed.

End Parser.

(** *** validate *)

(** The entries of [seen] after the first loop. *)
Lemma foldl_initSeen_lookup (l : list (avpType * avpSpec))
    (acc : gmap avpType bool) (t : avpType) :
  foldl (fun seen '(at_, as_) =>
           match as_ with
           | mustExist => <[at_ := false]> seen
           | mayExist => seen
           end) acc l !! t
  = if decide ((t, mustExist) ∈ l) then Some false else acc !! t.
Proof.
  revert acc. induction l as [|[k v] l IH]; intros acc.
  - simpl. destruct (decide ((t, mustExist) ∈ [])) as [H|H]; [inversion H | reflexivity].
  - cbn [foldl]. rewrite IH.
    destruct (decide ((t, mustExist) ∈ l)) as [Hin|Hnin].
    + rewrite decide_True by (right; assumption). reflexivity.
    + destruct v.
      * destruct (decide (k = t)) as [->|Hne].
        -- rewrite lookup_insert_eq, decide_True by left. reflexivity.
        -- rewrite lookup_insert_ne by assumption.
           rewrite decide_False; [reflexivity|].
           intros [E|E]%elem_of_cons; [congruence | contradiction].
      * rewrite decide_False; [reflexivity|].
        intros [E|E]%elem_of_cons; [congruence | contradiction].
Qed.

Lemma initSeen_lookup (o : rangeOrder) (spec : msgSpec) (t : avpType) :
  initSeen o spec !! t
  = match hasAvp spec t with
    | Some mustExist => Some false
    | _ => None
    end.
Proof.
  unfold initSeen, range, hasAvp. rewrite foldl_initSeen_lookup, lookup_empty.
  match goal with
  | |- context [decide ?P] => destruct (decide P) as [Hin|Hnin]
  end.
  - rewrite (visit_perm o) in Hin. apply elem_of_map_to_list in Hin.
    rewrite Hin. reflexivity.
  - destruct (spec_m spec !! t) as [[|]|] eqn:E; try reflexivity.
    exfalso. apply Hnin. rewrite (visit_perm o).
    apply elem_of_map_to_list. assumption.
Qed.

(** The first loop does not depend on the order of its visit. *)
Lemma initSeen_order (o o' : rangeOrder) (spec : msgSpec) :
  initSeen o spec = initSeen o' spec.
Proof. apply map_eq. intros t. rewrite !initSeen_lookup. reflexivity. Qed.

Lemma markSeen_lookup (spec : msgSpec) (l : list avp)
    (seen : gmap avpType bool) (t : avpType) :
  markSeen spec l seen !! t
  = if decide (hasAvp spec t = Some mustExist /\ t ∈ map avp_getType l)
    then Some true else seen !! t.
Proof.
  revert seen. induction l as [|a l IH]; intros seen.
  - simpl. rewrite decide_False; [reflexivity|]. intros [_ H]. inversion H.
  - cbn [markSeen map]. rewrite IH.
    destruct (decide (hasAvp spec t = Some mustExist /\ t ∈ map avp_getType l))
      as [[Hs Hin]|Hn].
    + rewrite decide_True by (split; [assumption | right; assumption]).
      reflexivity.
    + destruct (decide (avp_getType a = t)) as [<-|Hne].
      * destruct (hasAvp spec (avp_getType a)) as [[|]|] eqn:E.
        -- rewrite lookup_insert_eq, decide_True by (split; [reflexivity|left]).
           reflexivity.
        -- rewrite decide_False; [reflexivity|]. intros [? _]; discriminate.
        -- rewrite decide_False; [reflexivity|]. intros [? _]; discriminate.
      * assert (Hn' : ~ (hasAvp spec t = Some mustExist
                         /\ t ∈ avp_getType a :: map avp_getType l)).
        { intros [Hs [E|E]%elem_of_cons]; [congruence | apply Hn; split; assumption]. }
        rewrite (decide_False _ _ Hn').
        destruct (hasAvp spec (avp_getType a)) as [[|]|]; try reflexivity.
        rewrite lookup_insert_ne by assumption. reflexivity.
Qed.

(** The walk succeeds exactly on accepted AVPs. *)
Lemma validateAvps_accepted (spec : msgSpec) (mt : avpMsgType) (l : list avp)
    (seen : gmap avpType bool) :
  Forall (avpAccepted spec) l ->
  validateAvps spec mt l seen = Ok (markSeen spec l seen).
Proof.
  intros H. revert seen. induction H as [|a l [[as_ Hs] [v Hv]] _ IH]; intros seen.
  - reflexivity.
  - cbn [validateAvps markSeen]. rewrite Hs, Hv. destruct as_; apply IH.
Qed.

Lemma validateAvps_Ok_inv (spec : msgSpec) (mt : avpMsgType) (l : list avp)
    (seen seen' : gmap avpType bool) :
  validateAvps spec mt l seen = Ok seen' -> Forall (avpAccepted spec) l.
Proof.
  revert seen. induction l as [|a l IH]; intros seen H; [constructor|].
  cbn [validateAvps] in H.
  destruct (hasAvp spec (avp_getType a)) as [as_|] eqn:Hs; [|discriminate].
  destruct (avp_decode a) as [v| |] eqn:Hv; try discriminate.
  constructor; [split; eauto; eexists; eauto | eapply IH; eassumption].
Qed.

(** The walk stops at the first AVP that is not accepted. *)
Lemma validateAvps_app (spec : msgSpec) (mt : avpMsgType) (pre l : list avp)
    (seen : gmap avpType bool) :
  Forall (avpAccepted spec) pre ->
  validateAvps spec mt (pre ++ l) seen
  = validateAvps spec mt l (markSeen spec pre seen).
Proof.
  intros H. revert seen. induction H as [|a pre [[as_ Hs] [v Hv]] _ IH]; intros seen.
  - reflexivity.
  - cbn [app validateAvps markSeen]. rewrite Hs, Hv. destruct as_; apply IH.
Qed.

(** The third loop. *)
Lemma firstUnseen_Some (o : rangeOrder) (seen : gmap avpType bool) (t : avpType) :
  firstUnseen (range o seen) = Some t -> seen !! t = Some false.
Proof.
  unfold firstUnseen, range.
  destruct (List.find _ _) as [[k ok]|] eqn:E; [|discriminate].
  intros [= <-]. apply List.find_some in E as [Hin Hok].
  apply list_elem_of_In in Hin. rewrite (visit_perm o) in Hin.
  apply elem_of_map_to_list in Hin. destruct ok; [discriminate | assumption].
Qed.

Lemma firstUnseen_None (o : rangeOrder) (seen : gmap avpType bool) (t : avpType) :
  firstUnseen (range o seen) = None -> seen !! t <> Some false.
Proof.
  unfold firstUnseen, range.
  destruct (List.find _ _) as [[k ok]|] eqn:E; [discriminate|].
  intros _ Hl.
  assert (Hf : negb false = false); [|discriminate].
  apply (List.find_none _ _ E (t, false)).
  apply list_elem_of_In. rewrite (visit_perm o).
  apply elem_of_map_to_list. assumption.
Qed.

Lemma seen_false_missing (o : rangeOrder) (spec : msgSpec) (l : list avp)
    (t : avpType) :
  markSeen spec l (initSeen o spec) !! t = Some false <-> missing spec l t.
Proof.
  rewrite markSeen_lookup, initSeen_lookup. unfold missing.
  destruct (decide (hasAvp spec t = Some mustExist /\ t ∈ map avp_getType l))
    as [[Hs Hin]|Hn].
  - split; [discriminate | intros [_ ?]; contradiction].
  - destruct (hasAvp spec t) as [[|]|] eqn:E.
    + split; [intros _; split; [reflexivity|]; intros Hin; apply Hn; auto
             | reflexivity].
    + split; [discriminate | intros [? _]; discriminate].
    + split; [discriminate | intros [? _]; discriminate].
Qed.

(** [validate] once the message type and its specification are known. *)
Lemma validate_unfold (o1 o2 : rangeOrder) (m : v2ControlMessage)
    (mt : avpMsgType) (spec : msgSpec) :
  getType m = Ok mt -> getV2MsgSpec mt = Ok spec ->
  validate o1 o2 m
  = (seen ← validateAvps spec mt (avps m) (initSeen o1 spec);
     match firstUnseen (range o2 seen) with
     | Some at_ => Err (ErrMissingMandatoryAvp at_ mt)
     | None => Ok ()
     end).
Proof. intros Ht Hs. unfold validate. rewrite Ht. simpl. rewrite Hs. reflexivity. Qed.

Lemma validate_Ok_iff (o1 o2 : rangeOrder) (m : v2ControlMessage) :
  validate o1 o2 m = Ok ()
  <-> exists mt spec,
        getType m = Ok mt /\ getV2MsgSpec mt = Ok spec
        /\ Forall (avpAccepted spec) (avps m)
        /\ forall t, hasAvp spec t = Some mustExist -> t ∈ map avp_getType (avps m).
Proof.
  split.
  - intros H. unfold validate in H.
    destruct (getType m) as [mt| |] eqn:Ht; try discriminate.
    cbn [mbind result_bind] in H.
    destruct (getV2MsgSpec mt) as [spec| |] eqn:Hs; try discriminate.
    cbn [mbind result_bind] in H.
    destruct (validateAvps spec mt (avps m) (initSeen o1 spec)) as [seen| |] eqn:Hw;
      try discriminate.
    cbn [mbind result_bind] in H.
    pose proof (validateAvps_Ok_inv _ _ _ _ _ Hw) as Hacc.
    rewrite (validateAvps_accepted _ _ _ _ Hacc) in Hw. injection Hw as <-.
    destruct (firstUnseen _) as [t|] eqn:Hf; [discriminate|].
    exists mt, spec. repeat split; try assumption.
    intros t Hm. destruct (decide (t ∈ map avp_getType (avps m))) as [|Hn]; [assumption|].
    exfalso. apply (firstUnseen_None _ _ t Hf).
    apply seen_false_missing. split; assumption.
  - intros (mt & spec & Ht & Hs & Hacc & Hall).
    rewrite (validate_unfold _ _ _ _ _ Ht Hs).
    rewrite (validateAvps_accepted _ _ _ _ Hacc). cbn [mbind result_bind].
    destruct (firstUnseen _) as [t|] eqn:Hf; [|reflexivity].
    apply firstUnseen_Some, seen_false_missing in Hf as [Hm Hn].
    exfalso. apply Hn, Hall, Hm.
Qed.

Lemma validate_no_spec (o1 o2 : rangeOrder) (m : v2ControlMessage)
    (mt : avpMsgType) (e : error) :
  getType m = Ok mt -> getV2MsgSpec mt = Err e ->
  validate o1 o2 m = Err (ErrNoSpecification mt).
Proof.
  intros Ht Hs. unfold validate. rewrite Ht. cbn [mbind result_bind].
  unfold getV2MsgSpec in *.
  repeat match goal with
         | |- context [if ?c then _ else _] => destruct c; try discriminate
         end.
  reflexivity.
Qed.

Lemma validate_unexpected (o1 o2 : rangeOrder) (m : v2ControlMessage)
    (mt : avpMsgType) (spec : msgSpec) (pre post : list avp) (a : avp) :
  getType m = Ok mt -> getV2MsgSpec mt = Ok spec ->
  avps m = pre ++ a :: post -> Forall (avpAccepted spec) pre ->
  hasAvp spec (avp_getType a) = None ->
  validate o1 o2 m = Err (ErrUnexpectedAvp (avp_getType a) mt).
Proof.
  intros Ht Hs Hl Hpre Ha. rewrite (validate_unfold _ _ _ _ _ Ht Hs), Hl.
  rewrite validateAvps_app by assumption. cbn [validateAvps]. rewrite Ha.
  reflexivity.
Qed.

Lemma validate_undecodable (o1 o2 : rangeOrder) (m : v2ControlMessage)
    (mt : avpMsgType) (spec : msgSpec) (pre post : list avp) (a : avp) (e : error) :
  getType m = Ok mt -> getV2MsgSpec mt = Ok spec ->
  avps m = pre ++ a :: post -> Forall (avpAccepted spec) pre ->
  is_Some (hasAvp spec (avp_getType a)) -> avp_decode a = Err e ->
  validate o1 o2 m = Err (ErrFailedToDecodeAvp (avp_getType a) mt e).
Proof.
  intros Ht Hs Hl Hpre [as_ Ha] Hd. rewrite (validate_unfold _ _ _ _ _ Ht Hs), Hl.
  rewrite validateAvps_app by assumption. cbn [validateAvps]. rewrite Ha, Hd.
  reflexivity.
Qed.

Lemma validate_missing (o1 o2 : rangeOrder) (m : v2ControlMessage)
    (mt : avpMsgType) (spec : msgSpec) (t : avpType) :
  getType m = Ok mt -> getV2MsgSpec mt = Ok spec ->
  Forall (avpAccepted spec) (avps m) ->
  missing spec (avps m) t ->
  exists t', validate o1 o2 m = Err (ErrMissingMandatoryAvp t' mt)
             /\ missing spec (avps m) t'.
Proof.
  intros Ht Hs Hacc Hm. rewrite (validate_unfold _ _ _ _ _ Ht Hs).
  rewrite (validateAvps_accepted _ _ _ _ Hacc). cbn [mbind result_bind].
  destruct (firstUnseen _) as [t'|] eqn:Hf.
  - exists t'. split; [reflexivity|].
    eapply seen_false_missing, firstUnseen_Some, Hf.
  - exfalso. apply (firstUnseen_None _ _ t Hf).
    apply seen_false_missing. assumption.
Qed.

(** When a single mandatory type is missing, it is the one named. *)
Lemma validate_missing_unique (o1 o2 : rangeOrder) (m : v2ControlMessage)
    (mt : avpMsgType) (spec : msgSpec) (t : avpType) :
  getType m = Ok mt -> getV2MsgSpec mt = Ok spec ->
  Forall (avpAccepted spec) (avps m) ->
  missing spec (avps m) t ->
  (forall t', missing spec (avps m) t' -> t' = t) ->
  validate o1 o2 m = Err (ErrMissingMandatoryAvp t mt).
Proof.
  intros Ht Hs Hacc Hm Huniq.
  destruct (validate_missing o1 o2 m mt spec t Ht Hs Hacc Hm) as (t' & -> & Hm').
  rewrite (Huniq t' Hm'). reflexivity.
Qed.

(** *** v3 decode in the two revisions *)

Lemma parseOne_earlier_isV2 (b : list byte) (r r' : Reader) (msg : controlMessage) :
  parseOne newL2tpV2ControlMessage newL2tpV3ControlMessage b r = Ok (msg, r') ->
  isV2 msg.
Proof.
  unfold parseOne.
  destruct (Seek_current r 0) as [[cursor r0]|]; [|discriminate].
  destruct (readCommonHeader r0) as [[h r1]| |]; cbn [mbind result_bind];
    try discriminate.
  destruct (Reader_Len r1 <? uint16 (Len h - commonHeaderLen)); try discriminate.
  destruct (protocolVersion h) as [[|]| |]; cbn [mbind result_bind];
    try discriminate.
  - destruct (slice b cursor (cursor + Len h)) as [frame| |];
      cbn [mbind result_bind]; try discriminate.
    destruct (newL2tpV2ControlMessage frame) as [m| |];
      cbn [mbind result_bind]; try discriminate.
    destruct (Seek_current r1 (Len h)) as [[? ?]|]; [|discriminate].
    intros [= <- _]. exact I.
  - destruct (slice b cursor (cursor + Len h)) as [frame| |];
      cbn [mbind result_bind]; discriminate.
Qed.

Lemma parseLoop_earlier_isV2 (b : list byte) (fuel : nat) (r : Reader)
    (messages out : list controlMessage) :
  Forall isV2 messages ->
  parseLoop newL2tpV2ControlMessage newL2tpV3ControlMessage fuel b r messages
  = Some (Ok out) ->
  Forall isV2 out.
Proof.
  revert r messages. induction fuel as [|fuel IH]; intros r messages Hacc;
    cbn [parseLoop];
    destruct (Reader_Len r <? controlMessageMinLen);
    try (intros [= <-]; assumption); try discriminate.
  destruct (parseOne _ _ b r) as [[msg r']| |] eqn:Hone; try discriminate.
  apply IH. apply Forall_app. split; [assumption|].
  constructor; [|constructor]. eapply parseOne_earlier_isV2; eassumption.
Qed.

Lemma ParseMessageBuffer_isV2 (b : list byte) (msgs : list controlMessage) :
  ParseMessageBuffer b = Ok msgs -> Forall isV2 msgs.
Proof.
  unfold ParseMessageBuffer. intros H.
  pose proof (parseMessageBufferWith_fuel
                newL2tpV2ControlMessage newL2tpV3ControlMessage b) as Hf.
  rewrite H in Hf. eapply parseLoop_earlier_isV2; [|exact Hf]. constructor.
Qed.

(** The frame handed to the decoder lies within the buffer. *)
Lemma slice_first_frame (f0 f1 l0 l1 : byte) (rest : list byte) (L : Z) :
  is_uint16 L -> uint16 (L - commonHeaderLen) <= len rest ->
  is_Ok (slice (f0 :: f1 :: l0 :: l1 :: rest) 0 (0 + L)).
Proof.
  unfold is_uint16, uint16, commonHeaderLen, slice. intros HL Hb.
  assert (Hlen : len (f0 :: f1 :: l0 :: l1 :: rest) = 4 + len rest).
  { unfold len. simpl length. lia. }
  rewrite Hlen. pose proof (len_nonneg rest).
  assert (L <= 4 + len rest).
  { destruct (Z.lt_ge_cases L 4).
    - lia.
    - rewrite Z.mod_small in Hb by lia. lia. }
  destruct (Z.leb_spec 0 0); [|lia].
  destruct (Z.leb_spec 0 (0 + L)); [|lia].
  destruct (Z.leb_spec (0 + L) (4 + len rest)); [|lia].
  eexists; reflexivity.
Qed.

Lemma ParseMessageBuffer_v3 (f0 f1 l0 l1 : byte) (rest : list byte) :
  let b := f0 :: f1 :: l0 :: l1 :: rest in
  controlMessageMinLen <= len b ->
  Z.land (getUint16 f0 f1) 15 = 3 ->
  uint16 (getUint16 l0 l1 - commonHeaderLen) <= len rest ->
  ParseMessageBuffer b = Err ErrNewL2tpV3ControlMessageNotImplemented.
Proof.
  intros b Hlen Hver Hbound. unfold ParseMessageBuffer.
  apply parseMessageBufferWith_first_error; [assumption|].
  unfold b. rewrite parseOne_first_checks. cbn [Len].
  destruct (Z.ltb_spec (len rest) (uint16 (getUint16 l0 l1 - commonHeaderLen)));
    [lia|].
  unfold protocolVersion. cbn [FlagsVer]. rewrite Hver.
  cbn [Z.eqb Pos.eqb mbind result_bind].
  destruct (slice_first_frame f0 f1 l0 l1 rest (getUint16 l0 l1)
              (getUint16_range l0 l1) Hbound) as [frame ->].
  reflexivity.
Qed.

Lemma bytesToV3CtlMsg_Ok_iff (b : list byte) (m : v3ControlMessage) :
  bytesToV3CtlMsg b = Ok m
  <-> exists r payload,
        readV3Header (NewReader b) = Ok (header3 m, r)
        /\ slice b v3HeaderLen (Len (Common3 (header3 m))) = Ok payload
        /\ parseAVPBuffer payload = Ok (avps3 m)
        /\ avps3 m <> [] /\ firstIsMessageType (avps3 m).
Proof.
  unfold bytesToV3CtlMsg. split.
  - destruct (readV3Header (NewReader b)) as [[hdr r]| |];
      cbn [mbind result_bind]; try discriminate.
    destruct (slice b v3HeaderLen (Len (Common3 hdr))) as [payload| |] eqn:Hs;
      cbn [mbind result_bind]; try discriminate.
    destruct (parseAVPBuffer payload) as [[|a0 l]| |] eqn:Hp;
      cbn [mbind result_bind]; try discriminate.
    destruct (Z.eqb_spec (avp_getType a0) avpTypeMessage); simpl; try discriminate.
    intros [= <-]. exists r, payload. simpl. repeat split; try assumption.
    discriminate.
  - intros (r & payload & -> & Hs & Hp & Hne & Hfirst).
    cbn [mbind result_bind]. rewrite Hs. cbn [mbind result_bind]. rewrite Hp.
    cbn [mbind result_bind]. destruct m as [h [|a0 l]]; simpl in *.
    + contradiction.
    + rewrite Hfirst. reflexivity.
Qed.

(** *** Two messages back to back *)

(** When the first message of a buffer is followed by fewer than
    sixteen octets, the loop ends after its first turn: the octets that
    follow are never looked at. *)
Lemma parseMessageBufferWith_one_turn
    (decodeV2 : list byte -> result v2ControlMessage)
    (decodeV3 : list byte -> result v3ControlMessage)
    (b : list byte) (msg : controlMessage) (r' : Reader) :
  controlMessageMinLen <= len b ->
  parseOne decodeV2 decodeV3 b (NewReader b) = Ok (msg, r') ->
  Reader_Len r' < controlMessageMinLen ->
  parseMessageBufferWith decodeV2 decodeV3 b = Ok [msg].
Proof.
  intros Hlen Hone Hend. unfold parseMessageBufferWith.
  destruct (length b) as [|n] eqn:E.
  - unfold len, controlMessageMinLen in Hlen. lia.
  - cbn [parseLoop]. rewrite Reader_Len_NewReader.
    destruct (Z.ltb_spec (len b) controlMessageMinLen); [lia|].
    rewrite Hone. destruct n; cbn [parseLoop];
      destruct (Z.ltb_spec (Reader_Len r') controlMessageMinLen);
      try lia; reflexivity.
Qed.

Lemma parseMessageBufferWith_first_panic
    (decodeV2 : list byte -> result v2ControlMessage)
    (decodeV3 : list byte -> result v3ControlMessage)
    (b : list byte) (p : panic) :
  controlMessageMinLen <= len b ->
  parseOne decodeV2 decodeV3 b (NewReader b) = Panic p ->
  parseMessageBufferWith decodeV2 decodeV3 b = Panic p.
Proof.
  intros Hlen Hone. unfold parseMessageBufferWith.
  destruct (length b) as [|n] eqn:E.
  - unfold len, controlMessageMinLen in Hlen. lia.
  - cbn [parseLoop]. rewrite Reader_Len_NewReader.
    destruct (Z.ltb_spec (len b) controlMessageMinLen); [lia|].
    rewrite Hone. reflexivity.
Qed.

Lemma slice_prefix (pre rest : list byte) :
  slice (pre ++ rest) 0 (0 + len pre) = Ok pre.
Proof.
  unfold slice. pose proof (len_nonneg pre). pose proof (len_nonneg rest).
  rewrite len_app.
  destruct (Z.leb_spec 0 0); [|lia].
  destruct (Z.leb_spec 0 (0 + len pre)); [|lia].
  destruct (Z.leb_spec (0 + len pre) (len pre + len rest)); [|lia].
  simpl. f_equal. unfold len.
  replace (0 + Z.of_nat (length pre) - 0) with (Z.of_nat (length pre)) by lia.
  rewrite Nat2Z.id. apply take_app_length.
Qed.

(** A v2 message that fills the first [len frame1] octets of the buffer
    and is followed by fewer than sixteen further octets: the parser
    returns the first message alone.  The reader is left four octets
    too far, so a second message of twelve to fifteen octets is never
    decoded. *)
Lemma parseMessageBufferWith_second_skipped
    (decodeV2 : list byte -> result v2ControlMessage)
    (decodeV3 : list byte -> result v3ControlMessage)
    (frame1 frame2 : list byte) (fv : Z) :
  controlMessageMinLen <= len frame1 ->
  flagsVerField frame1 = Some fv -> Z.land fv 15 = 2 ->
  lengthField frame1 = Some (len frame1) ->
  len frame2 < 16 ->
  parseMessageBufferWith decodeV2 decodeV3 (frame1 ++ frame2)
  = (m ← decodeV2 frame1; Ok [V2Message m]).
Proof.
  intros Hlen Hfv Hver Hfield Hshort.
  destruct (buffer_min_len frame1 Hlen)
    as (f0 & f1 & l0 & l1 & t0 & t1 & s0 & s1 & n0 & n1 & r0 & r1 & rest1 & E).
  set (rest := t0 :: t1 :: s0 :: s1 :: n0 :: n1 :: r0 :: r1 :: rest1) in E.
  assert (Hb : frame1 ++ frame2 = f0 :: f1 :: l0 :: l1 :: (rest ++ frame2))
    by (rewrite E; reflexivity).
  assert (Hl1 : len frame1 = 4 + len rest)
    by (rewrite E; unfold len; simpl length; lia).
  rewrite E in Hfv, Hfield. cbn [flagsVerField lengthField] in Hfv, Hfield.
  injection Hfv as Hfv. injection Hfield as Hfield. rewrite <- E in Hfield.
  pose proof (len_nonneg rest). pose proof (len_nonneg frame2).
  assert (Hmin : controlMessageMinLen <= len (frame1 ++ frame2))
    by (rewrite len_app; lia).
  assert (Hone : parseOne decodeV2 decodeV3 (frame1 ++ frame2)
                   (NewReader (frame1 ++ frame2))
                 = (m ← decodeV2 frame1;
                    Ok (V2Message m,
                        mkReader (frame1 ++ frame2) (4 + len frame1)))).
  { rewrite Hb at 1 2. rewrite parseOne_first_checks. cbn [Len].
    rewrite Hfield, len_app.
    unfold uint16, commonHeaderLen.
    rewrite Z.mod_small
      by (pose proof (getUint16_range l0 l1) as Hr; unfold is_uint16 in Hr;
          unfold controlMessageMinLen in Hlen; lia).
    destruct (Z.ltb_spec (len rest + len frame2) (len frame1 - 4)); [lia|].
    unfold protocolVersion. cbn [FlagsVer]. rewrite Hfv, Hver.
    cbn [Z.eqb Pos.eqb mbind result_bind].
    rewrite <- Hb, slice_prefix. cbn [mbind result_bind].
    destruct (decodeV2 frame1) as [m| |]; cbn [mbind result_bind]; try reflexivity.
    unfold Seek_current. cbn [rd_i rd_s].
    destruct (Z.ltb_spec (4 + len frame1) 0); [lia | reflexivity]. }
  destruct (decodeV2 frame1) as [m| |] eqn:Hd; cbn [mbind result_bind] in *.
  - eapply parseMessageBufferWith_one_turn; [assumption | exact Hone |].
    unfold Reader_Len. cbn [rd_s rd_i]. rewrite len_app.
    destruct (Z.leb_spec (len frame1 + len frame2) (4 + len frame1));
      unfold controlMessageMinLen; lia.
  - apply parseMessageBufferWith_first_error; assumption.
  - apply parseMessageBufferWith_first_panic; assumption.
Qed.

(** *** The checks of the first turn *)

Lemma parseMessageBufferWith_malformed
    (decodeV2 : list byte -> result v2ControlMessage)
    (decodeV3 : list byte -> result v3ControlMessage)
    (b : list byte) (L : Z) :
  controlMessageMinLen <= len b ->
  lengthField b = Some L ->
  len b - commonHeaderLen < uint16 (L - commonHeaderLen) ->
  parseMessageBufferWith decodeV2 decodeV3 b
  = Err (ErrMalformedHeader L (len b - commonHeaderLen)).
Proof.
  intros Hlen Hfield Hbound.
  destruct (buffer_min_len b Hlen)
    as (f0 & f1 & l0 & l1 & t0 & t1 & s0 & s1 & n0 & n1 & r0 & r1 & rest1 & ->).
  set (rest := t0 :: t1 :: s0 :: s1 :: n0 :: n1 :: r0 :: r1 :: rest1) in *.
  cbn [lengthField] in Hfield. injection Hfield as <-.
  assert (Hl : len (f0 :: f1 :: l0 :: l1 :: rest) - commonHeaderLen = len rest)
    by (unfold len, commonHeaderLen; simpl length; lia).
  rewrite Hl in *.
  apply parseMessageBufferWith_first_error; [assumption|].
  rewrite parseOne_first_checks. cbn [Len].
  destruct (Z.ltb_spec (len rest) (uint16 (getUint16 l0 l1 - commonHeaderLen)));
    [reflexivity | lia].
Qed.

Lemma parseMessageBufferWith_illegal_version
    (decodeV2 : list byte -> result v2ControlMessage)
    (decodeV3 : list byte -> result v3ControlMessage)
    (b : list byte) (fv L : Z) :
  controlMessageMinLen <= len b ->
  flagsVerField b = Some fv -> Z.land fv 15 <> 2 -> Z.land fv 15 <> 3 ->
  lengthField b = Some L ->
  uint16 (L - commonHeaderLen) <= len b - commonHeaderLen ->
  parseMessageBufferWith decodeV2 decodeV3 b = Err ErrIllegalProtocolVersion.
Proof.
  intros Hlen Hfv H2 H3 Hfield Hbound.
  destruct (buffer_min_len b Hlen)
    as (f0 & f1 & l0 & l1 & t0 & t1 & s0 & s1 & n0 & n1 & r0 & r1 & rest1 & ->).
  set (rest := t0 :: t1 :: s0 :: s1 :: n0 :: n1 :: r0 :: r1 :: rest1) in *.
  cbn [lengthField flagsVerField] in Hfield, Hfv.
  injection Hfield as <-. injection Hfv as <-.
  assert (Hl : len (f0 :: f1 :: l0 :: l1 :: rest) - commonHeaderLen = len rest)
    by (unfold len, commonHeaderLen; simpl length; lia).
  rewrite Hl in *.
  apply parseMessageBufferWith_first_error; [assumption|].
  rewrite parseOne_first_checks. cbn [Len].
  destruct (Z.ltb_spec (len rest) (uint16 (getUint16 l0 l1 - commonHeaderLen)));
    [lia|].
  unfold protocolVersion. cbn [FlagsVer].
  destruct (Z.eqb_spec (Z.land (getUint16 f0 f1) 15) 2); [contradiction|].
  destruct (Z.eqb_spec (Z.land (getUint16 f0 f1) 15) 3); [contradiction|].
  reflexivity.
Qed.

End Generic.

(** ** The model of the AVP subsystem *)

Module AvpModelFacts.
Import AvpModel.

Lemma totalLen_encodedLen (a : avp) : totalLen a = encodedLen a.
Proof.
  unfold totalLen, encodedLen, writeAvp. rewrite len_app. reflexivity.
Qed.

Lemma avpsLengthBytes_encodedLens (l : list avp) :
  avpsLengthBytes l = encodedLens l.
Proof.
  induction l as [|a l IH]; [reflexivity|].
  cbn [avpsLengthBytes encodedLens foldr].
  rewrite totalLen_encodedLen. f_equal. exact IH.
Qed.

Lemma parseAvps_write (l : list avp) (fuel : nat) :
  Forall wf_avp l -> (length l <= fuel)%nat ->
  parseAvps fuel (flat_map writeAvp l) = Ok l.
Proof.
  intros H. revert fuel.
  induction H as [|a l (Hf & Hv & Ht & Hlen & Hmt) _ IH]; intros fuel Hfuel.
  - destruct fuel; reflexivity.
  - destruct fuel as [|fuel]; [simpl in Hfuel; lia|].
    destruct a as [[fl vid ty] [d]]. cbn [avp_header avp_payload FlagLen VendorID AvpType data] in *.
    cbn [flat_map writeAvp writeAvpHeader avp_header avp_payload FlagLen VendorID
         AvpType data putUint16 app parseAvps].
    rewrite !getUint16_putUint16 by assumption.
    rewrite Hlen. pose proof (len_nonneg d).
    destruct (Z.ltb_spec (avpHeaderLen + len d) avpHeaderLen); [lia|].
    rewrite len_app.
    pose proof (len_nonneg (flat_map writeAvp l)).
    destruct (Z.ltb_spec (len d + len (flat_map writeAvp l))
                (avpHeaderLen + len d - avpHeaderLen)); [lia|].
    replace (Z.to_nat (avpHeaderLen + len d - avpHeaderLen)) with (length d)
      by (unfold len; lia).
    rewrite drop_app_length, take_app_length.
    cbv zeta. rewrite Hmt.
    rewrite IH by (simpl in Hfuel; lia). reflexivity.
Qed.

Lemma length_flat_map_writeAvp (l : list avp) :
  (length l <= length (flat_map writeAvp l))%nat.
Proof.
  induction l as [|a l IH]; [simpl; lia|].
  cbn [flat_map]. rewrite length_app.
  pose proof (encodedLen_ge a) as H. unfold encodedLen, len, avpHeaderLen in H.
  simpl length at 1. lia.
Qed.

(** The fuel of the parser of the model is never the reason it stops:
    any two amounts of fuel that cover the octets left agree. *)
Lemma parseAvps_fuel (fuel1 fuel2 : nat) (rest : list byte) :
  (length rest <= fuel1)%nat -> (length rest <= fuel2)%nat ->
  parseAvps fuel1 rest = parseAvps fuel2 rest.
Proof.
  revert fuel2 rest. induction fuel1 as [|fuel1 IH]; intros fuel2 rest H1 H2.
  - destruct rest; [|simpl in H1; lia]. destruct fuel2; reflexivity.
  - destruct fuel2 as [|fuel2].
    + destruct rest; [reflexivity | simpl in H2; lia].
    + destruct rest as [|f0 [|f1 [|v0 [|v1 [|t0 [|t1 body]]]]]]; try reflexivity.
      cbn [parseAvps].
      destruct (_ <? avpHeaderLen); [reflexivity|].
      destruct (len body <? _); [reflexivity|].
      cbv zeta. destruct (wellFormedMessageType _); [|reflexivity].
      rewrite (IH fuel2); [reflexivity | |];
        rewrite length_skipn; simpl in H1, H2; lia.
Qed.

(** Every AVP the parser of the model returns is well formed as far
    as its message type goes. *)
Lemma parseAvps_wellFormed (fuel : nat) (rest : list byte) (l : list avp) :
  parseAvps fuel rest = Ok l ->
  Forall (fun a => wellFormedMessageType a = true) l.
Proof.
  revert rest l. induction fuel as [|fuel IH]; intros rest l.
  - destruct rest; intros [= <-]; constructor.
  - destruct rest as [|f0 [|f1 [|v0 [|v1 [|t0 [|t1 body]]]]]];
      try (intros [= <-]; constructor).
    cbn [parseAvps].
    destruct (_ <? avpHeaderLen); [discriminate|].
    destruct (len body <? _); [discriminate|].
    cbv zeta. destruct (wellFormedMessageType _) eqn:Hw; [|discriminate].
    destruct (parseAvps fuel _) as [tl| |] eqn:Hp; cbn [mbind result_bind];
      try discriminate.
    intros [= <-]. constructor; [exact Hw | exact (IH _ _ Hp)].
Qed.

(** The model keeps the promise the message layer relies on. *)
Lemma model_messageTypeWellFormed : messageTypeWellFormed.
Proof.
  intros payload l a Hp Hin Hty.
  cbn [parseAVPBuffer codec] in Hp. unfold AvpModel.parseAVPBuffer in Hp.
  apply parseAvps_wellFormed in Hp.
  rewrite Forall_forall in Hp. specialize (Hp a Hin).
  unfold wellFormedMessageType in Hp. rewrite Hty in Hp.
  cbn [Z.eqb avpTypeMessage] in Hp.
  change (is_Ok (AvpModel.decodeMsgType a)).
  destruct (AvpModel.decodeMsgType a) as [mt| |]; try discriminate.
  exists mt. reflexivity.
Qed.

(** It refuses a Message Type AVP with an empty payload. *)
Lemma model_refuses_empty_message_type :
  bytesToV2CtlMsg emptyMessageTypeFrame = Err errAvpPayload
  /\ parseMessageBuffer emptyMessageTypeFrame = Err errAvpPayload.
Proof. split; reflexivity. Qed.

(** The parser of the model reads back what [toBytes] writes. *)
Lemma parseAVPBuffer_write (l : list avp) :
  Forall wf_avp l -> parseAVPBuffer (flat_map writeAvp l) = Ok l.
Proof.
  intros H. apply parseAvps_write; [assumption | apply length_flat_map_writeAvp].
Qed.

(** In the model every well-formed message that starts with a Message
    Type AVP is decoded from its encoding. *)
Lemma v2_roundtrip_model (m : v2ControlMessage) :
  wf_v2Header (header m) -> Forall wf_avp (avps m) ->
  Len (Common (header m)) = v2HeaderLen + avpsLengthBytes (avps m) ->
  firstIsMessageType (avps m) ->
  (b ← toBytes m; bytesToV2CtlMsg b) = Ok m.
Proof.
  intros Hh Ha Hlen Hfirst. destruct m as [h l]. unfold toBytes.
  cbn [mbind result_bind header avps] in *.
  apply bytesToV2CtlMsg_write; try assumption.
  - rewrite Hlen, avpsLengthBytes_encodedLens. reflexivity.
  - apply parseAVPBuffer_write. assumption.
Qed.

End AvpModelFacts.

(** ** The statements of the specification *)

#[local] Ltac by_compute :=
  vm_compute; first [reflexivity | discriminate | intuition discriminate].

(** C1.  A buffer holding a Hello message immediately followed by a
    zero-length-body acknowledgement should parse into two messages.
    It does not: after the first message the reader stands four octets
    plus the length field past the start of the message, which leaves
    eight octets of the acknowledgement, too few for another turn.  For
    every AVP subsystem, and in both revisions, the result is the
    decoded Hello message alone; in the model it is [helloMessage], of
    derived type Hello, and the first turn leaves the reader at offset
    24, not 20.  The acknowledgement on its own parses into one
    message of derived type Acknowledgement with no AVPs. *)
Theorem parseMessageBuffer_hello_then_zlb :
  (forall codec : AvpCodec,
     @parseMessageBuffer codec (helloFrame ++ zlbFrame)
     = (m ← @bytesToV2CtlMsg codec helloFrame; Ok [V2Message m])
     /\ @ParseMessageBuffer codec (helloFrame ++ zlbFrame)
        = (m ← @newL2tpV2ControlMessage codec helloFrame; Ok [V2Message m]))
  /\ parseOne bytesToV2CtlMsg bytesToV3CtlMsg (helloFrame ++ zlbFrame)
       (NewReader (helloFrame ++ zlbFrame))
     = Ok (V2Message helloMessage, mkReader (helloFrame ++ zlbFrame) 24)
  /\ parseMessageBuffer (helloFrame ++ zlbFrame) = Ok [V2Message helloMessage]
  /\ ParseMessageBuffer (helloFrame ++ zlbFrame) = Ok [V2Message helloMessage]
  /\ getType helloMessage = Ok avpMsgTypeHello
  /\ parseMessageBuffer zlbFrame = Ok [V2Message zlbMessage]
  /\ getType zlbMessage = Ok avpMsgTypeAck
  /\ avps zlbMessage = [].
Proof.
  split; [|repeat split; by_compute].
  intros codec. unfold parseMessageBuffer, ParseMessageBuffer.
  split; apply (parseMessageBufferWith_second_skipped _ _ _ _ 51202);
    by_compute.
Qed.

(** C2 (as stated, refuted).  The message [hostNameOnly] has sixteen-bit
    header fields and a header length of twelve plus the total length
    of its single AVP, yet decoding its encoding fails: the first AVP
    is not a Message Type AVP. *)
Lemma roundtrip_fails_without_message_type :
  wf_v2Header (header hostNameOnly)
  /\ Len (Common (header hostNameOnly))
     = v2HeaderLen + avpsLengthBytes (avps hostNameOnly)
  /\ Len (Common (header hostNameOnly))
     = v2HeaderLen + encodedLens (avps hostNameOnly)
  /\ (b ← toBytes hostNameOnly; bytesToV2CtlMsg b)
     = Err ErrV2FirstAvpNotMessageType
  /\ (b ← toBytes hostNameOnly; bytesToV2CtlMsg b) <> Ok hostNameOnly.
Proof.
  repeat split; try by_compute.
Qed.

(** C2 (amended).  For every AVP subsystem and every v2 message with
    sixteen-bit header fields whose header length is twelve plus the
    sum of the encoded lengths of its AVPs, whose AVP sequence is empty
    or starts with a Message Type AVP, and whose encoded AVPs the AVP
    parser reads back as the same sequence: decoding the encoding of
    the message gives the message back, header and AVPs. *)
Theorem v2_encode_decode_roundtrip (codec : AvpCodec) (m : v2ControlMessage) :
  wf_v2Header (header m) ->
  Len (Common (header m)) = v2HeaderLen + encodedLens (avps m) ->
  firstIsMessageType (avps m) ->
  parseAVPBuffer (flat_map writeAvp (avps m)) = Ok (avps m) ->
  (b ← toBytes m; bytesToV2CtlMsg b) = Ok m.
Proof.
  intros Hwf Hlen Hfirst Hparse. destruct m as [h l]. unfold toBytes.
  cbn [mbind result_bind header avps] in *.
  apply bytesToV2CtlMsg_write; assumption.
Qed.

Lemma v2_encode_decode_roundtrip_witness :
  wf_v2Header (header sccrqComplete)
  /\ Len (Common (header sccrqComplete))
     = v2HeaderLen + encodedLens (avps sccrqComplete)
  /\ firstIsMessageType (avps sccrqComplete)
  /\ parseAVPBuffer (flat_map writeAvp (avps sccrqComplete))
     = Ok (avps sccrqComplete)
  /\ (b ← toBytes sccrqComplete; bytesToV2CtlMsg b) = Ok sccrqComplete.
Proof.
  assert (H1 : wf_v2Header (header sccrqComplete))
    by (unfold wf_v2Header, wf_common, is_uint16; simpl; lia).
  assert (H2 : Len (Common (header sccrqComplete))
               = v2HeaderLen + encodedLens (avps sccrqComplete))
    by reflexivity.
  assert (H3 : firstIsMessageType (avps sccrqComplete)) by reflexivity.
  assert (H4 : parseAVPBuffer (flat_map writeAvp (avps sccrqComplete))
               = Ok (avps sccrqComplete)) by reflexivity.
  exact (conj H1 (conj H2 (conj H3 (conj H4
          (v2_encode_decode_roundtrip AvpModel.codec sccrqComplete H1 H2 H3 H4))))).
Defined.

(** C3 (as stated, refuted).  The twelve octets of
    [version0OversizedFrame] carry version 0, neither 2 nor 3, and a
    length field of 65535: the parser fails with the malformed-header
    error, not with the illegal-protocol-version error. *)
Lemma illegal_version_masked_by_length_check :
  controlMessageMinLen <= len version0OversizedFrame
  /\ flagsVerField version0OversizedFrame = Some 0
  /\ Z.land 0 15 <> 2 /\ Z.land 0 15 <> 3
  /\ parseMessageBuffer version0OversizedFrame = Err (ErrMalformedHeader 65535 8)
  /\ parseMessageBuffer version0OversizedFrame <> Err ErrIllegalProtocolVersion.
Proof.
  repeat split; try by_compute.
Qed.

(** C3 (amended).  For every buffer of at least twelve octets whose
    leading common header carries a version other than 2 and 3: when
    the length field, less four and taken modulo 65536, does not exceed
    the number of octets after the common header, the parser of either
    revision fails with the illegal-protocol-version error; otherwise
    it fails with the malformed-header error.  No message is returned
    either way. *)
Theorem illegal_version_after_length_check
    (codec : AvpCodec) (b : list byte) (fv L : Z) :
  controlMessageMinLen <= len b ->
  flagsVerField b = Some fv -> Z.land fv 15 <> 2 -> Z.land fv 15 <> 3 ->
  lengthField b = Some L ->
  let expected :=
    if len b - commonHeaderLen <? uint16 (L - commonHeaderLen)
    then Err (ErrMalformedHeader L (len b - commonHeaderLen))
    else Err ErrIllegalProtocolVersion in
  parseMessageBuffer b = expected /\ ParseMessageBuffer b = expected.
Proof.
  intros Hlen Hfv H2 H3 HL expected. subst expected.
  unfold parseMessageBuffer, ParseMessageBuffer.
  destruct (Z.ltb_spec (len b - commonHeaderLen) (uint16 (L - commonHeaderLen))).
  - split; apply parseMessageBufferWith_malformed; assumption.
  - split; eapply parseMessageBufferWith_illegal_version; eassumption.
Qed.

Lemma illegal_version_after_length_check_witness :
  controlMessageMinLen <= len version0Frame
  /\ flagsVerField version0Frame = Some 0
  /\ Z.land 0 15 <> 2 /\ Z.land 0 15 <> 3
  /\ lengthField version0Frame = Some 12
  /\ parseMessageBuffer version0Frame = Err ErrIllegalProtocolVersion
  /\ ParseMessageBuffer version0Frame = Err ErrIllegalProtocolVersion.
Proof.
  assert (H1 : controlMessageMinLen <= len version0Frame) by (vm_compute; discriminate).
  assert (H2 : flagsVerField version0Frame = Some 0) by reflexivity.
  assert (H3 : Z.land 0 15 <> 2) by (vm_compute; discriminate).
  assert (H4 : Z.land 0 15 <> 3) by (vm_compute; discriminate).
  assert (H5 : lengthField version0Frame = Some 12) by reflexivity.
  exact (conj H1 (conj H2 (conj H3 (conj H4 (conj H5
          (illegal_version_after_length_check
             AvpModel.codec version0Frame 0 12 H1 H2 H3 H4 H5)))))).
Defined.

(** The facts about the two SCCRQ scenarios that [validate] depends on. *)
#[local] Ltac accepted_avps :=
  repeat (constructor;
          [split; [eexists; vm_compute; reflexivity
                  | eexists; vm_compute; reflexivity]|]);
  constructor.

Lemma sccrqNoTunnelID_accepted :
  Forall (avpAccepted v2SccrqMsgSpec) (avps sccrqNoTunnelID).
Proof. unfold sccrqNoTunnelID, avps. accepted_avps. Qed.

Lemma sccrqComplete_accepted :
  Forall (avpAccepted v2SccrqMsgSpec) (avps sccrqComplete).
Proof. unfold sccrqComplete, avps. accepted_avps. Qed.

Lemma v2SccrqMsgSpec_mustExist (t : Z) :
  hasAvp v2SccrqMsgSpec t = Some mustExist
  <-> t = avpTypeMessage \/ t = avpTypeProtocolVersion \/ t = avpTypeHostName
      \/ t = avpTypeFramingCap \/ t = avpTypeTunnelID.
Proof.
  unfold hasAvp, v2SccrqMsgSpec, spec_m.
  repeat (rewrite lookup_insert; case_decide;
          [subst t; split;
           [first [discriminate | intros _; vm_compute; lia]
           |first [intros _; reflexivity
                  | let Hx := fresh in
                    intros Hx; exfalso; vm_compute in Hx; lia]]|]).
  rewrite lookup_empty. split; [discriminate|].
  intros Hor. exfalso. unfold avpTypeMessage, avpTypeProtocolVersion,
    avpTypeHostName, avpTypeFramingCap, avpTypeTunnelID, avpTypeVendorName,
    avpTypeFirmwareRevision, avpTypeTiebreaker, avpTypeChallenge,
    avpTypeRxWindowSize, avpTypeBearerCap in *. lia.
Qed.

Lemma sccrqNoTunnelID_missing (t : Z) :
  missing v2SccrqMsgSpec (avps sccrqNoTunnelID) t <-> t = avpTypeTunnelID.
Proof.
  unfold missing. rewrite v2SccrqMsgSpec_mustExist.
  change (map avp_getType (avps sccrqNoTunnelID))
    with [avpTypeMessage; avpTypeProtocolVersion; avpTypeHostName; avpTypeFramingCap].
  rewrite !not_elem_of_cons.
  unfold avpTypeMessage, avpTypeProtocolVersion, avpTypeHostName,
    avpTypeFramingCap, avpTypeTunnelID.
  split.
  - intros [H Hn]. lia.
  - intros ->. repeat split; try lia. apply not_elem_of_nil.
Qed.

(** C4.  [validate] on a v2 message, for every AVP subsystem and for
    every order in which the two [range] loops may visit their maps.
    It succeeds exactly when the message has a derived type with a
    registered specification, every AVP has a type listed in the
    specification and a value that decodes, and every mandatory type of
    the specification occurs among the AVPs.  Otherwise, with a
    registered specification: at the first AVP that is unlisted the
    error is unexpected-AVP; at the first AVP that is listed but does
    not decode it is the wrapped decode error; and when all AVPs pass
    and a mandatory type is missing it is missing-mandatory-AVP, naming
    a missing mandatory type.  An SCCRQ without its Tunnel ID AVP fails
    with the missing-mandatory-AVP error naming Tunnel ID. *)
Theorem validate_characterisation :
  (forall (codec : AvpCodec) (o1 o2 : rangeOrder) (m : v2ControlMessage),
     validate o1 o2 m = Ok ()
     <-> exists mt spec,
           getType m = Ok mt /\ getV2MsgSpec mt = Ok spec
           /\ Forall (avpAccepted spec) (avps m)
           /\ forall t, hasAvp spec t = Some mustExist
                        -> t ∈ map avp_getType (avps m))
  /\ (forall (codec : AvpCodec) (o1 o2 : rangeOrder) (m : v2ControlMessage)
        (mt : Z) (e : error),
        getType m = Ok mt -> getV2MsgSpec mt = Err e ->
        validate o1 o2 m = Err (ErrNoSpecification mt))
  /\ (forall (codec : AvpCodec) (o1 o2 : rangeOrder) (m : v2ControlMessage)
        (mt : Z) (spec : msgSpec) (pre post : list avp) (a : avp),
        getType m = Ok mt -> getV2MsgSpec mt = Ok spec ->
        avps m = pre ++ a :: post -> Forall (avpAccepted spec) pre ->
        (hasAvp spec (avp_getType a) = None ->
         validate o1 o2 m = Err (ErrUnexpectedAvp (avp_getType a) mt))
        /\ (forall e, is_Some (hasAvp spec (avp_getType a)) ->
                      avp_decode a = Err e ->
                      validate o1 o2 m
                      = Err (ErrFailedToDecodeAvp (avp_getType a) mt e)))
  /\ (forall (codec : AvpCodec) (o1 o2 : rangeOrder) (m : v2ControlMessage)
        (mt : Z) (spec : msgSpec) (t : Z),
        getType m = Ok mt -> getV2MsgSpec mt = Ok spec ->
        Forall (avpAccepted spec) (avps m) -> missing spec (avps m) t ->
        exists t', validate o1 o2 m = Err (ErrMissingMandatoryAvp t' mt)
                   /\ missing spec (avps m) t')
  /\ parseMessageBuffer sccrqNoTunnelIDFrame = Ok [V2Message sccrqNoTunnelID]
  /\ getType sccrqNoTunnelID = Ok avpMsgTypeSccrq
  /\ (forall o1 o2 : rangeOrder,
        validate o1 o2 sccrqNoTunnelID
        = Err (ErrMissingMandatoryAvp avpTypeTunnelID avpMsgTypeSccrq)).
Proof.
  split; [intros; apply validate_Ok_iff|].
  split; [intros; eapply validate_no_spec; eassumption|].
  split; [intros codec o1 o2 m mt spec pre post a Ht Hs Hl Hpre; split;
          [intros Ha; eapply validate_unexpected; eassumption
          |intros e Ha Hd; eapply validate_undecodable; eassumption]|].
  split; [intros; eapply validate_missing; eassumption|].
  split; [by_compute|]. split; [by_compute|].
  intros o1 o2.
  apply (validate_missing_unique o1 o2 sccrqNoTunnelID avpMsgTypeSccrq
           v2SccrqMsgSpec avpTypeTunnelID).
  - by_compute.
  - reflexivity.
  - apply sccrqNoTunnelID_accepted.
  - apply sccrqNoTunnelID_missing. reflexivity.
  - intros t' H. apply sccrqNoTunnelID_missing. assumption.
Qed.

Lemma validate_characterisation_witness :
  validate idOrder revOrder sccrqComplete = Ok ().
Proof.
  apply (proj1 validate_characterisation AvpModel.codec idOrder revOrder sccrqComplete).
  exists avpMsgTypeSccrq, v2SccrqMsgSpec.
  split; [vm_compute; reflexivity|]. split; [reflexivity|].
  split; [apply sccrqComplete_accepted|].
  intros t Ht. apply v2SccrqMsgSpec_mustExist in Ht.
  change (map avp_getType (avps sccrqComplete))
    with [avpTypeMessage; avpTypeProtocolVersion; avpTypeHostName;
          avpTypeFramingCap; avpTypeTunnelID].
  rewrite !elem_of_cons. intuition.
Defined.

(** C5.  For every AVP subsystem and every buffer of at least twelve
    octets whose header length field is 12, the v2 decoder of either
    revision succeeds, the message has no AVPs, and its derived type
    is the Acknowledgement pseudo-type. *)
Theorem zero_length_body_is_acknowledgement (codec : AvpCodec) (b : list byte) :
  v2HeaderLen <= len b -> lengthField b = Some v2HeaderLen ->
  exists m, bytesToV2CtlMsg b = Ok m /\ newL2tpV2ControlMessage b = Ok m
            /\ avps m = [] /\ getType m = Ok avpMsgTypeAck.
Proof.
  intros Hlen Hfield.
  destruct (bytesToV2CtlMsg_zlb b Hlen Hfield) as (hdr & H1 & H2).
  exists (mkV2 hdr []). repeat split; assumption.
Qed.

Lemma zero_length_body_is_acknowledgement_witness :
  v2HeaderLen <= len zlbFrame /\ lengthField zlbFrame = Some v2HeaderLen
  /\ exists m, bytesToV2CtlMsg zlbFrame = Ok m
               /\ newL2tpV2ControlMessage zlbFrame = Ok m
               /\ avps m = [] /\ getType m = Ok avpMsgTypeAck.
Proof.
  assert (H1 : v2HeaderLen <= len zlbFrame) by (vm_compute; discriminate).
  assert (H2 : lengthField zlbFrame = Some v2HeaderLen) by reflexivity.
  exact (conj H1 (conj H2
          (zero_length_body_is_acknowledgement AvpModel.codec zlbFrame H1 H2))).
Defined.

(** C6 (as stated, refuted).  Building a StopCCN for a tunnel whose own
    id is 70000 does not fail: the id is not checked, it is converted
    to sixteen bits for the Tunnel ID AVP, and the message is built. *)
Lemma stopccn_local_id_70000_is_built :
  v2TidSidMax < TunnelID localId70000
  /\ newV2Stopccn stopccnResult localId70000 = Ok stopccnLocalId70000
  /\ ~ idOutOfRange (newV2Stopccn stopccnResult localId70000).
Proof.
  split; [by_compute|]. split; [by_compute|].
  apply buildV2TunnelMsg_in_range. by_compute.
Qed.

(** C6 (amended).  For every AVP subsystem, [newV2ControlMessage] fails
    with an id-out-of-range error, instead of creating a header,
    whenever the tunnel id or the session id it is given for the header
    exceeds 65535.  The builders give it the peer's tunnel id of the
    configuration: building a StopCCN fails with the tunnel-id error
    whenever the peer's tunnel id exceeds 65535, in particular for
    70000, and with a peer's tunnel id in range no builder error is an
    id-out-of-range error. *)
Theorem builders_check_header_ids :
  (forall (codec : AvpCodec) (tid sid : Z) (l : list avp),
     v2TidSidMax < tid ->
     newV2ControlMessage tid sid l = Err (ErrTunnelIDOutOfRange tid))
  /\ (forall (codec : AvpCodec) (tid sid : Z) (l : list avp),
        tid <= v2TidSidMax -> v2TidSidMax < sid ->
        newV2ControlMessage tid sid l = Err (ErrSessionIDOutOfRange sid))
  /\ (forall (codec : AvpCodec) (rc : resultCode) (cfg : TunnelConfig),
        v2TidSidMax < PeerTunnelID cfg ->
        newV2Stopccn rc cfg = Err (ErrTunnelIDOutOfRange (PeerTunnelID cfg)))
  /\ (forall (codec : AvpCodec) (rc : resultCode) (localId : Z),
        newV2Stopccn rc (mkTunnelConfig localId 70000)
        = Err (ErrTunnelIDOutOfRange 70000))
  /\ (forall (codec : AvpCodec) (rc : resultCode) (cfg : TunnelConfig),
        PeerTunnelID cfg <= v2TidSidMax ->
        ~ idOutOfRange (newV2Stopccn rc cfg)).
Proof.
  split; [intros; apply newV2ControlMessage_tid; assumption|].
  split; [intros; apply newV2ControlMessage_sid; assumption|].
  split; [intros; apply buildV2TunnelMsg_ptid; assumption|].
  split; [intros; apply buildV2TunnelMsg_ptid; by_compute|].
  intros; apply buildV2TunnelMsg_in_range; assumption.
Qed.

Lemma builders_check_header_ids_witness :
  v2TidSidMax < 70000
  /\ newV2ControlMessage 70000 0 [] = Err (ErrTunnelIDOutOfRange 70000)
  /\ newV2ControlMessage 1 70000 [] = Err (ErrSessionIDOutOfRange 70000)
  /\ newV2Stopccn stopccnResult (mkTunnelConfig 1 70000)
     = Err (ErrTunnelIDOutOfRange 70000).
Proof.
  assert (H : v2TidSidMax < 70000) by reflexivity.
  assert (H1 : 1 <= v2TidSidMax) by (vm_compute; discriminate).
  destruct builders_check_header_ids as (Ht & Hs & Hp & _).
  exact (conj H (conj (Ht AvpModel.codec 70000 0 [] H)
          (conj (Hs AvpModel.codec 1 70000 [] H1 H)
                (Hp AvpModel.codec stopccnResult (mkTunnelConfig 1 70000) H)))).
Defined.



(** C8 (as stated, refuted).  In the later revision the v3 decoder
    returns a message for the twenty octets of [v3HelloFrame], and so
    does the buffer parser. *)
Lemma v3_decode_returns_a_message :
  bytesToV3CtlMsg v3HelloFrame = Ok v3HelloMessage
  /\ parseMessageBuffer v3HelloFrame = Ok [V3Message v3HelloMessage].
Proof. split; by_compute. Qed.

(** C8 (amended).  In the earlier revision, for every AVP subsystem and
    every buffer, the v3 decoder fails with its not-implemented error,
    the buffer parser returns v2 messages only, and it fails with that
    error on a buffer whose first header carries version 3 and a length
    within bounds.  In the later revision the v3 decoder returns a
    message exactly when the header is read, the AVP payload parses,
    and the first AVP is a Message Type AVP. *)
Theorem v3_decode_by_revision :
  (forall (codec : AvpCodec) (b : list byte),
     newL2tpV3ControlMessage b = Err ErrNewL2tpV3ControlMessageNotImplemented)
  /\ (forall (codec : AvpCodec) (b : list byte) (msgs : list controlMessage),
        ParseMessageBuffer b = Ok msgs -> Forall isV2 msgs)
  /\ (forall (codec : AvpCodec) (b : list byte) (fv L : Z),
        controlMessageMinLen <= len b ->
        flagsVerField b = Some fv -> Z.land fv 15 = 3 ->
        lengthField b = Some L ->
        uint16 (L - commonHeaderLen) <= len b - commonHeaderLen ->
        ParseMessageBuffer b = Err ErrNewL2tpV3ControlMessageNotImplemented)
  /\ (forall (codec : AvpCodec) (b : list byte) (m : v3ControlMessage),
        bytesToV3CtlMsg b = Ok m
        <-> exists r payload,
              readV3Header (NewReader b) = Ok (header3 m, r)
              /\ slice b v3HeaderLen (Len (Common3 (header3 m))) = Ok payload
              /\ parseAVPBuffer payload = Ok (avps3 m)
              /\ avps3 m <> [] /\ firstIsMessageType (avps3 m)).
Proof.
  split; [reflexivity|].
  split; [intros; eapply ParseMessageBuffer_isV2; eassumption|].
  split; [|intros; apply bytesToV3CtlMsg_Ok_iff].
  intros codec b fv L Hlen Hfv Hver HL Hbound.
  destruct (buffer_min_len b Hlen)
    as (f0 & f1 & l0 & l1 & t0 & t1 & s0 & s1 & n0 & n1 & r0 & r1 & rest1 & ->).
  cbn [flagsVerField lengthField] in Hfv, HL.
  injection Hfv as <-. injection HL as <-.
  apply ParseMessageBuffer_v3; try assumption.
  replace (len (t0 :: t1 :: s0 :: s1 :: n0 :: n1 :: r0 :: r1 :: rest1))
    with (len (f0 :: f1 :: l0 :: l1 :: t0 :: t1 :: s0 :: s1
               :: n0 :: n1 :: r0 :: r1 :: rest1) - commonHeaderLen);
    [assumption|].
  unfold len, commonHeaderLen. simpl length. lia.
Qed.

Lemma v3_decode_by_revision_witness :
  controlMessageMinLen <= len v3HelloFrame
  /\ flagsVerField v3HelloFrame = Some 51203 /\ Z.land 51203 15 = 3
  /\ lengthField v3HelloFrame = Some 20
  /\ uint16 (20 - commonHeaderLen) <= len v3HelloFrame - commonHeaderLen
  /\ ParseMessageBuffer v3HelloFrame
     = Err ErrNewL2tpV3ControlMessageNotImplemented.
Proof.
  assert (H1 : controlMessageMinLen <= len v3HelloFrame) by (vm_compute; discriminate).
  assert (H2 : flagsVerField v3HelloFrame = Some 51203) by reflexivity.
  assert (H3 : Z.land 51203 15 = 3) by reflexivity.
  assert (H4 : lengthField v3HelloFrame = Some 20) by reflexivity.
  assert (H5 : uint16 (20 - commonHeaderLen) <= len v3HelloFrame - commonHeaderLen)
    by (vm_compute; discriminate).
  destruct v3_decode_by_revision as (_ & _ & Hv3 & _).
  exact (conj H1 (conj H2 (conj H3 (conj H4 (conj H5
          (Hv3 AvpModel.codec v3HelloFrame 51203 20 H1 H2 H3 H4 H5)))))).
Defined.

(** C9 (as stated, refuted).  Two calls of [validate] on the SCCRQ that
    carries only its Message Type AVP, the third loop visiting the map
    of seen types in one order and in the reverse order: both fail, but
    with different errors, the first naming Host Name and the second
    Protocol Version as the missing AVP. *)
Lemma validate_twice_different_errors :
  validate idOrder idOrder sccrqOnlyMessageType
  = Err (ErrMissingMandatoryAvp avpTypeHostName avpMsgTypeSccrq)
  /\ validate idOrder revOrder sccrqOnlyMessageType
     = Err (ErrMissingMandatoryAvp avpTypeProtocolVersion avpMsgTypeSccrq)
  /\ validate idOrder idOrder sccrqOnlyMessageType
     <> validate idOrder revOrder sccrqOnlyMessageType.
Proof. repeat split; by_compute. Qed.

(** C9 (amended).  For every AVP subsystem, two calls of [validate] on
    the same message, whatever the orders in which their [range] loops
    visit the maps, give the same result (both succeed, both fail with
    the same error, or both panic alike), except when two different
    mandatory AVPs are missing: then both calls fail with a
    missing-mandatory-AVP error for the same message type, each naming
    a missing mandatory AVP, not necessarily the same one. *)
Theorem validate_twice_same_result_or_missing
    (codec : AvpCodec) (o1 o2 o1' o2' : rangeOrder) (m : v2ControlMessage) :
  validate o1 o2 m = validate o1' o2' m
  \/ exists mt spec t t',
       getType m = Ok mt /\ getV2MsgSpec mt = Ok spec
       /\ validate o1 o2 m = Err (ErrMissingMandatoryAvp t mt)
       /\ validate o1' o2' m = Err (ErrMissingMandatoryAvp t' mt)
       /\ t <> t' /\ missing spec (avps m) t /\ missing spec (avps m) t'.
Proof.
  unfold validate.
  destruct (getType m) as [mt| |] eqn:Ht; [|left; reflexivity..].
  cbn [mbind result_bind].
  destruct (getV2MsgSpec mt) as [spec| |] eqn:Hs; [|left; reflexivity..].
  cbn [mbind result_bind].
  rewrite (initSeen_order o1' o1).
  destruct (validateAvps spec mt (avps m) (initSeen o1 spec)) as [seen| |] eqn:Hw;
    [|left; reflexivity..].
  cbn [mbind result_bind].
  pose proof (validateAvps_Ok_inv _ _ _ _ _ Hw) as Hacc.
  rewrite (validateAvps_accepted _ _ _ _ Hacc) in Hw. injection Hw as <-.
  destruct (firstUnseen (range o2 _)) as [t|] eqn:Hf;
    destruct (firstUnseen (range o2' _)) as [t'|] eqn:Hf'.
  - destruct (decide (t = t')) as [->|Hne]; [left; reflexivity|].
    right. exists mt, spec, t, t'. repeat split; try assumption; try reflexivity;
      try (eapply seen_false_missing, firstUnseen_Some; eassumption).
    all: eapply (proj1 (seen_false_missing _ _ _ _)), firstUnseen_Some; eassumption.
  - exfalso. eapply firstUnseen_None; [exact Hf'|].
    eapply firstUnseen_Some; exact Hf.
  - exfalso. eapply firstUnseen_None; [exact Hf|].
    eapply firstUnseen_Some; exact Hf'.
  - left; reflexivity.
Qed.

(** C10.  For every AVP subsystem, every message and every AVP,
    [appendAvp] appends the AVP and sets the header length to the old
    length plus the total length of the AVP, modulo 65536, for v2 and
    v3 messages alike; nothing fails and nothing saturates: appending
    an AVP of eight octets to a message of length 65530 leaves a header
    length of 2. *)
Theorem appendAvp_length_wraps :
  (forall (codec : AvpCodec) (m : v2ControlMessage) (a : avp),
     Len (Common (header (appendAvp m a)))
     = (Len (Common (header m)) + totalLen a) mod 65536
     /\ avps (appendAvp m a) = avps m ++ [a])
  /\ (forall (codec : AvpCodec) (m : v3ControlMessage) (a : avp),
        Len (Common3 (header3 (appendAvp3 m a)))
        = (Len (Common3 (header3 m)) + totalLen a) mod 65536
        /\ avps3 (appendAvp3 m a) = avps3 m ++ [a])
  /\ totalLen (messageTypeAvp avpMsgTypeHello) = 8
  /\ Len (Common (header (appendAvp nearlyFullMessage
                            (messageTypeAvp avpMsgTypeHello)))) = 2
  /\ Len (Common3 (header3 (appendAvp3 nearlyFullMessage3
                              (messageTypeAvp avpMsgTypeHello)))) = 2.
Proof.
  split; [intros; split; [apply appendAvp_Len | reflexivity]|].
  split; [intros; split; [apply appendAvp3_Len | reflexivity]|].
  repeat split; by_compute.
Qed.

(** * Further properties *)

(** ** The reader at an offset *)

Lemma len_skipn (b : list byte) (i : Z) :
  0 <= i -> len (skipn (Z.to_nat i) b) = if len b <=? i then 0 else len b - i.
Proof.
  intros Hi. unfold len. rewrite length_skipn.
  destruct (Z.leb_spec (Z.of_nat (length b)) i); lia.
Qed.

Lemma Reader_Len_skipn (b : list byte) (i : Z) :
  0 <= i -> Reader_Len (mkReader b i) = len (skipn (Z.to_nat i) b).
Proof.
  intros Hi. rewrite len_skipn by assumption. reflexivity.
Qed.

Lemma skipn_skipn_Z (b : list byte) (i n : Z) :
  0 <= i -> 0 <= n ->
  skipn (Z.to_nat n) (skipn (Z.to_nat i) b) = skipn (Z.to_nat (i + n)) b.
Proof.
  intros Hi Hn. rewrite drop_drop. f_equal. lia.
Qed.

Lemma slice_at (b : list byte) (i L : Z) :
  0 <= i <= len b -> 0 <= L -> L <= len (skipn (Z.to_nat i) b) ->
  slice b i (i + L) = Ok (firstn (Z.to_nat L) (skipn (Z.to_nat i) b)).
Proof.
  intros Hi HL Hb. rewrite len_skipn in Hb by lia. unfold slice.
  destruct (Z.leb_spec (len b) i).
  - assert (L = 0) by lia. subst L.
    pose proof (len_nonneg b).
    destruct (Z.leb_spec 0 i); [|lia].
    destruct (Z.leb_spec i (i + 0)); [|lia].
    destruct (Z.leb_spec (i + 0) (len b)); [|lia].
    simpl. do 2 f_equal. lia.
  - destruct (Z.leb_spec 0 i); [|lia].
    destruct (Z.leb_spec i (i + L)); [|lia].
    destruct (Z.leb_spec (i + L) (len b)); [|lia].
    simpl. do 2 f_equal. lia.
Qed.

Lemma len_firstn (s : list byte) (L : Z) :
  0 <= L -> L <= len s -> len (firstn (Z.to_nat L) s) = L.
Proof.
  unfold len. intros H1 H2. rewrite length_firstn. lia.
Qed.

(** The frame of a turn lies within the octets that are left. *)
Lemma frame_within (tl : list byte) (L : Z) :
  is_uint16 L -> uint16 (L - commonHeaderLen) <= len tl ->
  L <= commonHeaderLen + len tl.
Proof.
  unfold is_uint16, uint16, commonHeaderLen. intros HL Hb.
  pose proof (len_nonneg tl).
  destruct (Z.lt_ge_cases L 4); [lia|].
  rewrite Z.mod_small in Hb by lia. lia.
Qed.

Section ParserFacts.

Variable decodeV2 : list byte -> result v2ControlMessage.
Variable decodeV3 : list byte -> result v3ControlMessage.

(** A turn of the loop depends on the buffer and the reader only through
    the octets from the read position on. *)
Lemma parseOne_turn (b : list byte) (i : Z) :
  0 <= i -> commonHeaderLen <= len (skipn (Z.to_nat i) b) ->
  parseOne decodeV2 decodeV3 b (mkReader b i)
  = ('(msg, n) ← turn decodeV2 decodeV3 (skipn (Z.to_nat i) b);
     Ok (msg, mkReader b (i + n))).
Proof.
  intros Hi Hlen.
  assert (Hib : i < len b).
  { rewrite len_skipn in Hlen by assumption.
    destruct (Z.leb_spec (len b) i); unfold commonHeaderLen in *; lia. }
  unfold parseOne.
  rewrite Seek_current_0 by assumption. cbn [rd_i].
  unfold readCommonHeader, readFull. rewrite Reader_Len_skipn by assumption.
  unfold commonHeaderLen in *.
  destruct (Z.eqb_spec (len (skipn (Z.to_nat i) b)) 0); [lia|].
  destruct (Z.ltb_spec (len (skipn (Z.to_nat i) b)) 4); [lia|].
  cbn [mbind result_bind rd_s rd_i].
  destruct (skipn (Z.to_nat i) b) as [|f0 [|f1 [|l0 [|l1 tl]]]] eqn:Es;
    try (unfold len in Hlen; simpl in Hlen; lia).
  change (take (Z.to_nat 4) (f0 :: f1 :: l0 :: l1 :: tl)) with [f0; f1; l0; l1].
  cbn [mbind result_bind turn Len]. unfold commonHeaderLen.
  assert (Etl : Reader_Len (mkReader b (i + 4)) = len tl).
  { rewrite Reader_Len_skipn by lia.
    rewrite <- skipn_skipn_Z by lia. rewrite Es. reflexivity. }
  rewrite Etl.
  destruct (Z.ltb_spec (len tl) (uint16 (getUint16 l0 l1 - 4))); [reflexivity|].
  destruct (protocolVersion (mkCommon (getUint16 f0 f1) (getUint16 l0 l1)))
    as [ver| |]; cbn [mbind result_bind]; try reflexivity.
  pose proof (getUint16_range l0 l1) as Hr.
  pose proof (frame_within tl (getUint16 l0 l1) Hr) as Hw.
  unfold commonHeaderLen in Hw. specialize (Hw ltac:(assumption)).
  assert (Hs : slice b i (i + getUint16 l0 l1)
               = Ok (firstn (Z.to_nat (getUint16 l0 l1)) (f0 :: f1 :: l0 :: l1 :: tl))).
  { rewrite <- Es. apply slice_at; [| unfold is_uint16 in Hr; lia |].
    - lia.
    - rewrite Es. unfold len in *. simpl length. lia. }
  unfold Seek_current. cbn [rd_i rd_s].
  unfold is_uint16 in Hr.
  destruct (Z.ltb_spec (i + 4 + getUint16 l0 l1) 0); [lia|].
  destruct ver; cbn [decodeFrame]; rewrite Hs; cbn [mbind result_bind];
    match goal with
    | |- context [decodeV2 ?f] => destruct (decodeV2 f)
    | |- context [decodeV3 ?f] => destruct (decodeV3 f)
    end; cbn [mbind result_bind]; try reflexivity;
    do 3 f_equal; lia.
Qed.

Lemma turn_advance (s : list byte) (msg : controlMessage) (n : Z) :
  turn decodeV2 decodeV3 s = Ok (msg, n) ->
  commonHeaderLen <= n <= commonHeaderLen + len s.
Proof.
  unfold turn.
  destruct s as [|f0 [|f1 [|l0 [|l1 tl]]]]; try discriminate.
  cbn [Len].
  destruct (Z.ltb_spec (len tl) (uint16 (getUint16 l0 l1 - commonHeaderLen)));
    [discriminate|].
  destruct (protocolVersion _) as [ver| |]; cbn [mbind result_bind];
    try discriminate.
  destruct (decodeFrame _ _ _ _) as [m| |]; cbn [mbind result_bind];
    try discriminate.
  intros [= _ <-].
  pose proof (getUint16_range l0 l1) as Hr.
  pose proof (frame_within tl (getUint16 l0 l1) Hr ltac:(assumption)).
  unfold is_uint16 in Hr. unfold len in *. simpl length.
  unfold commonHeaderLen in *. lia.
Qed.

(** The loop of the parser from the position [i] is the loop on the
    octets from [i] on; the messages found are added to those found
    before. *)
Lemma parseLoop_suffix (b : list byte) (fuel : nat) (i : Z)
    (messages : list controlMessage) :
  0 <= i ->
  parseLoop decodeV2 decodeV3 fuel b (mkReader b i) messages
  = match parseSuffix decodeV2 decodeV3 fuel (skipn (Z.to_nat i) b) with
    | Some r => Some (tl ← r; Ok (messages ++ tl))
    | None => None
    end.
Proof.
  revert i messages. induction fuel as [|fuel IH]; intros i messages Hi;
    cbn [parseLoop parseSuffix]; rewrite Reader_Len_skipn by assumption;
    destruct (Z.ltb_spec (len (skipn (Z.to_nat i) b)) controlMessageMinLen);
    cbn [mbind result_bind]; rewrite ?app_nil_r; try reflexivity.
  rewrite parseOne_turn
    by (unfold controlMessageMinLen, commonHeaderLen in *; lia).
  destruct (turn decodeV2 decodeV3 (skipn (Z.to_nat i) b)) as [[msg n]| |] eqn:Et;
    cbn [mbind result_bind]; try reflexivity.
  pose proof (turn_advance _ _ _ Et) as Hn. unfold commonHeaderLen in Hn.
  rewrite IH by lia. rewrite skipn_skipn_Z by lia.
  destruct (parseSuffix decodeV2 decodeV3 fuel (skipn (Z.to_nat (i + n)) b))
    as [[tl| |]|]; cbn [mbind result_bind]; try reflexivity.
  rewrite <- app_assoc. reflexivity.
Qed.

(** More fuel does not change a result. *)
Lemma parseSuffix_more_fuel (fuel fuel' : nat) (s : list byte)
    (r : result (list controlMessage)) :
  (fuel <= fuel')%nat ->
  parseSuffix decodeV2 decodeV3 fuel s = Some r ->
  parseSuffix decodeV2 decodeV3 fuel' s = Some r.
Proof.
  revert fuel' s r. induction fuel as [|fuel IH]; intros fuel' s r Hle;
    cbn [parseSuffix].
  - destruct fuel'; cbn [parseSuffix];
      destruct (len s <? controlMessageMinLen); try discriminate; auto.
  - destruct fuel' as [|fuel']; [lia|]. cbn [parseSuffix].
    destruct (len s <? controlMessageMinLen); [auto|].
    destruct (turn decodeV2 decodeV3 s) as [[msg n]| |]; auto.
    destruct (parseSuffix decodeV2 decodeV3 fuel (skipn (Z.to_nat n) s))
      as [r'|] eqn:E; [|discriminate].
    rewrite (IH fuel' _ r' ltac:(lia) E). auto.
Qed.

Lemma parseSuffix_fuel (fuel : nat) (s : list byte) :
  (length s <= fuel)%nat ->
  is_Some (parseSuffix decodeV2 decodeV3 fuel s).
Proof.
  revert s. induction fuel as [|fuel IH]; intros s Hs; cbn [parseSuffix].
  - destruct (Z.ltb_spec (len s) controlMessageMinLen); [eauto|].
    unfold len, controlMessageMinLen in *. lia.
  - destruct (Z.ltb_spec (len s) controlMessageMinLen); [eauto|].
    destruct (turn decodeV2 decodeV3 s) as [[msg n]| |] eqn:Et; [|eauto..].
    pose proof (turn_advance _ _ _ Et) as Hn. unfold commonHeaderLen in Hn.
    destruct (IH (skipn (Z.to_nat n) s)) as [r ->]; [|eauto].
    rewrite length_skipn. unfold len, controlMessageMinLen in *. lia.
Qed.

(** The parser in terms of the loop on the octets that are left. *)
Lemma parseMessageBufferWith_suffix (b : list byte) :
  parseSuffix decodeV2 decodeV3 (length b) b
  = Some (parseMessageBufferWith decodeV2 decodeV3 b).
Proof.
  destruct (parseSuffix_fuel (length b) b (le_n _)) as [r Hr].
  rewrite Hr. f_equal. unfold parseMessageBufferWith, NewReader.
  rewrite parseLoop_suffix by lia. change (Z.to_nat 0) with 0%nat.
  rewrite drop_0, Hr. cbn [default].
  destruct r; reflexivity.
Qed.

Lemma parseSuffix_enough (fuel : nat) (s : list byte) :
  (length s <= fuel)%nat ->
  parseSuffix decodeV2 decodeV3 fuel s
  = Some (parseMessageBufferWith decodeV2 decodeV3 s).
Proof.
  intros H. eapply parseSuffix_more_fuel; [exact H|].
  apply parseMessageBufferWith_suffix.
Qed.

(** The parser, one turn at a time. *)
Lemma parseMessageBufferWith_step (b : list byte) :
  parseMessageBufferWith decodeV2 decodeV3 b
  = if len b <? controlMessageMinLen then Ok []
    else
      '(msg, n) ← turn decodeV2 decodeV3 b;
      tl ← parseMessageBufferWith decodeV2 decodeV3 (skipn (Z.to_nat n) b);
      Ok (msg :: tl).
Proof.
  pose proof (parseMessageBufferWith_suffix b) as H.
  destruct (length b) as [|fuel] eqn:El; cbn [parseSuffix] in H.
  - destruct (Z.ltb_spec (len b) controlMessageMinLen).
    + congruence.
    + unfold len, controlMessageMinLen in *. lia.
  - destruct (Z.ltb_spec (len b) controlMessageMinLen); [congruence|].
    destruct (turn decodeV2 decodeV3 b) as [[msg n]| |] eqn:Et;
      cbn [mbind result_bind]; try congruence.
    pose proof (turn_advance _ _ _ Et) as Hn. unfold commonHeaderLen in Hn.
    rewrite parseSuffix_enough in H; [congruence|].
    rewrite length_skipn. unfold len, controlMessageMinLen in *. lia.
Qed.

End ParserFacts.

(** ** What the decoders return *)

Lemma take_frame (f0 f1 l0 l1 : byte) (tl : list byte) (L : Z) :
  commonHeaderLen <= L ->
  firstn (Z.to_nat L) (f0 :: f1 :: l0 :: l1 :: tl)
  = f0 :: f1 :: l0 :: l1 :: firstn (Z.to_nat (L - commonHeaderLen)) tl.
Proof.
  unfold commonHeaderLen. intros HL.
  replace (Z.to_nat L) with (S (S (S (S (Z.to_nat (L - 4)))))) by lia.
  reflexivity.
Qed.

Lemma readV2Header_inv (b : list byte) (h : l2tpV2Header) (r : Reader) :
  readV2Header (NewReader b) = Ok (h, r) ->
  wf_v2Header h /\ v2HeaderLen <= len b
  /\ flagsVerField b = Some (FlagsVer (Common h))
  /\ lengthField b = Some (Len (Common h)).
Proof.
  intros H.
  destruct (Z.lt_ge_cases (len b) v2HeaderLen) as [Hs|Hge].
  - unfold readV2Header in H.
    destruct (readFull_short b v2HeaderLen Hs) as [e He].
    rewrite He in H. discriminate.
  - destruct (buffer_min_len b Hge)
      as (f0 & f1 & l0 & l1 & t0 & t1 & s0 & s1 & n0 & n1 & r0 & r1 & rest & ->).
    rewrite readV2Header_cons in H. injection H as <- _.
    repeat split; try apply getUint16_range; assumption.
Qed.

Lemma readV3Header_inv (b : list byte) (h : l2tpV3Header) (r : Reader) :
  readV3Header (NewReader b) = Ok (h, r) ->
  wf_v3Header h /\ v3HeaderLen <= len b
  /\ flagsVerField b = Some (FlagsVer (Common3 h))
  /\ lengthField b = Some (Len (Common3 h)).
Proof.
  intros H.
  destruct (Z.lt_ge_cases (len b) v3HeaderLen) as [Hs|Hge].
  - unfold readV3Header in H.
    destruct (readFull_short b v3HeaderLen Hs) as [e He].
    rewrite He in H. discriminate.
  - destruct (buffer_min_len b Hge)
      as (f0 & f1 & l0 & l1 & c0 & c1 & c2 & c3 & n0 & n1 & r0 & r1 & rest & ->).
    unfold readV3Header in H.
    rewrite readFull_NewReader in H; [| unfold v3HeaderLen; lia | assumption].
    injection H as <- _.
    repeat split; try apply getUint16_range; try apply getUint32_range;
      assumption.
Qed.

Lemma slice_Ok_inv (b payload : list byte) (lo hi : Z) :
  slice b lo hi = Ok payload -> 0 <= lo <= hi /\ hi <= len b.
Proof.
  unfold slice.
  destruct (Z.leb_spec 0 lo); [|discriminate].
  destruct (Z.leb_spec lo hi); [|discriminate].
  destruct (Z.leb_spec hi (len b)); [|discriminate]. lia.
Qed.

Section DecoderFacts.

Context `{codec : AvpCodec}.

Lemma bytesToV2CtlMsg_inv (b : list byte) (m : v2ControlMessage) :
  bytesToV2CtlMsg b = Ok m ->
  wf_v2Header (header m) /\ v2HeaderLen <= len b
  /\ flagsVerField b = Some (FlagsVer (Common (header m)))
  /\ lengthField b = Some (Len (Common (header m)))
  /\ (avps m = [] <-> Len (Common (header m)) <= v2HeaderLen)
  /\ (v2HeaderLen < Len (Common (header m)) -> Len (Common (header m)) <= len b)
  /\ firstIsMessageType (avps m).
Proof.
  intros H. pose proof (bytesToV2CtlMsg_first_avp b m H) as Hfirst.
  unfold bytesToV2CtlMsg in H.
  destruct (readV2Header (NewReader b)) as [[hdr r]| |] eqn:Hr;
    cbn [mbind result_bind] in H; try discriminate.
  destruct (readV2Header_inv _ _ _ Hr) as (Hwf & Hlen & Hfv & Hlf).
  destruct (Z.ltb_spec v2HeaderLen (Len (Common hdr))) as [Hgt|Hle].
  - destruct (slice b v2HeaderLen (Len (Common hdr))) as [payload| |] eqn:Hs;
      cbn [mbind result_bind] in H; try discriminate.
    apply slice_Ok_inv in Hs.
    destruct (parseAVPBuffer payload) as [[|a0 l]| |];
      cbn [mbind result_bind] in H; try discriminate.
    destruct (negb _); try discriminate. injection H as <-.
    cbn [header avps] in *.
    split; [assumption|]. split; [assumption|]. split; [assumption|].
    split; [assumption|]. split; [|split; [lia | assumption]].
    split; [intros Hnil; discriminate Hnil | intros Hle; exfalso; lia].
  - injection H as <-. cbn [header avps] in *.
    split; [assumption|]. split; [assumption|]. split; [assumption|].
    split; [assumption|]. split; [|split; [lia | assumption]].
    split; [intros _; assumption | reflexivity].
Qed.

Lemma bytesToV3CtlMsg_inv (b : list byte) (m : v3ControlMessage) :
  bytesToV3CtlMsg b = Ok m ->
  wf_v3Header (header3 m) /\ v3HeaderLen <= len b
  /\ flagsVerField b = Some (FlagsVer (Common3 (header3 m)))
  /\ lengthField b = Some (Len (Common3 (header3 m)))
  /\ v3HeaderLen <= Len (Common3 (header3 m)) <= len b
  /\ avps3 m <> [] /\ firstIsMessageType (avps3 m).
Proof.
  intros H. apply bytesToV3CtlMsg_Ok_iff in H
    as (r & payload & Hr & Hs & _ & Hne & Hfirst).
  destruct (readV3Header_inv _ _ _ Hr) as (Hwf & Hlen & Hfv & Hlf).
  apply slice_Ok_inv in Hs.
  split; [assumption|]. split; [assumption|]. split; [assumption|].
  split; [assumption|]. split; [lia|]. split; assumption.
Qed.

(** A successful turn of the later revision. *)
Lemma turn_later_Ok (s : list byte) (msg : controlMessage) (n : Z) :
  turn bytesToV2CtlMsg bytesToV3CtlMsg s = Ok (msg, n) ->
  parsedMessage (len s) msg /\ n = commonHeaderLen + msg_getLen msg.
Proof.
  unfold turn.
  destruct s as [|f0 [|f1 [|l0 [|l1 tl]]]]; try discriminate.
  cbn [Len].
  destruct (Z.ltb_spec (len tl) (uint16 (getUint16 l0 l1 - commonHeaderLen)));
    [discriminate|].
  pose proof (getUint16_range l0 l1) as Hr.
  pose proof (frame_within tl (getUint16 l0 l1) Hr ltac:(assumption)) as Hw.
  assert (Hs : len (f0 :: f1 :: l0 :: l1 :: tl) = commonHeaderLen + len tl)
    by (unfold len, commonHeaderLen; simpl length; lia).
  unfold protocolVersion. cbn [FlagsVer].
  set (frame := firstn (Z.to_nat (getUint16 l0 l1)) (f0 :: f1 :: l0 :: l1 :: tl)).
  assert (Hframe : len frame = getUint16 l0 l1).
  { apply len_firstn; [unfold is_uint16 in Hr; lia | lia]. }
  destruct (Z.eqb_spec (Z.land (getUint16 f0 f1) 15) 2) as [Hv2|_];
    [|destruct (Z.eqb_spec (Z.land (getUint16 f0 f1) 15) 3) as [Hv3|_]];
    cbn [mbind result_bind decodeFrame]; try discriminate.
  - destruct (bytesToV2CtlMsg frame) as [m| |] eqn:Hd;
      cbn [mbind result_bind]; try discriminate.
    intros [= <- <-].
    destruct (bytesToV2CtlMsg_inv _ _ Hd) as (Hwf & Hl & Hfv & Hlf & He & _ & Hf).
    assert (Hge : commonHeaderLen <= getUint16 l0 l1)
      by (unfold commonHeaderLen, v2HeaderLen in *; lia).
    unfold frame in Hfv, Hlf. rewrite take_frame in Hfv, Hlf by assumption.
    cbn [flagsVerField lengthField] in Hfv, Hlf.
    injection Hfv as Hfv. injection Hlf as Hlf.
    cbn [parsedMessage msg_getLen]. rewrite <- Hfv, <- Hlf.
    rewrite <- Hlf in He.
    split; [|reflexivity].
    split; [assumption|]. split; [assumption|]. split; [lia|].
    split; [|assumption]. split.
    + intros Hnil. apply He in Hnil. lia.
    + intros Heq. apply He. lia.
  - destruct (bytesToV3CtlMsg frame) as [m| |] eqn:Hd;
      cbn [mbind result_bind]; try discriminate.
    intros [= <- <-].
    destruct (bytesToV3CtlMsg_inv _ _ Hd) as (Hwf & Hl & Hfv & Hlf & Hb & Hne & Hf).
    assert (Hge : commonHeaderLen <= getUint16 l0 l1)
      by (unfold commonHeaderLen, v3HeaderLen in *; lia).
    unfold frame in Hfv, Hlf. rewrite take_frame in Hfv, Hlf by assumption.
    cbn [flagsVerField lengthField] in Hfv, Hlf.
    injection Hfv as Hfv. injection Hlf as Hlf.
    cbn [parsedMessage msg_getLen]. rewrite <- Hfv, <- Hlf.
    rewrite <- Hlf in Hb.
    split; [|reflexivity].
    split; [assumption|]. split; [assumption|]. split; [lia|].
    split; assumption.
Qed.

End DecoderFacts.

(** ** The parser, turn by turn *)

Lemma flagsVerField_app (frame tail : list byte) (fv : Z) :
  flagsVerField frame = Some fv -> flagsVerField (frame ++ tail) = Some fv.
Proof. destruct frame as [|f0 [|f1 ?]]; try discriminate. auto. Qed.

Lemma lengthField_app (frame tail : list byte) (L : Z) :
  lengthField frame = Some L -> lengthField (frame ++ tail) = Some L.
Proof. destruct frame as [|f0 [|f1 [|l0 [|l1 ?]]]]; try discriminate. auto. Qed.

Lemma lengthField_range (b : list byte) (L : Z) :
  lengthField b = Some L -> is_uint16 L.
Proof.
  destruct b as [|f0 [|f1 [|l0 [|l1 ?]]]]; try discriminate.
  intros [= <-]. apply getUint16_range.
Qed.

Lemma fields_cons (b : list byte) (fv L : Z) :
  flagsVerField b = Some fv -> lengthField b = Some L ->
  exists f0 f1 l0 l1 tl,
    b = f0 :: f1 :: l0 :: l1 :: tl
    /\ fv = getUint16 f0 f1 /\ L = getUint16 l0 l1.
Proof.
  destruct b as [|f0 [|f1 [|l0 [|l1 tl]]]]; try discriminate.
  intros [= <-] [= <-]. repeat eexists.
Qed.

Section ParserLaws.

Variable decodeV2 : list byte -> result v2ControlMessage.
Variable decodeV3 : list byte -> result v3ControlMessage.

(** The turn on a frame that starts the octets left and is as long as
    its length field says. *)
Lemma turn_frame (frame tail : list byte) (fv : Z) :
  commonHeaderLen <= len frame ->
  flagsVerField frame = Some fv -> lengthField frame = Some (len frame) ->
  turn decodeV2 decodeV3 (frame ++ tail)
  = (ver ← protocolVersion (mkCommon fv (len frame));
     msg ← decodeFrame decodeV2 decodeV3 ver frame;
     Ok (msg, commonHeaderLen + len frame)).
Proof.
  intros Hlen Hfv Hlf.
  pose proof (lengthField_range _ _ Hlf) as Hr. unfold is_uint16 in Hr.
  destruct (fields_cons _ _ _ Hfv Hlf) as (f0 & f1 & l0 & l1 & tl & E & Efv & El).
  assert (Htl : len frame = commonHeaderLen + len tl)
    by (rewrite E; unfold len, commonHeaderLen; simpl length; lia).
  assert (Eapp : frame ++ tail = f0 :: f1 :: l0 :: l1 :: (tl ++ tail))
    by (rewrite E; reflexivity).
  rewrite Eapp. cbn [turn Len]. rewrite <- El, <- Efv, <- Eapp.
  pose proof (len_nonneg tail). pose proof (len_nonneg tl).
  unfold uint16. unfold commonHeaderLen in *.
  rewrite Z.mod_small by lia. rewrite len_app.
  destruct (Z.ltb_spec (len tl + len tail) (len frame - 4)); [lia|].
  replace (Z.to_nat (len frame)) with (length frame) by (unfold len; lia).
  rewrite take_app_length.
  unfold protocolVersion. cbn [FlagsVer]. reflexivity.
Qed.

Lemma skipn_frame_gap (frame pad rest : list byte) :
  len pad = commonHeaderLen ->
  skipn (Z.to_nat (commonHeaderLen + len frame)) (frame ++ pad ++ rest) = rest.
Proof.
  unfold len, commonHeaderLen. intros Hp.
  replace (Z.to_nat (4 + Z.of_nat (length frame)))
    with (length (frame ++ pad)) by (rewrite length_app; lia).
  rewrite app_assoc. apply drop_app_length.
Qed.

Lemma skipn_frame_short (frame tail : list byte) :
  len tail < controlMessageMinLen + commonHeaderLen ->
  len (skipn (Z.to_nat (commonHeaderLen + len frame)) (frame ++ tail))
  < controlMessageMinLen.
Proof.
  unfold len, controlMessageMinLen, commonHeaderLen. intros Hp.
  rewrite length_skipn, length_app. lia.
Qed.

(** The first message, then four octets, then the rest: the parser
    returns the first message followed by what it finds in the rest. *)
Lemma parseMessageBufferWith_gap (frame pad rest : list byte) (fv : Z) :
  controlMessageMinLen <= len frame ->
  flagsVerField frame = Some fv -> lengthField frame = Some (len frame) ->
  len pad = commonHeaderLen ->
  parseMessageBufferWith decodeV2 decodeV3 (frame ++ pad ++ rest)
  = (ver ← protocolVersion (mkCommon fv (len frame));
     msg ← decodeFrame decodeV2 decodeV3 ver frame;
     tl ← parseMessageBufferWith decodeV2 decodeV3 rest;
     Ok (msg :: tl)).
Proof.
  intros Hlen Hfv Hlf Hpad.
  rewrite parseMessageBufferWith_step.
  pose proof (len_nonneg pad). pose proof (len_nonneg rest).
  destruct (Z.ltb_spec (len (frame ++ pad ++ rest)) controlMessageMinLen) as [Hlt|_];
    [rewrite !len_app in Hlt; lia|].
  rewrite (turn_frame frame (pad ++ rest) fv)
    by (try assumption; unfold controlMessageMinLen, commonHeaderLen in *; lia).
  destruct (protocolVersion _) as [ver| |]; cbn [mbind result_bind];
    try reflexivity.
  destruct (decodeFrame _ _ _ _) as [msg| |]; cbn [mbind result_bind];
    try reflexivity.
  rewrite skipn_frame_gap by assumption. reflexivity.
Qed.

(** The first message followed by fewer than sixteen octets. *)
Lemma parseMessageBufferWith_last (frame tail : list byte) (fv : Z) :
  controlMessageMinLen <= len frame ->
  flagsVerField frame = Some fv -> lengthField frame = Some (len frame) ->
  len tail < controlMessageMinLen + commonHeaderLen ->
  parseMessageBufferWith decodeV2 decodeV3 (frame ++ tail)
  = (ver ← protocolVersion (mkCommon fv (len frame));
     msg ← decodeFrame decodeV2 decodeV3 ver frame;
     Ok [msg]).
Proof.
  intros Hlen Hfv Hlf Htail.
  rewrite parseMessageBufferWith_step.
  pose proof (len_nonneg tail).
  destruct (Z.ltb_spec (len (frame ++ tail)) controlMessageMinLen) as [Hlt|_];
    [rewrite len_app in Hlt; lia|].
  rewrite (turn_frame frame tail fv)
    by (try assumption; unfold controlMessageMinLen, commonHeaderLen in *; lia).
  destruct (protocolVersion _) as [ver| |]; cbn [mbind result_bind];
    try reflexivity.
  destruct (decodeFrame _ _ _ _) as [msg| |]; cbn [mbind result_bind];
    try reflexivity.
  rewrite parseMessageBufferWith_short by (apply skipn_frame_short; assumption).
  reflexivity.
Qed.

(** Where the failures of the parser come from. *)
Lemma turn_Panic (s : list byte) (p : panic) :
  turn decodeV2 decodeV3 s = Panic p ->
  exists frame, decodeV2 frame = Panic p \/ decodeV3 frame = Panic p.
Proof.
  unfold turn.
  destruct s as [|f0 [|f1 [|l0 [|l1 tl]]]]; try discriminate.
  destruct (_ <? _); [discriminate|].
  unfold protocolVersion.
  destruct (_ =? 2); [|destruct (_ =? 3)]; cbn [mbind result_bind decodeFrame];
    try discriminate.
  - destruct (decodeV2 _) as [m| |] eqn:E; cbn [mbind result_bind];
      try discriminate. intros [= <-]. eauto.
  - destruct (decodeV3 _) as [m| |] eqn:E; cbn [mbind result_bind];
      try discriminate. intros [= <-]. eauto.
Qed.

Lemma turn_Err (s : list byte) (e : error) :
  controlMessageMinLen <= len s ->
  turn decodeV2 decodeV3 s = Err e ->
  e = ErrIllegalProtocolVersion
  \/ (exists L n, e = ErrMalformedHeader L n /\ n < uint16 (L - commonHeaderLen))
  \/ exists frame, decodeV2 frame = Err e \/ decodeV3 frame = Err e.
Proof.
  unfold turn. intros Hlen.
  destruct s as [|f0 [|f1 [|l0 [|l1 tl]]]];
    try (unfold len, controlMessageMinLen in Hlen; simpl in Hlen; lia).
  cbn [Len].
  destruct (Z.ltb_spec (len tl) (uint16 (getUint16 l0 l1 - commonHeaderLen))).
  - intros [= <-]. right. left. eauto.
  - unfold protocolVersion.
    destruct (_ =? 2); [|destruct (_ =? 3)]; cbn [mbind result_bind decodeFrame].
    + destruct (decodeV2 _) as [m| |] eqn:E; cbn [mbind result_bind];
        try discriminate. intros [= <-]. right. right. eauto.
    + destruct (decodeV3 _) as [m| |] eqn:E; cbn [mbind result_bind];
        try discriminate. intros [= <-]. right. right. eauto.
    + intros [= <-]. left. reflexivity.
Qed.

Lemma parseSuffix_Panic (fuel : nat) (s : list byte) (p : panic) :
  parseSuffix decodeV2 decodeV3 fuel s = Some (Panic p) ->
  exists frame, decodeV2 frame = Panic p \/ decodeV3 frame = Panic p.
Proof.
  revert s. induction fuel as [|fuel IH]; intros s; cbn [parseSuffix];
    destruct (len s <? controlMessageMinLen); try discriminate.
  destruct (turn decodeV2 decodeV3 s) as [[msg n]| |] eqn:Et; try discriminate.
  - destruct (parseSuffix decodeV2 decodeV3 fuel _) as [[tl| |]|] eqn:Er;
      cbn [mbind result_bind]; try discriminate.
    intros [= <-]. eapply IH. exact Er.
  - intros [= <-]. eapply turn_Panic. exact Et.
Qed.

Lemma parseSuffix_Err (fuel : nat) (s : list byte) (e : error) :
  parseSuffix decodeV2 decodeV3 fuel s = Some (Err e) ->
  e = ErrIllegalProtocolVersion
  \/ (exists L n, e = ErrMalformedHeader L n /\ n < uint16 (L - commonHeaderLen))
  \/ exists frame, decodeV2 frame = Err e \/ decodeV3 frame = Err e.
Proof.
  revert s. induction fuel as [|fuel IH]; intros s; cbn [parseSuffix];
    destruct (Z.ltb_spec (len s) controlMessageMinLen); try discriminate.
  destruct (turn decodeV2 decodeV3 s) as [[msg n]| |] eqn:Et; try discriminate.
  - destruct (parseSuffix decodeV2 decodeV3 fuel _) as [[tl| |]|] eqn:Er;
      cbn [mbind result_bind]; try discriminate.
    intros [= <-]. eapply IH. exact Er.
  - intros [= <-]. eapply turn_Err; eassumption.
Qed.

(** A property of every message of a successful parse, from a property
    of every successful turn. *)
Lemma parseSuffix_Forall (P : Z -> controlMessage -> Prop) :
  (forall k k' msg, P k msg -> k <= k' -> P k' msg) ->
  (forall s msg n, turn decodeV2 decodeV3 s = Ok (msg, n) -> P (len s) msg) ->
  forall fuel s out,
    parseSuffix decodeV2 decodeV3 fuel s = Some (Ok out) ->
    Forall (P (len s)) out.
Proof.
  intros Hmono Hturn fuel. induction fuel as [|fuel IH]; intros s out;
    cbn [parseSuffix];
    destruct (Z.ltb_spec (len s) controlMessageMinLen);
    try discriminate; try (intros [= <-]; constructor).
  destruct (turn decodeV2 decodeV3 s) as [[msg n]| |] eqn:Et; try discriminate.
  destruct (parseSuffix decodeV2 decodeV3 fuel _) as [[tl| |]|] eqn:Er;
    cbn [mbind result_bind]; try discriminate.
  intros [= <-]. constructor; [apply Hturn with n; assumption|].
  apply IH in Er. eapply Forall_impl; [exact Er|].
  intros msg' Hm. eapply Hmono; [exact Hm|].
  unfold len. rewrite length_skipn. lia.
Qed.

(** The octets a successful parse accounts for. *)
Lemma parseSuffix_consumed :
  (forall s msg n, turn decodeV2 decodeV3 s = Ok (msg, n) ->
                   n = commonHeaderLen + msg_getLen msg) ->
  forall fuel s out,
    parseSuffix decodeV2 decodeV3 fuel s = Some (Ok out) ->
    consumed out <= len s + commonHeaderLen.
Proof.
  intros Hturn fuel. induction fuel as [|fuel IH]; intros s out;
    cbn [parseSuffix];
    destruct (Z.ltb_spec (len s) controlMessageMinLen); try discriminate;
    try (intros [= <-]; pose proof (len_nonneg s);
         unfold consumed, commonHeaderLen; simpl; lia).
  destruct (turn decodeV2 decodeV3 s) as [[msg n]| |] eqn:Et; try discriminate.
  destruct (parseSuffix decodeV2 decodeV3 fuel _) as [[tl| |]|] eqn:Er;
    cbn [mbind result_bind]; try discriminate.
  intros [= <-]. cbn [consumed foldr]. change (foldr _ 0 tl) with (consumed tl).
  pose proof (Hturn _ _ _ Et) as Hn. pose proof (turn_advance _ _ _ _ _ Et) as Ha.
  pose proof (IH _ _ Er) as Hc. rewrite <- Hn.
  unfold commonHeaderLen in *.
  destruct (Z.le_gt_cases n (len s)) as [Hle|Hgt].
  - assert (len (skipn (Z.to_nat n) s) = len s - n)
      by (unfold len in *; rewrite length_skipn; lia).
    lia.
  - assert (Hnil : skipn (Z.to_nat n) s = [])
      by (apply drop_ge; unfold len in *; lia).
    rewrite Hnil in Er.
    assert (tl = []).
    { destruct fuel; cbn [parseSuffix] in Er;
        change (len [] <? controlMessageMinLen) with true in Er; congruence. }
    subst tl. unfold consumed. simpl. lia.
Qed.

End ParserLaws.

Lemma fields_writeV2Header (h : l2tpV2Header) (rest : list byte) :
  wf_v2Header h ->
  flagsVerField (writeV2Header h ++ rest) = Some (FlagsVer (Common h))
  /\ lengthField (writeV2Header h ++ rest) = Some (Len (Common h)).
Proof.
  intros ((Hf & Hl) & _). unfold writeV2Header, writeCommonHeader.
  cbn [putUint16 app flagsVerField lengthField].
  rewrite !getUint16_putUint16 by assumption. split; reflexivity.
Qed.

Lemma fields_writeV3Header (h : l2tpV3Header) (rest : list byte) :
  wf_v3Header h ->
  flagsVerField (writeV3Header h ++ rest) = Some (FlagsVer (Common3 h))
  /\ lengthField (writeV3Header h ++ rest) = Some (Len (Common3 h)).
Proof.
  intros ((Hf & Hl) & _). unfold writeV3Header, writeCommonHeader.
  cbn [putUint16 app flagsVerField lengthField].
  rewrite !getUint16_putUint16 by assumption. split; reflexivity.
Qed.

Lemma parsedMessage_getLen (n : Z) (msg : controlMessage) :
  parsedMessage n msg -> controlMessageMinLen <= msg_getLen msg <= n.
Proof.
  destruct msg as [m|m]; cbn [parsedMessage msg_getLen];
    intros (_ & _ & H & _); exact H.
Qed.

Lemma parsedMessage_mono (k k' : Z) (msg : controlMessage) :
  parsedMessage k msg -> k <= k' -> parsedMessage k' msg.
Proof.
  destruct msg as [m|m]; cbn [parsedMessage];
    intros (H1 & H2 & H3 & H4) Hk;
    (split; [exact H1 | split; [exact H2 | split; [lia | exact H4]]]).
Qed.

Lemma consumed_ge (n : Z) (msgs : list controlMessage) :
  Forall (parsedMessage n) msgs -> 16 * len msgs <= consumed msgs.
Proof.
  induction 1 as [|msg msgs Hm _ IH]; [reflexivity|].
  cbn [consumed foldr]. change (foldr _ 0 msgs) with (consumed msgs).
  apply parsedMessage_getLen in Hm.
  unfold len, controlMessageMinLen, commonHeaderLen in *. simpl length. lia.
Qed.

(** ** Statements about the parser *)

(** X1.  A buffer of fewer than twelve octets, the empty buffer
    included, holds no message: the parser of either revision returns
    the empty sequence and no error, for every AVP subsystem. *)
Theorem parse_short_buffer (codec : AvpCodec) (b : list byte) :
  len b < controlMessageMinLen ->
  parseMessageBuffer b = Ok [] /\ ParseMessageBuffer b = Ok [].
Proof.
  intros H. unfold parseMessageBuffer, ParseMessageBuffer.
  split; apply parseMessageBufferWith_short; assumption.
Qed.

Lemma parse_short_buffer_witness :
  len gap < controlMessageMinLen
  /\ parseMessageBuffer gap = Ok [] /\ ParseMessageBuffer gap = Ok [].
Proof.
  assert (H : len gap < controlMessageMinLen) by reflexivity.
  exact (conj H (parse_short_buffer AvpModel.codec gap H)).
Defined.

(** X2.  A first header of version 2 or 3 whose length field is below
    the twelve octets of a header, in a buffer of at least twelve and
    fewer than 65536 octets: the parser of the later revision returns
    no message.  With a length field of four to eleven the frame is too
    short for the decoder to read a header from, and the error is the
    unexpected end of input; with a length field below four the
    subtraction of the common header length wraps around and the error
    is the malformed-header error. *)
Theorem parse_length_field_below_header
    (codec : AvpCodec) (b : list byte) (fv L : Z) :
  controlMessageMinLen <= len b -> len b < 65536 ->
  flagsVerField b = Some fv -> Z.land fv 15 = 2 \/ Z.land fv 15 = 3 ->
  lengthField b = Some L -> L < v2HeaderLen ->
  parseMessageBuffer b
  = if L <? commonHeaderLen
    then Err (ErrMalformedHeader L (len b - commonHeaderLen))
    else Err ErrUnexpectedEOF.
Proof.
  intros Hmin Hmax Hfv Hver HL Hlt.
  pose proof (lengthField_range _ _ HL) as Hr. unfold is_uint16 in Hr.
  unfold parseMessageBuffer, commonHeaderLen, v2HeaderLen,
    controlMessageMinLen in *.
  destruct (Z.ltb_spec L 4) as [Hl4|Hge4].
  - apply parseMessageBufferWith_malformed; try assumption.
    unfold uint16, commonHeaderLen.
    replace ((L - 4) mod 65536) with (L - 4 + 65536); [lia|].
    apply Z.mod_unique with (-1); lia.
  - rewrite parseMessageBufferWith_step.
    destruct (Z.ltb_spec (len b) controlMessageMinLen);
      [unfold controlMessageMinLen in *; lia|].
    destruct (fields_cons _ _ _ Hfv HL) as (f0 & f1 & l0 & l1 & tl & -> & -> & ->).
    assert (Hb : len (f0 :: f1 :: l0 :: l1 :: tl) = 4 + len tl)
      by (unfold len; simpl length; lia).
    cbn [turn Len]. unfold uint16, commonHeaderLen.
    rewrite Z.mod_small by lia.
    destruct (Z.ltb_spec (len tl) (getUint16 l0 l1 - 4)); [lia|].
    set (frame := firstn _ _).
    assert (Hframe : len frame = getUint16 l0 l1)
      by (apply len_firstn; lia).
    assert (Hread : readFull (NewReader frame) 12 = Err ErrUnexpectedEOF).
    { unfold readFull. rewrite Reader_Len_NewReader, Hframe.
      destruct (Z.eqb_spec (getUint16 l0 l1) 0); [lia|].
      destruct (Z.ltb_spec (getUint16 l0 l1) 12); [reflexivity | lia]. }
    unfold protocolVersion. cbn [FlagsVer].
    destruct Hver as [-> | ->]; cbn [Z.eqb Pos.eqb mbind result_bind decodeFrame].
    + unfold bytesToV2CtlMsg, readV2Header, v2HeaderLen. rewrite Hread.
      reflexivity.
    + unfold bytesToV3CtlMsg, readV3Header, v3HeaderLen. rewrite Hread.
      reflexivity.
Qed.

Lemma parse_length_field_below_header_witness :
  controlMessageMinLen <= len length8Frame /\ len length8Frame < 65536
  /\ flagsVerField length8Frame = Some 51202
  /\ (Z.land 51202 15 = 2 \/ Z.land 51202 15 = 3)
  /\ lengthField length8Frame = Some 8 /\ 8 < v2HeaderLen
  /\ parseMessageBuffer length8Frame = Err ErrUnexpectedEOF.
Proof.
  assert (H1 : controlMessageMinLen <= len length8Frame) by (vm_compute; discriminate).
  assert (H2 : len length8Frame < 65536) by reflexivity.
  assert (H3 : flagsVerField length8Frame = Some 51202) by reflexivity.
  assert (H4 : Z.land 51202 15 = 2 \/ Z.land 51202 15 = 3) by (left; reflexivity).
  assert (H5 : lengthField length8Frame = Some 8) by reflexivity.
  assert (H6 : 8 < v2HeaderLen) by reflexivity.
  exact (conj H1 (conj H2 (conj H3 (conj H4 (conj H5 (conj H6
          (parse_length_field_below_header
             AvpModel.codec length8Frame 51202 8 H1 H2 H3 H4 H5 H6))))))).
Defined.

(** X3.  The parser has no failure of its own beyond its two checks.
    Whatever the two decoders are, a panic of the parser is a panic of
    a decoder on some frame, and an error of the parser is the
    illegal-protocol-version error, a malformed-header error whose
    length, less four modulo 65536, exceeds the octets left, or an error
    of a decoder on some frame: the slice it hands to the decoder is
    always within the buffer, and neither of its two seeks fails. *)
Theorem parser_failures
    (decodeV2 : list byte -> result v2ControlMessage)
    (decodeV3 : list byte -> result v3ControlMessage) (b : list byte) :
  (forall p, parseMessageBufferWith decodeV2 decodeV3 b = Panic p ->
             exists frame, decodeV2 frame = Panic p \/ decodeV3 frame = Panic p)
  /\ (forall e, parseMessageBufferWith decodeV2 decodeV3 b = Err e ->
        e = ErrIllegalProtocolVersion
        \/ (exists L n, e = ErrMalformedHeader L n
                        /\ n < uint16 (L - commonHeaderLen))
        \/ exists frame, decodeV2 frame = Err e \/ decodeV3 frame = Err e).
Proof.
  pose proof (parseMessageBufferWith_suffix decodeV2 decodeV3 b) as H.
  split.
  - intros p Hp. rewrite Hp in H. eapply parseSuffix_Panic. exact H.
  - intros e He. rewrite He in H. eapply parseSuffix_Err. exact H.
Qed.

Lemma parser_failures_witness :
  parseMessageBuffer version0OversizedFrame = Err (ErrMalformedHeader 65535 8)
  /\ (ErrMalformedHeader 65535 8 = ErrIllegalProtocolVersion
      \/ (exists L n, ErrMalformedHeader 65535 8 = ErrMalformedHeader L n
                      /\ n < uint16 (L - commonHeaderLen))
      \/ exists frame, bytesToV2CtlMsg frame = Err (ErrMalformedHeader 65535 8)
                       \/ bytesToV3CtlMsg frame = Err (ErrMalformedHeader 65535 8)).
Proof.
  assert (H : parseMessageBuffer version0OversizedFrame
              = Err (ErrMalformedHeader 65535 8)) by reflexivity.
  exact (conj H (proj2 (parser_failures bytesToV2CtlMsg bytesToV3CtlMsg
                          version0OversizedFrame) _ H)).
Defined.

(** X4.  Every message the parser of the later revision returns from a
    buffer, for every AVP subsystem: its header fields are those of the
    wire, its version is the one the parser dispatched on (2 for a v2
    message, 3 for a v3 message), its header length is at least twelve
    and at most the length of the buffer, and its first AVP, if any, is
    a Message Type AVP; a v2 message has no AVPs exactly when its
    length is twelve, and a v3 message always has AVPs. *)
Theorem parsed_messages (codec : AvpCodec) (b : list byte)
    (msgs : list controlMessage) :
  parseMessageBuffer b = Ok msgs -> Forall (parsedMessage (len b)) msgs.
Proof.
  intros H. unfold parseMessageBuffer in H.
  pose proof (parseMessageBufferWith_suffix bytesToV2CtlMsg bytesToV3CtlMsg b) as Hs.
  rewrite H in Hs.
  eapply (parseSuffix_Forall _ _ parsedMessage); [| |exact Hs].
  - apply parsedMessage_mono.
  - intros s msg n Ht. apply (turn_later_Ok _ _ _ Ht).
Qed.

Lemma parsed_messages_witness :
  parseMessageBuffer (helloFrame ++ zlbFrame) = Ok [V2Message helloMessage]
  /\ Forall (parsedMessage (len (helloFrame ++ zlbFrame))) [V2Message helloMessage].
Proof.
  assert (H : parseMessageBuffer (helloFrame ++ zlbFrame)
              = Ok [V2Message helloMessage]) by reflexivity.
  exact (conj H (parsed_messages AvpModel.codec _ _ H)).
Defined.

(** X5.  A successful parse of the later revision accounts for at most
    the octets of the buffer plus four: the length fields of the
    messages returned, plus four octets for each message, add up to at
    most the length of the buffer plus four, so a buffer of [n] octets
    holds at most [(n + 4) / 16] messages. *)
Theorem parsed_octets (codec : AvpCodec) (b : list byte)
    (msgs : list controlMessage) :
  parseMessageBuffer b = Ok msgs ->
  consumed msgs <= len b + commonHeaderLen
  /\ 16 * len msgs <= len b + commonHeaderLen.
Proof.
  intros H. unfold parseMessageBuffer in H.
  pose proof (parseMessageBufferWith_suffix bytesToV2CtlMsg bytesToV3CtlMsg b) as Hs.
  rewrite H in Hs.
  assert (Hc : consumed msgs <= len b + commonHeaderLen).
  { eapply parseSuffix_consumed; [|exact Hs].
    intros s msg n Ht. apply (turn_later_Ok _ _ _ Ht). }
  split; [exact Hc|].
  assert (Hf : Forall (parsedMessage (len b)) msgs).
  { eapply (parseSuffix_Forall _ _ parsedMessage); [| |exact Hs].
    - apply parsedMessage_mono.
    - intros s msg n Ht. apply (turn_later_Ok _ _ _ Ht). }
  pose proof (consumed_ge _ _ Hf). lia.
Qed.

Lemma parsed_octets_witness :
  parseMessageBuffer (helloFrame ++ gap ++ zlbFrame)
  = Ok [V2Message helloMessage; V2Message zlbMessage]
  /\ consumed [V2Message helloMessage; V2Message zlbMessage]
     <= len (helloFrame ++ gap ++ zlbFrame) + commonHeaderLen
  /\ 16 * len [V2Message helloMessage; V2Message zlbMessage]
     <= len (helloFrame ++ gap ++ zlbFrame) + commonHeaderLen.
Proof.
  assert (H : parseMessageBuffer (helloFrame ++ gap ++ zlbFrame)
              = Ok [V2Message helloMessage; V2Message zlbMessage])
    by reflexivity.
  exact (conj H (parsed_octets AvpModel.codec _ _ H)).
Defined.

Section EncodedFrames.

Context `{codec : AvpCodec}.

Lemma len_v2_frame (h : l2tpV2Header) (l : list avp) :
  len (writeV2Header h ++ flat_map writeAvp l) = v2HeaderLen + encodedLens l.
Proof. rewrite len_app, len_flat_map_writeAvp. reflexivity. Qed.

Lemma len_v3_frame (h : l2tpV3Header) (l : list avp) :
  len (writeV3Header h ++ flat_map writeAvp l) = v3HeaderLen + encodedLens l.
Proof. rewrite len_app, len_flat_map_writeAvp. reflexivity. Qed.

Lemma encodedLens_nonneg (l : list avp) : 0 <= encodedLens l.
Proof. rewrite <- len_flat_map_writeAvp. apply len_nonneg. Qed.

(** The v3 decoder on a written header followed by written AVPs. *)
Lemma bytesToV3CtlMsg_write (h : l2tpV3Header) (l : list avp) :
  wf_v3Header h ->
  Len (Common3 h) = v3HeaderLen + encodedLens l ->
  l <> [] -> firstIsMessageType l ->
  parseAVPBuffer (flat_map writeAvp l) = Ok l ->
  bytesToV3CtlMsg (writeV3Header h ++ flat_map writeAvp l) = Ok (mkV3 h l).
Proof.
  intros Hwf Hlen Hne Hfirst Hparse.
  unfold bytesToV3CtlMsg. rewrite readV3Header_write by assumption.
  cbn [mbind result_bind]. rewrite Hlen, <- len_flat_map_writeAvp.
  change v3HeaderLen with (len (writeV3Header h)).
  rewrite slice_suffix. cbn [mbind result_bind]. rewrite Hparse.
  cbn [mbind result_bind].
  destruct l as [|a l]; [contradiction|].
  cbn [firstIsMessageType] in Hfirst. rewrite Hfirst. reflexivity.
Qed.

End EncodedFrames.

(** The parser on the encoding of a v2 message. *)
Lemma parseMessageBuffer_toBytes
    (codec : AvpCodec) (m : v2ControlMessage) (tail : list byte) :
  wf_v2Header (header m) ->
  Z.land (FlagsVer (Common (header m))) 15 = 2 ->
  Len (Common (header m)) = v2HeaderLen + encodedLens (avps m) ->
  firstIsMessageType (avps m) ->
  parseAVPBuffer (flat_map writeAvp (avps m)) = Ok (avps m) ->
  len tail < controlMessageMinLen + commonHeaderLen ->
  (b ← toBytes m; parseMessageBuffer (b ++ tail)) = Ok [V2Message m].
Proof.
  intros Hwf Hver Hlen Hfirst Hparse Htail. destruct m as [h l].
  unfold toBytes, parseMessageBuffer. cbn [mbind result_bind header avps] in *.
  destruct (fields_writeV2Header h (flat_map writeAvp l) Hwf) as [Hfv Hlf].
  pose proof (encodedLens_nonneg l).
  rewrite (parseMessageBufferWith_last _ _ _ _ (FlagsVer (Common h)));
    try assumption.
  - unfold protocolVersion. cbn [FlagsVer]. rewrite Hver.
    cbn [Z.eqb Pos.eqb mbind result_bind decodeFrame].
    rewrite bytesToV2CtlMsg_write by assumption. reflexivity.
  - rewrite len_v2_frame. unfold controlMessageMinLen, v2HeaderLen. lia.
  - rewrite len_v2_frame, <- Hlen. assumption.
Qed.

(** X6.  An encoded v2 message, alone in the buffer or followed by fewer
    than sixteen further octets, parses into exactly that message: for
    every AVP subsystem and every v2 message with sixteen-bit header
    fields, version 2 in its flags, a header length of twelve plus the
    encoded lengths of its AVPs, a Message Type AVP in front of its
    AVPs, if any, and AVPs that the AVP parser reads back. *)
Theorem parse_encoded_v2_message
    (codec : AvpCodec) (m : v2ControlMessage) (tail : list byte) :
  wf_v2Header (header m) ->
  Z.land (FlagsVer (Common (header m))) 15 = 2 ->
  Len (Common (header m)) = v2HeaderLen + encodedLens (avps m) ->
  firstIsMessageType (avps m) ->
  parseAVPBuffer (flat_map writeAvp (avps m)) = Ok (avps m) ->
  len tail < controlMessageMinLen + commonHeaderLen ->
  (b ← toBytes m; parseMessageBuffer (b ++ tail)) = Ok [V2Message m].
Proof. apply parseMessageBuffer_toBytes. Qed.

Lemma parse_encoded_v2_message_witness :
  wf_v2Header (header sccrqComplete)
  /\ Z.land (FlagsVer (Common (header sccrqComplete))) 15 = 2
  /\ Len (Common (header sccrqComplete))
     = v2HeaderLen + encodedLens (avps sccrqComplete)
  /\ firstIsMessageType (avps sccrqComplete)
  /\ parseAVPBuffer (flat_map writeAvp (avps sccrqComplete))
     = Ok (avps sccrqComplete)
  /\ len gap < controlMessageMinLen + commonHeaderLen
  /\ (b ← toBytes sccrqComplete; parseMessageBuffer (b ++ gap))
     = Ok [V2Message sccrqComplete].
Proof.
  assert (H1 : wf_v2Header (header sccrqComplete))
    by (unfold wf_v2Header, wf_common, is_uint16; simpl; lia).
  assert (H2 : Z.land (FlagsVer (Common (header sccrqComplete))) 15 = 2)
    by reflexivity.
  assert (H3 : Len (Common (header sccrqComplete))
               = v2HeaderLen + encodedLens (avps sccrqComplete))
    by reflexivity.
  assert (H4 : firstIsMessageType (avps sccrqComplete)) by reflexivity.
  assert (H5 : parseAVPBuffer (flat_map writeAvp (avps sccrqComplete))
               = Ok (avps sccrqComplete)) by reflexivity.
  assert (H6 : len gap < controlMessageMinLen + commonHeaderLen) by reflexivity.
  exact (conj H1 (conj H2 (conj H3 (conj H4 (conj H5 (conj H6
          (parse_encoded_v2_message AvpModel.codec sccrqComplete gap
             H1 H2 H3 H4 H5 H6))))))).
Defined.

(** X7.  The v3 codec of the later revision, for every AVP subsystem:
    a v3 message with well-formed header fields, version 3 in its
    flags, a header length of twelve plus the encoded lengths of its
    AVPs, at least one AVP, a Message Type AVP in front, and AVPs that
    the AVP parser reads back is decoded from its encoding, by the v3
    decoder and, alone in the buffer or followed by fewer than sixteen
    further octets, by the parser. *)
Theorem v3_encode_decode_roundtrip
    (codec : AvpCodec) (m : v3ControlMessage) (tail : list byte) :
  wf_v3Header (header3 m) ->
  Z.land (FlagsVer (Common3 (header3 m))) 15 = 3 ->
  Len (Common3 (header3 m)) = v3HeaderLen + encodedLens (avps3 m) ->
  avps3 m <> [] -> firstIsMessageType (avps3 m) ->
  parseAVPBuffer (flat_map writeAvp (avps3 m)) = Ok (avps3 m) ->
  len tail < controlMessageMinLen + commonHeaderLen ->
  (b ← toBytes3 m; bytesToV3CtlMsg b) = Ok m
  /\ (b ← toBytes3 m; parseMessageBuffer (b ++ tail)) = Ok [V3Message m].
Proof.
  intros Hwf Hver Hlen Hne Hfirst Hparse Htail. destruct m as [h l].
  unfold toBytes3, parseMessageBuffer. cbn [mbind result_bind header3 avps3] in *.
  pose proof (bytesToV3CtlMsg_write h l Hwf Hlen Hne Hfirst Hparse) as Hd.
  split; [exact Hd|].
  destruct (fields_writeV3Header h (flat_map writeAvp l) Hwf) as [Hfv Hlf].
  pose proof (encodedLens_nonneg l).
  rewrite (parseMessageBufferWith_last _ _ _ _ (FlagsVer (Common3 h)));
    try assumption.
  - unfold protocolVersion. cbn [FlagsVer]. rewrite Hver.
    cbn [Z.eqb Pos.eqb mbind result_bind decodeFrame].
    rewrite Hd. reflexivity.
  - rewrite len_v3_frame. unfold controlMessageMinLen, v3HeaderLen. lia.
  - rewrite len_v3_frame, <- Hlen. assumption.
Qed.

Lemma v3_encode_decode_roundtrip_witness :
  wf_v3Header (header3 v3HelloMessage)
  /\ Z.land (FlagsVer (Common3 (header3 v3HelloMessage))) 15 = 3
  /\ Len (Common3 (header3 v3HelloMessage))
     = v3HeaderLen + encodedLens (avps3 v3HelloMessage)
  /\ avps3 v3HelloMessage <> []
  /\ firstIsMessageType (avps3 v3HelloMessage)
  /\ parseAVPBuffer (flat_map writeAvp (avps3 v3HelloMessage))
     = Ok (avps3 v3HelloMessage)
  /\ len gap < controlMessageMinLen + commonHeaderLen
  /\ (b ← toBytes3 v3HelloMessage; bytesToV3CtlMsg b) = Ok v3HelloMessage
  /\ (b ← toBytes3 v3HelloMessage; parseMessageBuffer (b ++ gap))
     = Ok [V3Message v3HelloMessage].
Proof.
  assert (H1 : wf_v3Header (header3 v3HelloMessage))
    by (unfold wf_v3Header, wf_common, is_uint16, is_uint32; simpl; lia).
  assert (H2 : Z.land (FlagsVer (Common3 (header3 v3HelloMessage))) 15 = 3)
    by reflexivity.
  assert (H3 : Len (Common3 (header3 v3HelloMessage))
               = v3HeaderLen + encodedLens (avps3 v3HelloMessage))
    by reflexivity.
  assert (H4 : avps3 v3HelloMessage <> []) by discriminate.
  assert (H5 : firstIsMessageType (avps3 v3HelloMessage)) by reflexivity.
  assert (H6 : parseAVPBuffer (flat_map writeAvp (avps3 v3HelloMessage))
               = Ok (avps3 v3HelloMessage)) by reflexivity.
  assert (H7 : len gap < controlMessageMinLen + commonHeaderLen) by reflexivity.
  exact (conj H1 (conj H2 (conj H3 (conj H4 (conj H5 (conj H6 (conj H7
          (v3_encode_decode_roundtrip AvpModel.codec v3HelloMessage gap
             H1 H2 H3 H4 H5 H6 H7)))))))).
Defined.

(** X8.  How the parser of either revision goes from one message to
    the next, for every AVP subsystem.  When the buffer starts with a
    frame of at least twelve octets whose length field is its own
    length, followed by four octets of any content and then by the
    rest, the result is the decoded frame followed by the result of
    the parser on the rest; an illegal version of the frame, a failure
    of its decoder, or a failure on the rest is the failure of the
    whole.  The four octets after a frame are passed over. *)
Theorem parse_frame_gap_rest
    (codec : AvpCodec) (frame pad rest : list byte) (fv : Z) :
  controlMessageMinLen <= len frame ->
  flagsVerField frame = Some fv -> lengthField frame = Some (len frame) ->
  len pad = commonHeaderLen ->
  parseMessageBuffer (frame ++ pad ++ rest)
  = (ver ← protocolVersion (mkCommon fv (len frame));
     msg ← decodeFrame bytesToV2CtlMsg bytesToV3CtlMsg ver frame;
     tl ← parseMessageBuffer rest;
     Ok (msg :: tl))
  /\ ParseMessageBuffer (frame ++ pad ++ rest)
     = (ver ← protocolVersion (mkCommon fv (len frame));
        msg ← decodeFrame newL2tpV2ControlMessage newL2tpV3ControlMessage
                ver frame;
        tl ← ParseMessageBuffer rest;
        Ok (msg :: tl)).
Proof.
  intros Hlen Hfv Hlf Hpad. unfold parseMessageBuffer, ParseMessageBuffer.
  split; apply parseMessageBufferWith_gap; assumption.
Qed.

Lemma parse_frame_gap_rest_witness :
  controlMessageMinLen <= len helloFrame
  /\ flagsVerField helloFrame = Some 51202
  /\ lengthField helloFrame = Some (len helloFrame)
  /\ len gap = commonHeaderLen
  /\ parseMessageBuffer (helloFrame ++ gap ++ zlbFrame)
     = Ok [V2Message helloMessage; V2Message zlbMessage]
  /\ ParseMessageBuffer (helloFrame ++ gap ++ zlbFrame)
     = Ok [V2Message helloMessage; V2Message zlbMessage].
Proof.
  assert (H1 : controlMessageMinLen <= len helloFrame) by (vm_compute; discriminate).
  assert (H2 : flagsVerField helloFrame = Some 51202) by reflexivity.
  assert (H3 : lengthField helloFrame = Some (len helloFrame)) by reflexivity.
  assert (H4 : len gap = commonHeaderLen) by reflexivity.
  exact (conj H1 (conj H2 (conj H3 (conj H4
          (parse_frame_gap_rest AvpModel.codec helloFrame gap zlbFrame 51202
             H1 H2 H3 H4))))).
Defined.

(** ** Building and growing messages *)

Section BuilderFacts.

Context `{codec : AvpCodec}.

Lemma totalLens_app (l k : list avp) :
  totalLens (l ++ k) = totalLens l + totalLens k.
Proof.
  induction l as [|a l IH]; [reflexivity|].
  change (totalLens ((a :: l) ++ k)) with (totalLen a + totalLens (l ++ k)).
  change (totalLens (a :: l)) with (totalLen a + totalLens l).
  rewrite IH. lia.
Qed.

Lemma totalLens_nonneg (l : list avp) :
  Forall (fun a => 0 <= totalLen a) l -> 0 <= totalLens l.
Proof.
  induction 1 as [|a l Ha _ IH]; [reflexivity|].
  change (totalLens (a :: l)) with (totalLen a + totalLens l). lia.
Qed.

(** What a run of [appendAvp] leaves of the header and of the AVPs. *)
Lemma foldl_appendAvp (l : list avp) (m : v2ControlMessage) :
  let m' := foldl appendAvp m l in
  FlagsVer (Common (header m')) = FlagsVer (Common (header m))
  /\ Tid (header m') = Tid (header m) /\ Sid (header m') = Sid (header m)
  /\ Ns (header m') = Ns (header m) /\ Nr (header m') = Nr (header m)
  /\ avps m' = avps m ++ l
  /\ Len (Common (header m')) mod 65536
     = (Len (Common (header m)) + totalLens l) mod 65536.
Proof.
  revert m. induction l as [|a l IH]; intros m; cbn [foldl].
  - cbn [totalLens foldr]. rewrite app_nil_r, Z.add_0_r. tauto.
  - destruct (IH (appendAvp m a)) as (H1 & H2 & H3 & H4 & H5 & H6 & H7).
    cbv zeta. rewrite H1, H2, H3, H4, H5, H6, H7, appendAvp_Len.
    cbn [appendAvp header avps Common FlagsVer Tid Sid Ns Nr].
    rewrite <- app_assoc. repeat (split; [reflexivity|]).
    change (totalLens (a :: l)) with (totalLen a + totalLens l).
    rewrite Zplus_mod_idemp_l. f_equal. lia.
Qed.

Lemma foldl_appendAvp_Len (l : list avp) (m : v2ControlMessage) :
  is_uint16 (Len (Common (header m))) ->
  Len (Common (header (foldl appendAvp m l)))
  = (Len (Common (header m)) + totalLens l) mod 65536.
Proof.
  intros Hm. destruct (foldl_appendAvp l m) as (_ & _ & _ & _ & _ & _ & H).
  rewrite <- H. symmetry. apply Z.mod_small.
  revert m Hm H. induction l as [|a l IH] using rev_ind; intros m Hm _.
  - exact Hm.
  - rewrite foldl_app. cbn [foldl]. rewrite appendAvp_Len.
    apply Z.mod_pos_bound. lia.
Qed.

(** The loop of [buildV2TunnelMsg] when it succeeds. *)
Lemma appendAvpIns_Ok (ins : list avpIn) (msg m : v2ControlMessage) :
  appendAvpIns msg ins = Ok m ->
  exists l, Forall2 avpInBuilt ins l /\ m = foldl appendAvp msg l.
Proof.
  revert msg. induction ins as [|i ins IH]; intros msg H; cbn [appendAvpIns] in H.
  - injection H as <-. exists []. split; [constructor | reflexivity].
  - destruct (newAvp vendorIDIetf (typ i) (avpIn_data i)) as [a|e|p] eqn:Ha;
      try discriminate.
    destruct (IH _ H) as (l & Hl & ->).
    exists (a :: l). split; [constructor; assumption | reflexivity].
Qed.

(** The loop of [buildV2TunnelMsg] up to the first input that [newAvp]
    refuses. *)
Lemma appendAvpIns_Err (pre : list avpIn) (built : list avp) (i : avpIn)
    (post : list avpIn) (e : error) (msg : v2ControlMessage) :
  Forall2 avpInBuilt pre built ->
  newAvp vendorIDIetf (typ i) (avpIn_data i) = Err e ->
  appendAvpIns msg (pre ++ i :: post) = Err (ErrFailedToCreateAvp (typ i) e).
Proof.
  intros Hpre He. revert msg.
  induction Hpre as [|j a pre built Hj _ IH]; intros msg; cbn [app appendAvpIns].
  - rewrite He. reflexivity.
  - unfold avpInBuilt in Hj. rewrite Hj. apply IH.
Qed.

End BuilderFacts.

Lemma readCommonHeader_putUint16 (f l : Z) (rest : list byte) :
  is_uint16 f -> is_uint16 l ->
  readCommonHeader (NewReader (putUint16 f ++ putUint16 l ++ rest))
  = Ok (mkCommon f l, mkReader (putUint16 f ++ putUint16 l ++ rest) 4).
Proof.
  intros Hf Hl.
  change (putUint16 f ++ putUint16 l ++ rest)
    with (byte_of_Z (Z.shiftr f 8) :: byte_of_Z f
          :: byte_of_Z (Z.shiftr l 8) :: byte_of_Z l :: rest).
  rewrite readCommonHeader_cons.
  rewrite !getUint16_putUint16 by assumption. reflexivity.
Qed.

(** X9.  Headers are read back as they were written: for a v2 header
    and a v3 header with fields in the range of their widths, and any
    octets after them, reading the written header gives the header
    and leaves the reader at offset twelve, and reading only the
    common header from the same octets gives its flags and length and
    leaves the reader at offset four. *)
Theorem header_write_read
    (h2 : l2tpV2Header) (h3 : l2tpV3Header) (rest : list byte) :
  wf_v2Header h2 -> wf_v3Header h3 ->
  readV2Header (NewReader (writeV2Header h2 ++ rest))
  = Ok (h2, mkReader (writeV2Header h2 ++ rest) v2HeaderLen)
  /\ readV3Header (NewReader (writeV3Header h3 ++ rest))
     = Ok (h3, mkReader (writeV3Header h3 ++ rest) v3HeaderLen)
  /\ readCommonHeader (NewReader (writeV2Header h2 ++ rest))
     = Ok (Common h2, mkReader (writeV2Header h2 ++ rest) commonHeaderLen)
  /\ readCommonHeader (NewReader (writeV3Header h3 ++ rest))
     = Ok (Common3 h3, mkReader (writeV3Header h3 ++ rest) commonHeaderLen).
Proof.
  intros H2 H3.
  split; [apply readV2Header_write; assumption|].
  split; [apply readV3Header_write; assumption|].
  destruct H2 as ((Hf2 & Hl2) & _), H3 as ((Hf3 & Hl3) & _).
  destruct h2 as [[f2 l2] t s n r], h3 as [[f3 l3] c n3 r3].
  cbn [Common Common3 FlagsVer Len] in *.
  split.
  - apply (readCommonHeader_putUint16 f2 l2
             ((putUint16 t ++ putUint16 s ++ putUint16 n ++ putUint16 r) ++ rest));
      assumption.
  - apply (readCommonHeader_putUint16 f3 l3
             ((putUint32 c ++ putUint16 n3 ++ putUint16 r3) ++ rest));
      assumption.
Qed.

Lemma header_write_read_witness :
  wf_v2Header (header helloMessage) /\ wf_v3Header (header3 v3HelloMessage)
  /\ readV2Header (NewReader (writeV2Header (header helloMessage) ++ gap))
     = Ok (header helloMessage,
           mkReader (writeV2Header (header helloMessage) ++ gap) v2HeaderLen)
  /\ readV3Header (NewReader (writeV3Header (header3 v3HelloMessage) ++ gap))
     = Ok (header3 v3HelloMessage,
           mkReader (writeV3Header (header3 v3HelloMessage) ++ gap) v3HeaderLen)
  /\ readCommonHeader (NewReader (writeV2Header (header helloMessage) ++ gap))
     = Ok (Common (header helloMessage),
           mkReader (writeV2Header (header helloMessage) ++ gap) commonHeaderLen)
  /\ readCommonHeader (NewReader (writeV3Header (header3 v3HelloMessage) ++ gap))
     = Ok (Common3 (header3 v3HelloMessage),
           mkReader (writeV3Header (header3 v3HelloMessage) ++ gap)
             commonHeaderLen).
Proof.
  assert (H1 : wf_v2Header (header helloMessage))
    by (unfold wf_v2Header, wf_common, is_uint16; simpl; lia).
  assert (H2 : wf_v3Header (header3 v3HelloMessage))
    by (unfold wf_v3Header, wf_common, is_uint16, is_uint32; simpl; lia).
  exact (conj H1 (conj H2
          (header_write_read (header helloMessage) (header3 v3HelloMessage) gap
             H1 H2))).
Defined.

(** X10.  Appending AVPs keeps the header length right as long as the
    message fits a sixteen-bit length: for every AVP subsystem, when
    the length field of a v2 message is twelve plus the total lengths
    of its AVPs, the appended AVPs have total lengths that are not
    negative, and the message with them is at most 65535 octets long,
    then after appending them one by one the AVPs are the old ones
    followed by the new ones in order, the length field is again
    twelve plus the total lengths of the AVPs, and the flags, the ids
    and the sequence numbers are the same. *)
Theorem appendAvp_keeps_length
    (codec : AvpCodec) (m : v2ControlMessage) (l : list avp) :
  lengthConsistent m -> 0 <= Len (Common (header m)) ->
  Forall (fun a => 0 <= totalLen a) l ->
  v2HeaderLen + totalLens (avps m ++ l) <= controlMessageMaxLen ->
  let m' := foldl appendAvp m l in
  lengthConsistent m' /\ avps m' = avps m ++ l
  /\ FlagsVer (Common (header m')) = FlagsVer (Common (header m))
  /\ Tid (header m') = Tid (header m) /\ Sid (header m') = Sid (header m)
  /\ Ns (header m') = Ns (header m) /\ Nr (header m') = Nr (header m).
Proof.
  intros Hc H0 Hl Hmax m'.
  destruct (foldl_appendAvp l m) as (H1 & H2 & H3 & H4 & H5 & H6 & _).
  fold m' in H1, H2, H3, H4, H5, H6.
  unfold lengthConsistent in *. pose proof (totalLens_nonneg l Hl) as Hn.
  rewrite totalLens_app in Hmax. unfold controlMessageMaxLen in Hmax.
  assert (Hu : is_uint16 (Len (Common (header m)))) by (unfold is_uint16; lia).
  split; [|tauto].
  unfold m'. rewrite (foldl_appendAvp_Len l m Hu).
  fold m'. rewrite H6, totalLens_app, Z.mod_small; lia.
Qed.

Lemma appendAvp_keeps_length_witness :
  lengthConsistent helloMessage /\ 0 <= Len (Common (header helloMessage))
  /\ Forall (fun a => 0 <= totalLen a) [hostNameAvp; tunnelIDAvp 7]
  /\ v2HeaderLen + totalLens (avps helloMessage ++ [hostNameAvp; tunnelIDAvp 7])
     <= controlMessageMaxLen
  /\ let m' := foldl appendAvp helloMessage [hostNameAvp; tunnelIDAvp 7] in
     lengthConsistent m'
     /\ avps m' = avps helloMessage ++ [hostNameAvp; tunnelIDAvp 7]
     /\ FlagsVer (Common (header m')) = FlagsVer (Common (header helloMessage))
     /\ Tid (header m') = Tid (header helloMessage)
     /\ Sid (header m') = Sid (header helloMessage)
     /\ Ns (header m') = Ns (header helloMessage)
     /\ Nr (header m') = Nr (header helloMessage).
Proof.
  assert (H1 : lengthConsistent helloMessage) by reflexivity.
  assert (H2 : 0 <= Len (Common (header helloMessage))) by (simpl; lia).
  assert (H3 : Forall (fun a => 0 <= totalLen a) [hostNameAvp; tunnelIDAvp 7])
    by (repeat constructor; vm_compute; discriminate).
  assert (H4 : v2HeaderLen
               + totalLens (avps helloMessage ++ [hostNameAvp; tunnelIDAvp 7])
               <= controlMessageMaxLen) by (vm_compute; discriminate).
  exact (conj H1 (conj H2 (conj H3 (conj H4
          (appendAvp_keeps_length AvpModel.codec helloMessage
             [hostNameAvp; tunnelIDAvp 7] H1 H2 H3 H4))))).
Defined.

(** The message of a successful builder. *)
Lemma buildV2TunnelMsg_Ok_inv
    (codec : AvpCodec) (ptid : ControlConnID) (ins : list avpIn)
    (m : v2ControlMessage) :
  0 <= ptid -> buildV2TunnelMsg ptid ins = Ok m ->
  ptid <= v2TidSidMax
  /\ header m
     = mkV2Header
         (mkCommon 51202
            ((v2HeaderLen + avpsLengthBytes [] + totalLens (avps m)) mod 65536))
         ptid 0 0 0
  /\ protocolVersion (Common (header m)) = Ok ProtocolVersion2
  /\ Forall2 avpInBuilt ins (avps m).
Proof.
  intros H0 H. unfold buildV2TunnelMsg, newV2ControlMessage in H.
  destruct (Z.ltb_spec v2TidSidMax ptid) as [|Hle]; [discriminate|].
  cbn [Z.ltb Z.compare v2TidSidMax mbind result_bind] in H.
  apply appendAvpIns_Ok in H as (l & Hl & ->).
  set (m0 := mkV2 (newL2tpV2MessageHeader (uint16 ptid) (uint16 0) 0 0
                     (avpsLengthBytes [])) []).
  destruct (foldl_appendAvp l m0) as (H1 & H2 & H3 & H4 & H5 & H6 & _).
  assert (Hu : is_uint16 (Len (Common (header m0)))) by apply uint16_range.
  pose proof (foldl_appendAvp_Len l m0 Hu) as H7.
  cbv zeta in *. cbn [app] in H6.
  assert (Hh : header (foldl appendAvp m0 l)
               = mkV2Header
                   (mkCommon 51202
                      ((v2HeaderLen + avpsLengthBytes [] + totalLens l) mod 65536))
                   ptid 0 0 0).
  { destruct (foldl appendAvp m0 l) as [[[f n] t s ns_ nr_] a].
    cbn [header avps Common FlagsVer Len Tid Sid Ns Nr] in *.
    subst. f_equal.
    - f_equal. unfold uint16. apply Zplus_mod_idemp_l.
    - unfold v2TidSidMax in Hle. apply Z.mod_small. lia. }
  split; [assumption|]. rewrite H6. split; [exact Hh|].
  split; [rewrite Hh; reflexivity | assumption].
Qed.

(** X11.  What a successful tunnel-message builder returns, for every
    AVP subsystem: the peer tunnel id is at most 65535 and is the
    tunnel id of the header untruncated, the session id and both
    sequence numbers are 0, the flags are those of a v2 control
    message, the AVPs are what [newAvp] made of the inputs, one for
    one and in order, and the length field is the sum of the header
    length, the length [avpsLengthBytes] gives for no AVPs and the
    total lengths of the AVPs, modulo 65536. *)
Theorem buildV2TunnelMsg_result
    (codec : AvpCodec) (ptid : ControlConnID) (ins : list avpIn)
    (m : v2ControlMessage) :
  0 <= ptid -> buildV2TunnelMsg ptid ins = Ok m ->
  ptid <= v2TidSidMax
  /\ header m
     = mkV2Header
         (mkCommon 51202
            ((v2HeaderLen + avpsLengthBytes [] + totalLens (avps m)) mod 65536))
         ptid 0 0 0
  /\ protocolVersion (Common (header m)) = Ok ProtocolVersion2
  /\ Forall2 avpInBuilt ins (avps m).
Proof. apply buildV2TunnelMsg_Ok_inv. Qed.

Lemma buildV2TunnelMsg_result_witness :
  0 <= 1
  /\ buildV2TunnelMsg 1 helloIns = Ok helloMessage
  /\ 1 <= v2TidSidMax
  /\ header helloMessage
     = mkV2Header
         (mkCommon 51202
            ((v2HeaderLen + avpsLengthBytes [] + totalLens (avps helloMessage))
             mod 65536))
         1 0 0 0
  /\ protocolVersion (Common (header helloMessage)) = Ok ProtocolVersion2
  /\ Forall2 avpInBuilt helloIns (avps helloMessage).
Proof.
  assert (H1 : 0 <= 1) by lia.
  assert (H2 : buildV2TunnelMsg 1 helloIns = Ok helloMessage) by reflexivity.
  exact (conj H1 (conj H2
          (buildV2TunnelMsg_result AvpModel.codec 1 helloIns helloMessage H1 H2))).
Defined.

(** X12.  A tunnel-message builder stops at the first input that
    [newAvp] refuses, for every AVP subsystem: with a peer tunnel id
    of at most 65535, when [newAvp] succeeds on the inputs before one
    and fails on that one with an error, the builder fails with that
    error wrapped together with the type of the refused input,
    whatever inputs follow. *)
Theorem buildV2TunnelMsg_newAvp_error
    (codec : AvpCodec) (ptid : ControlConnID) (pre : list avpIn)
    (built : list avp) (i : avpIn) (post : list avpIn) (e : error) :
  ptid <= v2TidSidMax ->
  Forall2 avpInBuilt pre built ->
  newAvp vendorIDIetf (typ i) (avpIn_data i) = Err e ->
  buildV2TunnelMsg ptid (pre ++ i :: post)
  = Err (ErrFailedToCreateAvp (typ i) e).
Proof.
  intros Hle Hpre He. unfold buildV2TunnelMsg, newV2ControlMessage.
  destruct (Z.ltb_spec v2TidSidMax ptid) as [|_]; [lia|].
  cbn [Z.ltb Z.compare v2TidSidMax mbind result_bind].
  eapply appendAvpIns_Err; eassumption.
Qed.

Lemma buildV2TunnelMsg_newAvp_error_witness :
  1 <= v2TidSidMax
  /\ Forall2 avpInBuilt helloIns [messageTypeAvp avpMsgTypeHello]
  /\ newAvp vendorIDIetf (typ badTunnelIDIn) (avpIn_data badTunnelIDIn)
     = Err AvpModel.errAvpValue
  /\ buildV2TunnelMsg 1 (helloIns ++ badTunnelIDIn :: helloIns)
     = Err (ErrFailedToCreateAvp avpTypeTunnelID AvpModel.errAvpValue).
Proof.
  assert (H1 : 1 <= v2TidSidMax) by (vm_compute; discriminate).
  assert (H2 : Forall2 avpInBuilt helloIns [messageTypeAvp avpMsgTypeHello])
    by (repeat constructor).
  assert (H3 : newAvp vendorIDIetf (typ badTunnelIDIn) (avpIn_data badTunnelIDIn)
               = Err AvpModel.errAvpValue) by reflexivity.
  exact (conj H1 (conj H2 (conj H3
          (buildV2TunnelMsg_newAvp_error AvpModel.codec 1 helloIns
             [messageTypeAvp avpMsgTypeHello] badTunnelIDIn helloIns
             AvpModel.errAvpValue H1 H2 H3)))).
Defined.

(** ** Validation *)

Section ValidateFacts.

Context `{codec : AvpCodec}.

(** The type of a message is read off its first AVP only. *)
Lemma getType_cons (h h' : l2tpV2Header) (a : avp) (l l' : list avp) :
  getType (mkV2 h (a :: l)) = getType (mkV2 h' (a :: l')).
Proof. reflexivity. Qed.

Lemma validate_Ok_nonempty (o1 o2 : rangeOrder) (m : v2ControlMessage) :
  validate o1 o2 m = Ok () -> avps m <> [].
Proof.
  intros H Hnil. unfold validate, getType, getAvps in H. rewrite Hnil in H.
  cbn [mbind result_bind] in H. discriminate H.
Qed.

End ValidateFacts.

(** X13.  A message without AVPs never validates, for every AVP
    subsystem and every order of the map visits: a buffer of at least
    twelve octets whose length field is at most twelve decodes to a v2
    message that [validate] refuses, because its derived type, the
    acknowledgement, has no specification. *)
Theorem validate_refuses_decoded_acknowledgement
    (codec : AvpCodec) (o1 o2 : rangeOrder) (b : list byte) (L : Z) :
  v2HeaderLen <= len b -> lengthField b = Some L -> L <= v2HeaderLen ->
  (m ← bytesToV2CtlMsg b; validate o1 o2 m)
  = Err (ErrNoSpecification avpMsgTypeAck).
Proof.
  intros Hlen Hfield HL.
  destruct (buffer_min_len b Hlen)
    as (f0 & f1 & l0 & l1 & t0 & t1 & s0 & s1 & n0 & n1 & r0 & r1 & rest & ->).
  cbn [lengthField] in Hfield. injection Hfield as Hfield.
  unfold bytesToV2CtlMsg. rewrite readV2Header_cons.
  cbn [mbind result_bind Common Len]. rewrite Hfield.
  destruct (Z.ltb_spec v2HeaderLen L) as [|_]; [lia|]. reflexivity.
Qed.

Lemma validate_refuses_decoded_acknowledgement_witness :
  v2HeaderLen <= len zlbFrame /\ lengthField zlbFrame = Some 12
  /\ 12 <= v2HeaderLen
  /\ (m ← bytesToV2CtlMsg zlbFrame; validate idOrder revOrder m)
     = Err (ErrNoSpecification avpMsgTypeAck).
Proof.
  assert (H1 : v2HeaderLen <= len zlbFrame) by (vm_compute; discriminate).
  assert (H2 : lengthField zlbFrame = Some 12) by reflexivity.
  assert (H3 : 12 <= v2HeaderLen) by (vm_compute; discriminate).
  exact (conj H1 (conj H2 (conj H3
          (validate_refuses_decoded_acknowledgement AvpModel.codec
             idOrder revOrder zlbFrame 12 H1 H2 H3)))).
Defined.

(** X14.  Appending an accepted AVP to a message that validates gives
    a message that validates, for every AVP subsystem and whatever the
    orders of the map visits: when [validate] accepts a v2 message of
    some type with some specification, and a further AVP has a type
    listed in that specification and a value that decodes, [validate]
    accepts the message with that AVP appended.  The AVP may repeat a
    type that the message already has. *)
Theorem validate_appendAvp
    (codec : AvpCodec) (o1 o2 o1' o2' : rangeOrder) (m : v2ControlMessage)
    (a : avp) (mt : avpMsgType) (spec : msgSpec) :
  validate o1 o2 m = Ok () ->
  getType m = Ok mt -> getV2MsgSpec mt = Ok spec -> avpAccepted spec a ->
  validate o1' o2' (appendAvp m a) = Ok ().
Proof.
  intros Hv Ht Hs Ha.
  pose proof (validate_Ok_nonempty _ _ _ Hv) as Hne.
  apply validate_Ok_iff in Hv as (mt' & spec' & Ht' & Hs' & Hacc & Hmust).
  assert (mt' = mt) by congruence. subst mt'.
  assert (spec' = spec) by congruence. subst spec'.
  apply validate_Ok_iff. exists mt, spec.
  destruct m as [h [|a0 l]]; [contradiction|].
  cbn [appendAvp avps header] in *.
  split; [exact Ht|]. split; [exact Hs|]. split.
  - apply Forall_app. split; [assumption|].
    apply Forall_cons. split; [assumption | constructor].
  - intros t Hm. rewrite map_app. apply elem_of_app. left.
    apply (Hmust t Hm).
Qed.

Lemma validate_appendAvp_witness :
  validate idOrder revOrder sccrqComplete = Ok ()
  /\ getType sccrqComplete = Ok avpMsgTypeSccrq
  /\ getV2MsgSpec avpMsgTypeSccrq = Ok v2SccrqMsgSpec
  /\ avpAccepted v2SccrqMsgSpec hostNameAvp
  /\ validate revOrder idOrder (appendAvp sccrqComplete hostNameAvp) = Ok ().
Proof.
  assert (H1 : validate idOrder revOrder sccrqComplete = Ok ())
    by (vm_compute; reflexivity).
  assert (H2 : getType sccrqComplete = Ok avpMsgTypeSccrq) by reflexivity.
  assert (H3 : getV2MsgSpec avpMsgTypeSccrq = Ok v2SccrqMsgSpec) by reflexivity.
  assert (H4 : avpAccepted v2SccrqMsgSpec hostNameAvp)
    by (split; eexists; vm_compute; reflexivity).
  exact (conj H1 (conj H2 (conj H3 (conj H4
          (validate_appendAvp AvpModel.codec idOrder revOrder revOrder idOrder
             sccrqComplete hostNameAvp avpMsgTypeSccrq v2SccrqMsgSpec
             H1 H2 H3 H4))))).
Defined.

(** X15.  Whether [validate] accepts a v2 message depends on its first
    AVP and on which AVPs follow it, not on their order, on how often
    each occurs, on the header, or on the orders of the map visits:
    for every AVP subsystem, when [validate] accepts a message, it
    accepts every message with the same first AVP whose further AVPs
    are the same as a set. *)
Theorem validate_set_of_avps
    (codec : AvpCodec) (o1 o2 o1' o2' : rangeOrder) (h h' : l2tpV2Header)
    (a : avp) (l l' : list avp) :
  (forall x, x ∈ l <-> x ∈ l') ->
  validate o1 o2 (mkV2 h (a :: l)) = Ok () ->
  validate o1' o2' (mkV2 h' (a :: l')) = Ok ().
Proof.
  intros Hset Hv.
  apply validate_Ok_iff in Hv as (mt & spec & Ht & Hs & Hacc & Hmust).
  apply validate_Ok_iff. exists mt, spec.
  cbn [avps] in *.
  split; [rewrite <- Ht; apply getType_cons|]. split; [exact Hs|].
  apply Forall_cons in Hacc as [Ha Hl]. split.
  - constructor; [assumption|].
    apply Forall_forall. intros x Hx. apply Hset in Hx.
    exact (proj1 (Forall_forall _ _) Hl x Hx).
  - intros t Hm. specialize (Hmust t Hm).
    cbn [map] in *. apply elem_of_cons in Hmust as [->|Hin]; [left|].
    right. apply (list_elem_of_fmap avp_getType) in Hin as (x & -> & Hx).
    apply (list_elem_of_fmap avp_getType). exists x. split; [reflexivity|].
    apply Hset. assumption.
Qed.

Lemma validate_set_of_avps_witness :
  (forall x, x ∈ [protocolVersionAvp; hostNameAvp; framingCapAvp; tunnelIDAvp 42]
             <-> x ∈ [tunnelIDAvp 42; framingCapAvp; hostNameAvp;
                      protocolVersionAvp; hostNameAvp])
  /\ validate idOrder revOrder
       (mkV2 (header sccrqComplete)
          (messageTypeAvp avpMsgTypeSccrq
           :: [protocolVersionAvp; hostNameAvp; framingCapAvp; tunnelIDAvp 42]))
     = Ok ()
  /\ validate revOrder idOrder
       (mkV2 (header helloMessage)
          (messageTypeAvp avpMsgTypeSccrq
           :: [tunnelIDAvp 42; framingCapAvp; hostNameAvp;
               protocolVersionAvp; hostNameAvp]))
     = Ok ().
Proof.
  assert (H1 : forall x,
             x ∈ [protocolVersionAvp; hostNameAvp; framingCapAvp; tunnelIDAvp 42]
             <-> x ∈ [tunnelIDAvp 42; framingCapAvp; hostNameAvp;
                      protocolVersionAvp; hostNameAvp])
    by (intros x; rewrite !elem_of_cons; tauto).
  assert (H2 : validate idOrder revOrder
                 (mkV2 (header sccrqComplete)
                    (messageTypeAvp avpMsgTypeSccrq
                     :: [protocolVersionAvp; hostNameAvp; framingCapAvp;
                         tunnelIDAvp 42]))
               = Ok ()) by (vm_compute; reflexivity).
  exact (conj H1 (conj H2
          (validate_set_of_avps AvpModel.codec idOrder revOrder revOrder idOrder
             (header sccrqComplete) (header helloMessage)
             (messageTypeAvp avpMsgTypeSccrq) _ _ H1 H2))).
Defined.

(** ** Message specifications *)

(** The loop of [must] collects the mandatory types in the order of
    the visit. *)
Lemma foldl_must (l : list (avpType * avpSpec)) (acc : list avpType) :
  foldl (fun mst '(at_, as_) =>
           match as_ with
           | mustExist => mst ++ [at_]
           | mayExist => mst
           end) acc l
  = acc ++ omap (fun '(at_, as_) =>
                   match as_ with
                   | mustExist => Some at_
                   | mayExist => None
                   end) l.
Proof.
  revert acc. induction l as [|[t s] l IH]; intros acc; cbn [foldl omap].
  - rewrite app_nil_r. reflexivity.
  - rewrite IH. destruct s; cbn [list_omap]; [|reflexivity].
    rewrite <- app_assoc. reflexivity.
Qed.

Lemma must_omap (o : rangeOrder) (spec : msgSpec) :
  must o spec
  = omap (fun '(at_, as_) =>
            match as_ with
            | mustExist => Some at_
            | mayExist => None
            end) (range o (spec_m spec)).
Proof. unfold must. rewrite foldl_must. reflexivity. Qed.

Lemma omap_must_sublist (l : list (avpType * avpSpec)) :
  omap (fun '(at_, as_) =>
          match as_ with
          | mustExist => Some at_
          | mayExist => None
          end) l `sublist_of` l.*1.
Proof.
  induction l as [|[t s] l IH]; [constructor|].
  destruct s; cbn; [apply sublist_skip | apply sublist_cons]; exact IH.
Qed.

Lemma elem_of_must (o : rangeOrder) (spec : msgSpec) (t : avpType) :
  t ∈ must o spec <-> hasAvp spec t = Some mustExist.
Proof.
  rewrite must_omap, list_elem_of_omap. unfold range, hasAvp. split.
  - intros ([t' s] & Hin & Hf). rewrite (visit_perm o) in Hin.
    apply elem_of_map_to_list in Hin. destruct s; [|discriminate].
    injection Hf as ->. exact Hin.
  - intros H. exists (t, mustExist). split; [|reflexivity].
    rewrite (visit_perm o). apply elem_of_map_to_list. exact H.
Qed.

(** X16.  The mandatory types of a message specification, as [must]
    collects them: a type is among them exactly when the
    specification marks it as mandatory; none is collected twice;
    another order of the map visit gives the same types in another
    order; and they are the types that the first loop of [validate]
    enters as not yet seen. *)
Theorem must_is_the_mandatory_types (o o' : rangeOrder) (spec : msgSpec) :
  (forall t, t ∈ must o spec <-> hasAvp spec t = Some mustExist)
  /\ NoDup (must o spec)
  /\ Permutation (must o spec) (must o' spec)
  /\ (forall t, initSeen o' spec !! t
                = if decide (t ∈ must o spec) then Some false else None).
Proof.
  split; [apply elem_of_must|]. split; [|split].
  - rewrite must_omap. eapply sublist_NoDup; [|apply omap_must_sublist].
    unfold range. rewrite (visit_perm o). apply NoDup_fst_map_to_list.
  - rewrite !must_omap. unfold range.
    rewrite (visit_perm o), (visit_perm o'). reflexivity.
  - intros t. rewrite initSeen_lookup.
    destruct (decide (t ∈ must o spec)) as [Hin|Hn].
    + apply elem_of_must in Hin. rewrite Hin. reflexivity.
    + destruct (hasAvp spec t) as [[|]|] eqn:E; try reflexivity.
      exfalso. apply Hn, elem_of_must. exact E.
Qed.

(** ** Builders and specifications *)

Lemma mandatoryAmong_elem (spec : msgSpec) (ts : list avpType) (t : avpType) :
  mandatoryAmong spec ts = true -> hasAvp spec t = Some mustExist -> t ∈ ts.
Proof.
  unfold mandatoryAmong, hasAvp. intros Hall Ht.
  apply elem_of_map_to_list, list_elem_of_In in Ht.
  rewrite forallb_forall in Hall. specialize (Hall _ Ht). cbn in Hall.
  apply bool_decide_eq_true in Hall. exact Hall.
Qed.

Section BuiltMessages.

Context `{codec : AvpCodec}.

(** What the builders need of [newAvp]: the AVP has the type asked
    for and a value that decodes, and a Message Type AVP decodes to the
    message type it was made from. *)
Hypothesis newAvp_decodes : forall t v a,
  newAvp vendorIDIetf t v = Ok a -> avp_getType a = t /\ is_Ok (avp_decode a).
Hypothesis newAvp_msgType : forall mt a,
  is_uint16 mt ->
  newAvp vendorIDIetf avpTypeMessage (VMsgType mt) = Ok a ->
  decodeMsgType a = Ok mt.

Lemma built_types (ins : list avpIn) (l : list avp) :
  Forall2 avpInBuilt ins l -> map avp_getType l = map typ ins.
Proof.
  induction 1 as [|i a ins l Hi _ IH]; [reflexivity|].
  cbn [map]. rewrite IH. f_equal. apply (newAvp_decodes _ _ _ Hi).
Qed.

Lemma built_accepted (spec : msgSpec) (ins : list avpIn) (l : list avp) :
  Forall2 avpInBuilt ins l ->
  Forall (fun i => is_Some (hasAvp spec (typ i))) ins ->
  Forall (avpAccepted spec) l.
Proof.
  induction 1 as [|i a ins l Hi _ IH]; intros Hs; [constructor|].
  apply Forall_cons in Hs as [Hs1 Hs2].
  destruct (newAvp_decodes _ _ _ Hi) as [Ht Hd].
  constructor; [|apply IH; assumption].
  split; [rewrite Ht; assumption | assumption].
Qed.

(** A built message whose inputs start with the message type and cover
    the specification of that type validates. *)
Lemma buildV2TunnelMsg_validate (o1 o2 : rangeOrder) (ptid : ControlConnID)
    (mt : avpMsgType) (rest : list avpIn) (spec : msgSpec)
    (m : v2ControlMessage) :
  is_uint16 mt -> getV2MsgSpec mt = Ok spec ->
  Forall (fun i => is_Some (hasAvp spec (typ i)))
    (mkAvpIn avpTypeMessage (VMsgType mt) :: rest) ->
  mandatoryAmong spec (avpTypeMessage :: map typ rest) = true ->
  buildV2TunnelMsg ptid (mkAvpIn avpTypeMessage (VMsgType mt) :: rest) = Ok m ->
  validate o1 o2 m = Ok ().
Proof.
  intros Hmt Hspec Hlisted Hcover H.
  unfold buildV2TunnelMsg in H.
  destruct (newV2ControlMessage ptid 0 []) as [m0| |] eqn:E0; try discriminate.
  cbn [mbind result_bind] in H.
  assert (Hnil : avps m0 = []).
  { unfold newV2ControlMessage in E0.
    repeat match type of E0 with
           | (if ?c then _ else _) = _ => destruct c; try discriminate
           end.
    injection E0 as <-. reflexivity. }
  apply appendAvpIns_Ok in H as (l & Hl & ->).
  destruct (foldl_appendAvp l m0) as (_ & _ & _ & _ & _ & Havps & _).
  cbv zeta in Havps. rewrite Hnil in Havps. cbn [app] in Havps.
  pose proof (built_types _ _ Hl) as Hty.
  pose proof (built_accepted spec _ _ Hl Hlisted) as Hacc.
  inversion Hl as [|i a ins' l' Hi Hl' Ei El]. subst.
  apply validate_Ok_iff. exists mt, spec. rewrite Havps.
  split; [|split; [exact Hspec | split; [exact Hacc|]]].
  - destruct (foldl appendAvp m0 (a :: l')) as [h' l'']. cbn [avps] in Havps.
    subst l''. unfold getType, getAvps. cbn [avps].
    destruct (newAvp_decodes _ _ _ Hi) as [Ha _]. cbn [typ] in Ha.
    rewrite Ha, Z.eqb_refl. cbn [negb].
    rewrite (newAvp_msgType mt a Hmt Hi). reflexivity.
  - intros t Ht. rewrite Hty. cbn [map typ].
    exact (mandatoryAmong_elem _ _ _ Hcover Ht).
Qed.

End BuiltMessages.

(** The AVP model has the two properties of [newAvp] that the builders
    need. *)
Lemma model_newAvp_decodes (t : avpType) (v : avpValue) (a : avp) :
  newAvp vendorIDIetf t v = Ok a -> avp_getType a = t /\ is_Ok (avp_decode a).
Proof.
  cbn [newAvp AvpModel.codec]. unfold AvpModel.newAvp, AvpModel.encodeValue.
  destruct (AvpModel.dataTypeOf t) as [d|] eqn:Ed; [|discriminate].
  assert (Hdec : forall bs,
             is_Ok (match d with
                    | AvpModel.avpDataTypeMsgID =>
                        x ← AvpModel.decodeUint16 bs; Ok (VMsgType x)
                    | AvpModel.avpDataTypeUint16 =>
                        x ← AvpModel.decodeUint16 bs; Ok (VUint16 x)
                    | AvpModel.avpDataTypeUint32 =>
                        x ← AvpModel.decodeUint32 bs; Ok (VUint32 x)
                    | AvpModel.avpDataTypeUint64 =>
                        x ← AvpModel.decodeUint64 bs; Ok (VUint64 x)
                    | AvpModel.avpDataTypeBytes => Ok (VBytes bs)
                    | AvpModel.avpDataTypeString => Ok (VString bs)
                    | AvpModel.avpDataTypeResultCode =>
                        x ← AvpModel.decodeResultCode bs; Ok (VResultCode x)
                    end) ->
             forall h, AvpType h = t ->
                       is_Ok (avp_decode (mkAvp h (mkAvpPayload bs)))).
  { intros bs Hok h Ht. cbn [avp_decode AvpModel.codec].
    unfold AvpModel.decode, avp_getType. cbn [avp_header avp_payload data].
    rewrite Ht, Ed. exact Hok. }
  destruct d, v; try discriminate;
    match goal with
    | |- (if ?c then _ else _) = _ -> _ => destruct c; [discriminate|]
    end;
    intros [= <-]; (split; [reflexivity|]); apply Hdec; try reflexivity;
    try (eexists; reflexivity).
  unfold AvpModel.encodeResultCode.
  destruct (_ && _); eexists; reflexivity.
Qed.

Lemma model_newAvp_msgType (mt : avpMsgType) (a : avp) :
  is_uint16 mt ->
  newAvp vendorIDIetf avpTypeMessage (VMsgType mt) = Ok a ->
  decodeMsgType a = Ok mt.
Proof.
  intros Hmt H. vm_compute in H. injection H as <-.
  cbn [decodeMsgType AvpModel.codec]. unfold AvpModel.decodeMsgType.
  cbn. f_equal. apply getUint16_putUint16. exact Hmt.
Qed.

(** X17.  The five tunnel-message builders agree with the message
    specifications: for every AVP subsystem whose [newAvp] gives an AVP
    of the type asked for with a value that decodes, and a Message
    Type AVP that decodes to the message type it was made from, every
    message that [newV2Sccrq], [newV2Sccrp], [newV2Scccn],
    [newV2Stopccn] or [newV2Hello] returns passes [validate], for
    every configuration, every result code and every order of the map
    visits. *)
Theorem built_messages_validate
    (codec : AvpCodec) (o1 o2 : rangeOrder) (cfg : TunnelConfig)
    (rc : resultCode) :
  (forall t v a, newAvp vendorIDIetf t v = Ok a ->
                 avp_getType a = t /\ is_Ok (avp_decode a)) ->
  (forall mt a, is_uint16 mt ->
                newAvp vendorIDIetf avpTypeMessage (VMsgType mt) = Ok a ->
                decodeMsgType a = Ok mt) ->
  (forall m, newV2Sccrq cfg = Ok m -> validate o1 o2 m = Ok ())
  /\ (forall m, newV2Sccrp cfg = Ok m -> validate o1 o2 m = Ok ())
  /\ (forall m, newV2Scccn cfg = Ok m -> validate o1 o2 m = Ok ())
  /\ (forall m, newV2Stopccn rc cfg = Ok m -> validate o1 o2 m = Ok ())
  /\ (forall m, newV2Hello cfg = Ok m -> validate o1 o2 m = Ok ()).
Proof.
  intros Hd Hm.
  repeat split; intros m H;
    (eapply (buildV2TunnelMsg_validate Hd Hm o1 o2); [| | | |exact H];
     [unfold is_uint16; vm_compute; intuition discriminate
     | reflexivity
     | repeat (apply Forall_cons; split; [eexists; vm_compute; reflexivity|]);
       constructor
     | vm_compute; reflexivity]).
Qed.

Lemma built_messages_validate_witness :
  (forall t v a, newAvp vendorIDIetf t v = Ok a ->
                 avp_getType a = t /\ is_Ok (avp_decode a))
  /\ (forall mt a, is_uint16 mt ->
                   newAvp vendorIDIetf avpTypeMessage (VMsgType mt) = Ok a ->
                   decodeMsgType a = Ok mt)
  /\ newV2Hello (mkTunnelConfig 7 1) = Ok helloMessage
  /\ (forall m, newV2Sccrq (mkTunnelConfig 7 1) = Ok m ->
                validate idOrder revOrder m = Ok ())
  /\ (forall m, newV2Sccrp (mkTunnelConfig 7 1) = Ok m ->
                validate idOrder revOrder m = Ok ())
  /\ (forall m, newV2Scccn (mkTunnelConfig 7 1) = Ok m ->
                validate idOrder revOrder m = Ok ())
  /\ (forall m, newV2Stopccn stopccnResult (mkTunnelConfig 7 1) = Ok m ->
                validate idOrder revOrder m = Ok ())
  /\ (forall m, newV2Hello (mkTunnelConfig 7 1) = Ok m ->
                validate idOrder revOrder m = Ok ()).
Proof.
  assert (H1 := model_newAvp_decodes).
  assert (H2 := model_newAvp_msgType).
  assert (H3 : newV2Hello (mkTunnelConfig 7 1) = Ok helloMessage) by reflexivity.
  exact (conj H1 (conj H2 (conj H3
          (built_messages_validate AvpModel.codec idOrder revOrder
             (mkTunnelConfig 7 1) stopccnResult H1 H2)))).
Defined.

(** ** Panics *)

Lemma readV2Header_no_panic (b : list byte) (p : panic) :
  readV2Header (NewReader b) <> Panic p.
Proof.
  unfold readV2Header, readFull.
  destruct (_ =? 0); [discriminate|]. destruct (_ <? _); [discriminate|].
  cbn [mbind result_bind].
  repeat match goal with
         | |- context [match ?l with [] => _ | _ :: _ => _ end] =>
             destruct l; try discriminate
         end.
Qed.

Lemma readV3Header_no_panic (b : list byte) (p : panic) :
  readV3Header (NewReader b) <> Panic p.
Proof.
  unfold readV3Header, readFull.
  destruct (_ =? 0); [discriminate|]. destruct (_ <? _); [discriminate|].
  cbn [mbind result_bind].
  repeat match goal with
         | |- context [match ?l with [] => _ | _ :: _ => _ end] =>
             destruct l; try discriminate
         end.
Qed.

Lemma slice_within (b : list byte) (lo hi : Z) :
  0 <= lo <= hi -> hi <= len b -> exists payload, slice b lo hi = Ok payload.
Proof.
  intros [H0 H1] H2. unfold slice.
  destruct (Z.leb_spec 0 lo); [|lia].
  destruct (Z.leb_spec lo hi); [|lia].
  destruct (Z.leb_spec hi (len b)); [|lia]. eauto.
Qed.

Lemma slice_inverted (b : list byte) (lo hi : Z) :
  hi < lo -> slice b lo hi = Panic PanicSliceBoundsOutOfRange.
Proof.
  intros H. unfold slice.
  destruct (Z.leb_spec 0 lo); [|reflexivity].
  destruct (Z.leb_spec lo hi); [lia | reflexivity].
Qed.

Section PanicFacts.

Context `{codec : AvpCodec}.

Lemma bytesToV2CtlMsg_Panic (frame : list byte) (p : panic) :
  exactFrame frame -> bytesToV2CtlMsg frame = Panic p -> avpPanic p.
Proof.
  intros Hex H. unfold bytesToV2CtlMsg in H.
  destruct (readV2Header (NewReader frame)) as [[hdr r]| |p'] eqn:Hr;
    cbn [mbind result_bind] in H; try discriminate;
    [|exfalso; exact (readV2Header_no_panic _ _ Hr)].
  destruct (readV2Header_inv _ _ _ Hr) as (_ & _ & _ & Hlf).
  apply Hex in Hlf.
  destruct (Z.ltb_spec v2HeaderLen (Len (Common hdr))) as [Hgt|]; [|discriminate].
  destruct (slice_within frame v2HeaderLen (Len (Common hdr)))
    as [payload Hs]; [unfold v2HeaderLen in *; lia | lia |].
  rewrite Hs in H. cbn [mbind result_bind] in H.
  destruct (parseAVPBuffer payload) as [[|a0 l]| |p'] eqn:Hp;
    cbn [mbind result_bind] in H; try discriminate.
  - injection H as <-. left. reflexivity.
  - destruct (negb _); discriminate.
  - injection H as <-. right. eauto.
Qed.

Lemma newL2tpV2ControlMessage_Panic (frame : list byte) (p : panic) :
  exactFrame frame -> newL2tpV2ControlMessage frame = Panic p -> avpPanic p.
Proof.
  intros Hex H. unfold newL2tpV2ControlMessage in H.
  destruct (readV2Header (NewReader frame)) as [[hdr r]| |p'] eqn:Hr;
    cbn [mbind result_bind] in H; try discriminate;
    [|exfalso; exact (readV2Header_no_panic _ _ Hr)].
  destruct (readV2Header_inv _ _ _ Hr) as (_ & _ & _ & Hlf).
  apply Hex in Hlf.
  destruct (Z.ltb_spec v2HeaderLen (Len (Common hdr))) as [Hgt|]; [|discriminate].
  destruct (slice_within frame v2HeaderLen (Len (Common hdr)))
    as [payload Hs]; [unfold v2HeaderLen in *; lia | lia |].
  rewrite Hs in H. cbn [mbind result_bind] in H.
  destruct (parseAVPBuffer payload) as [[|a0 l]| |p'] eqn:Hp;
    cbn [mbind result_bind] in H; try discriminate.
  - injection H as <-. left. reflexivity.
  - destruct (negb _); discriminate.
  - injection H as <-. right. eauto.
Qed.

Lemma bytesToV3CtlMsg_Panic (frame : list byte) (p : panic) :
  exactFrame frame -> bytesToV3CtlMsg frame = Panic p -> avpPanic p.
Proof.
  intros Hex H. unfold bytesToV3CtlMsg in H.
  destruct (readV3Header (NewReader frame)) as [[hdr r]| |p'] eqn:Hr;
    cbn [mbind result_bind] in H; try discriminate;
    [|exfalso; exact (readV3Header_no_panic _ _ Hr)].
  destruct (readV3Header_inv _ _ _ Hr) as (_ & Hlen & _ & Hlf).
  apply Hex in Hlf.
  destruct (slice_within frame v3HeaderLen (Len (Common3 hdr)))
    as [payload Hs]; [unfold v3HeaderLen in *; lia | lia |].
  rewrite Hs in H. cbn [mbind result_bind] in H.
  destruct (parseAVPBuffer payload) as [[|a0 l]| |p'] eqn:Hp;
    cbn [mbind result_bind] in H; try discriminate.
  - injection H as <-. left. reflexivity.
  - destruct (negb _); discriminate.
  - injection H as <-. right. eauto.
Qed.

End PanicFacts.

Section ExactFrames.

Variable decodeV2 : list byte -> result v2ControlMessage.
Variable decodeV3 : list byte -> result v3ControlMessage.
Variable Q : panic -> Prop.

Hypothesis decodeV2_Panic : forall frame p,
  exactFrame frame -> decodeV2 frame = Panic p -> Q p.
Hypothesis decodeV3_Panic : forall frame p,
  exactFrame frame -> decodeV3 frame = Panic p -> Q p.

(** The frames of the parser are exact. *)
Lemma turn_exactFrame (f0 f1 l0 l1 : byte) (tl : list byte) :
  uint16 (getUint16 l0 l1 - commonHeaderLen) <= len tl ->
  exactFrame (firstn (Z.to_nat (getUint16 l0 l1)) (f0 :: f1 :: l0 :: l1 :: tl)).
Proof.
  intros Hle L HL.
  pose proof (getUint16_range l0 l1) as Hr.
  destruct (Z.lt_ge_cases (getUint16 l0 l1) commonHeaderLen) as [Hlt|Hge].
  - exfalso. unfold commonHeaderLen in Hlt.
    remember (Z.to_nat (getUint16 l0 l1)) as n eqn:En.
    destruct n as [|[|[|[|n]]]]; try discriminate HL. lia.
  - pose proof (frame_within tl (getUint16 l0 l1) Hr ltac:(lia)) as Hw.
    rewrite take_frame in HL by assumption.
    cbn [lengthField] in HL. injection HL as <-.
    apply len_firstn; [unfold is_uint16 in Hr; lia|].
    unfold len, commonHeaderLen in *. simpl length. lia.
Qed.

Lemma turn_Panic_exact (s : list byte) (p : panic) :
  turn decodeV2 decodeV3 s = Panic p -> Q p.
Proof.
  unfold turn.
  destruct s as [|f0 [|f1 [|l0 [|l1 tl]]]]; try discriminate.
  cbn [Len].
  destruct (Z.ltb_spec (len tl) (uint16 (getUint16 l0 l1 - commonHeaderLen)));
    [discriminate|].
  pose proof (turn_exactFrame f0 f1 l0 l1 tl ltac:(assumption)) as Hex.
  unfold protocolVersion.
  destruct (_ =? 2); [|destruct (_ =? 3)]; cbn [mbind result_bind decodeFrame];
    try discriminate.
  - destruct (decodeV2 _) as [m| |] eqn:E; cbn [mbind result_bind];
      try discriminate. intros [= <-]. eapply decodeV2_Panic; eassumption.
  - destruct (decodeV3 _) as [m| |] eqn:E; cbn [mbind result_bind];
      try discriminate. intros [= <-]. eapply decodeV3_Panic; eassumption.
Qed.

Lemma parseSuffix_Panic_exact (fuel : nat) (s : list byte) (p : panic) :
  parseSuffix decodeV2 decodeV3 fuel s = Some (Panic p) -> Q p.
Proof.
  revert s. induction fuel as [|fuel IH]; intros s; cbn [parseSuffix];
    destruct (len s <? controlMessageMinLen); try discriminate.
  destruct (turn decodeV2 decodeV3 s) as [[msg n]| |] eqn:Et; try discriminate.
  - destruct (parseSuffix decodeV2 decodeV3 fuel _) as [[tl| |]|] eqn:Er;
      cbn [mbind result_bind]; try discriminate.
    intros [= <-]. eapply IH. exact Er.
  - intros [= <-]. eapply turn_Panic_exact. exact Et.
Qed.

Lemma parseMessageBufferWith_Panic_exact (b : list byte) (p : panic) :
  parseMessageBufferWith decodeV2 decodeV3 b = Panic p -> Q p.
Proof.
  intros H. pose proof (parseMessageBufferWith_suffix decodeV2 decodeV3 b) as Hs.
  rewrite H in Hs. eapply parseSuffix_Panic_exact. exact Hs.
Qed.

End ExactFrames.

(** X18.  The only panic of the message layer that a buffer can
    provoke through the parser is the index panic on an empty AVP
    list: for every AVP subsystem, a panic of the parser of either
    revision is a panic of the AVP parser on some payload, or the
    index-out-of-range panic that the decoders raise when the AVP
    parser returns no AVP for a payload.  The slices that the parser
    and the decoders take never leave the buffer. *)
Theorem parser_panics
    (codec : AvpCodec) (b : list byte) (p : panic) :
  parseMessageBuffer b = Panic p \/ ParseMessageBuffer b = Panic p ->
  p = PanicIndexOutOfRange \/ exists payload, parseAVPBuffer payload = Panic p.
Proof.
  intros [H|H].
  - eapply (parseMessageBufferWith_Panic_exact bytesToV2CtlMsg bytesToV3CtlMsg
              avpPanic); [| |exact H].
    + apply bytesToV2CtlMsg_Panic.
    + apply bytesToV3CtlMsg_Panic.
  - eapply (parseMessageBufferWith_Panic_exact
              newL2tpV2ControlMessage newL2tpV3ControlMessage avpPanic);
      [| |exact H].
    + apply newL2tpV2ControlMessage_Panic.
    + intros frame q _ Hq. discriminate Hq.
Qed.

Lemma parser_panics_witness :
  (parseMessageBuffer length13Frame = Panic PanicIndexOutOfRange
   \/ ParseMessageBuffer length13Frame = Panic PanicIndexOutOfRange)
  /\ (PanicIndexOutOfRange = PanicIndexOutOfRange
      \/ exists payload, parseAVPBuffer payload = Panic PanicIndexOutOfRange).
Proof.
  assert (H : parseMessageBuffer length13Frame = Panic PanicIndexOutOfRange
              \/ ParseMessageBuffer length13Frame = Panic PanicIndexOutOfRange)
    by (left; reflexivity).
  exact (conj H (parser_panics AvpModel.codec length13Frame
                   PanicIndexOutOfRange H)).
Defined.

(** X20.  Called on its own, the v3 decoder of the later revision
    does not check the length field against the header length: for
    every AVP subsystem, on a buffer of at least twelve octets whose
    length field is below twelve, it panics with slice bounds out of
    range, where the v2 decoder returns a message without AVPs. *)
Theorem v3_decoder_length_field_below_header
    (codec : AvpCodec) (b : list byte) (L : Z) :
  v3HeaderLen <= len b -> lengthField b = Some L -> L < v3HeaderLen ->
  bytesToV3CtlMsg b = Panic PanicSliceBoundsOutOfRange
  /\ exists hdr, bytesToV2CtlMsg b = Ok (mkV2 hdr []).
Proof.
  intros Hlen Hfield HL. split.
  - unfold bytesToV3CtlMsg.
    destruct (readV3Header (NewReader b)) as [[hdr r]|e|p] eqn:Hr.
    + destruct (readV3Header_inv _ _ _ Hr) as (_ & _ & _ & Hlf).
      rewrite Hfield in Hlf. injection Hlf as Hlf.
      cbn [mbind result_bind]. rewrite <- Hlf.
      rewrite slice_inverted by exact HL. reflexivity.
    + exfalso. unfold readV3Header in Hr.
      rewrite readFull_NewReader in Hr by (unfold v3HeaderLen in *; lia).
      cbn [mbind result_bind] in Hr.
      destruct (buffer_min_len b Hlen)
        as (f0 & f1 & l0 & l1 & t0 & t1 & s0 & s1 & n0 & n1 & r0 & r1 & rest & ->).
      discriminate Hr.
    + exfalso. exact (readV3Header_no_panic _ _ Hr).
  - destruct (buffer_min_len b Hlen)
      as (f0 & f1 & l0 & l1 & t0 & t1 & s0 & s1 & n0 & n1 & r0 & r1 & rest & ->).
    cbn [lengthField] in Hfield. injection Hfield as Hfield.
    unfold bytesToV2CtlMsg. rewrite readV2Header_cons.
    cbn [mbind result_bind Common Len]. rewrite Hfield.
    destruct (Z.ltb_spec v2HeaderLen L) as [Hgt|_];
      [unfold v2HeaderLen, v3HeaderLen in *; lia|].
    eexists. reflexivity.
Qed.

Lemma v3_decoder_length_field_below_header_witness :
  v3HeaderLen <= len v3Length8Frame
  /\ lengthField v3Length8Frame = Some 8
  /\ 8 < v3HeaderLen
  /\ bytesToV3CtlMsg v3Length8Frame = Panic PanicSliceBoundsOutOfRange
  /\ exists hdr, bytesToV2CtlMsg v3Length8Frame = Ok (mkV2 hdr []).
Proof.
  assert (H1 : v3HeaderLen <= len v3Length8Frame) by (vm_compute; discriminate).
  assert (H2 : lengthField v3Length8Frame = Some 8) by reflexivity.
  assert (H3 : 8 < v3HeaderLen) by reflexivity.
  exact (conj H1 (conj H2 (conj H3
          (v3_decoder_length_field_below_header AvpModel.codec v3Length8Frame 8
             H1 H2 H3)))).
Defined.

(** ** From the builders to the wire and back *)

Section Wire.

Context `{codec : AvpCodec}.

Lemma totalLens_encodedLens (l : list avp) :
  Forall (fun a => totalLen a = encodedLen a) l -> totalLens l = encodedLens l.
Proof.
  induction 1 as [|a l Ha _ IH]; [reflexivity|].
  change (totalLens (a :: l)) with (totalLen a + totalLens l).
  change (encodedLens (a :: l)) with (encodedLen a + encodedLens l).
  rewrite Ha, IH. reflexivity.
Qed.

End Wire.

(** X22.  A built message survives the wire: for every AVP subsystem
    whose [avpsLengthBytes] is 0 for no AVPs, when a tunnel-message builder
    returns a message whose AVPs have the total lengths of their
    encodings, start with a Message Type AVP and are read back by the
    AVP parser, and the message is at most 65535 octets long, then the
    parser of the later revision, given the encoding of the message,
    alone or followed by fewer than sixteen further octets, returns
    exactly that message. *)
Theorem built_message_roundtrip
    (codec : AvpCodec) (ptid : ControlConnID) (ins : list avpIn)
    (m : v2ControlMessage) (tail : list byte) :
  0 <= ptid -> buildV2TunnelMsg ptid ins = Ok m ->
  avpsLengthBytes [] = 0 ->
  Forall (fun a => totalLen a = encodedLen a) (avps m) ->
  firstIsMessageType (avps m) ->
  parseAVPBuffer (flat_map writeAvp (avps m)) = Ok (avps m) ->
  v2HeaderLen + encodedLens (avps m) <= controlMessageMaxLen ->
  len tail < controlMessageMinLen + commonHeaderLen ->
  (b ← toBytes m; parseMessageBuffer (b ++ tail)) = Ok [V2Message m].
Proof.
  intros H0 Hb Hnil Hlens Hfirst Hparse Hmax Htail.
  destruct (buildV2TunnelMsg_Ok_inv codec ptid ins m H0 Hb)
    as (Hle & Hh & _ & _).
  rewrite Hnil, (totalLens_encodedLens _ Hlens) in Hh.
  pose proof (encodedLens_nonneg (avps m)) as Hnn.
  unfold controlMessageMaxLen, v2HeaderLen, v2TidSidMax in *.
  rewrite Z.add_0_r, Z.mod_small in Hh by lia.
  apply parseMessageBuffer_toBytes; try assumption; rewrite Hh.
  - unfold wf_v2Header, wf_common, is_uint16. cbn. lia.
  - reflexivity.
  - reflexivity.
Qed.

Lemma built_message_roundtrip_witness :
  0 <= 1
  /\ buildV2TunnelMsg 1 helloIns = Ok helloMessage
  /\ avpsLengthBytes [] = 0
  /\ Forall (fun a => totalLen a = encodedLen a) (avps helloMessage)
  /\ firstIsMessageType (avps helloMessage)
  /\ parseAVPBuffer (flat_map writeAvp (avps helloMessage))
     = Ok (avps helloMessage)
  /\ v2HeaderLen + encodedLens (avps helloMessage) <= controlMessageMaxLen
  /\ len gap < controlMessageMinLen + commonHeaderLen
  /\ (b ← toBytes helloMessage; parseMessageBuffer (b ++ gap))
     = Ok [V2Message helloMessage].
Proof.
  assert (H1 : 0 <= 1) by lia.
  assert (H2 : buildV2TunnelMsg 1 helloIns = Ok helloMessage) by reflexivity.
  assert (H3 : avpsLengthBytes [] = 0) by reflexivity.
  assert (H4 : Forall (fun a => totalLen a = encodedLen a) (avps helloMessage))
    by (repeat constructor).
  assert (H5 : firstIsMessageType (avps helloMessage)) by reflexivity.
  assert (H6 : parseAVPBuffer (flat_map writeAvp (avps helloMessage))
               = Ok (avps helloMessage)) by reflexivity.
  assert (H7 : v2HeaderLen + encodedLens (avps helloMessage)
               <= controlMessageMaxLen) by (vm_compute; discriminate).
  assert (H8 : len gap < controlMessageMinLen + commonHeaderLen) by reflexivity.
  exact (conj H1 (conj H2 (conj H3 (conj H4 (conj H5 (conj H6 (conj H7 (conj H8
          (built_message_roundtrip AvpModel.codec 1 helloIns helloMessage gap
             H1 H2 H3 H4 H5 H6 H7 H8))))))))).
Defined.

(** X23.  Setting the transport sequence numbers changes octets 8 to
    11 of the encoding and nothing else: for every AVP subsystem and
    every v2 message, the encoding after [setTransportSeqNum] is the
    first eight octets of the encoding before, the two sequence
    numbers in big-endian order, and the encoding before from octet
    twelve on; its length, the length field and the AVPs are
    unchanged. *)
Theorem setTransportSeqNum_encoding
    (codec : AvpCodec) (m : v2ControlMessage) (ns' nr' : Z) (b : list byte) :
  toBytes m = Ok b ->
  toBytes (setTransportSeqNum m ns' nr')
  = Ok (firstn 8 b ++ putUint16 ns' ++ putUint16 nr' ++ skipn 12 b)
  /\ len (firstn 8 b ++ putUint16 ns' ++ putUint16 nr' ++ skipn 12 b) = len b
  /\ getLen (setTransportSeqNum m ns' nr') = getLen m
  /\ getAvps (setTransportSeqNum m ns' nr') = getAvps m.
Proof.
  intros [= <-]. destruct m as [[[f l] t s n r] a].
  split; [reflexivity|]. split; [|split; reflexivity].
  cbn [header avps]. unfold writeV2Header, writeCommonHeader, putUint16.
  cbn [app firstn skipn Common Tid Sid Ns Nr FlagsVer Len].
  unfold len. cbn [length]. reflexivity.
Qed.

Lemma setTransportSeqNum_encoding_witness :
  toBytes helloMessage = Ok helloFrame
  /\ toBytes (setTransportSeqNum helloMessage 3 5)
     = Ok (firstn 8 helloFrame ++ putUint16 3 ++ putUint16 5
           ++ skipn 12 helloFrame)
  /\ len (firstn 8 helloFrame ++ putUint16 3 ++ putUint16 5
          ++ skipn 12 helloFrame) = len helloFrame
  /\ getLen (setTransportSeqNum helloMessage 3 5) = getLen helloMessage
  /\ getAvps (setTransportSeqNum helloMessage 3 5) = getAvps helloMessage.
Proof.
  assert (H : toBytes helloMessage = Ok helloFrame) by reflexivity.
  exact (conj H (setTransportSeqNum_encoding AvpModel.codec helloMessage 3 5
                   helloFrame H)).
Defined.
